(** * Digital wallet: the ledger of [WalletContext.tsx]

    A shallow embedding of the wallet provider (balance derivation, rate
    limits, deposit / withdraw / transfer, history) and of the part of the
    auth provider it depends on ([User], [getUserById]).

    Conventions of the embedding.
    - Amounts are JavaScript numbers in the source.  This first embedding
      takes them as integers ([Z], an amount in minor units): NaN,
      infinities and rounding are outside of it.  What depends on how
      amounts add up, or on what a render has seen, is stated over the
      module [Ledger] further down: the provider once more, with the
      arithmetic of amounts left open (doubles included) and every call
      issued from an explicit render.
    - A [Date] is its epoch value in milliseconds ([Z]); comparing two dates
      compares these values.
    - The wall clock ([Date.now()], [new Date()]) and [uuidv4()] are the
      host's: every call consumes the next reading of an oracle carried by
      the [World].  Two successive readings are unrelated unless a statement
      says otherwise.
    - A React render closes over [currentUser] and [transactions]: that
      snapshot is a [Render].  [setTransactions (prev => ...)] acts on the
      committed state, the [store] of the [World].
    - [await new Promise(resolve => setTimeout(resolve, 500))] does nothing
      to the ledger; the time that passes shows in the clock readings only. *)

From Stdlib Require Import ZArith List String Bool Lia DecimalString.
Import ListNotations.
Open Scope string_scope.
Open Scope list_scope.
Open Scope Z_scope.

(** ** AuthContext: users and lookup by id *)

Module Auth.

Record User := mkUser {
  id : string;
  name : string;
  email : string;
  password : string;
  createdAt : Z
}.

(** [users.find(u => u.id === id)] *)
Definition getUserById (users : list User) (i : string) : option User :=
  find (fun u => String.eqb (id u) i) users.

End Auth.

(** ** WalletContext: data *)

Inductive TransactionType :=
| ty_deposit
| ty_withdrawal
| ty_transfer_in
| ty_transfer_out.

Record Transaction := mkTransaction {
  id : string;
  userId : string;
  type : TransactionType;
  amount : Z;
  senderOrRecipient : option string;
  timestamp : Z;
  description : option string
}.

Record Limits := mkLimits {
  maxTransactionsPerMinute : Z;
  maxAmountPerTransaction : Z;
  maxDailyWithdrawal : Z;
  maxDailyTransfer : Z
}.

Definition TRANSACTION_LIMITS : Limits :=
  {| maxTransactionsPerMinute := 5;
     maxAmountPerTransaction := 10000;
     maxDailyWithdrawal := 5000;
     maxDailyTransfer := 5000 |}.

(** The second argument of [checkRateLimits]: ['withdrawal' | 'transfer']. *)
Inductive LimitedKind := lk_withdrawal | lk_transfer.

(** What one render of the provider closes over. *)
Record Render := mkRender {
  currentUser : option Auth.User;
  transactions : list Transaction
}.

(** ** The host: committed state, clock, identifiers *)

Record World := mkWorld {
  store : list Transaction;      (* the React state behind [transactions] *)
  clock : nat -> Z;              (* the readings of the wall clock to come *)
  uuids : nat -> string;         (* the identifiers [uuidv4] will return *)
  startOfDay : Z -> Z            (* [d.setHours(0,0,0,0)] in the local zone *)
}.

Definition M (A : Type) : Type := World -> A * World.

Definition ret {A} (a : A) : M A := fun w => (a, w).

Definition bind {A B} (c : M A) (k : A -> M B) : M B :=
  fun w => let (a, w') := c w in k a w'.

Notation "x <- c ;; k" := (bind c (fun x => k))
  (at level 61, c at next level, right associativity).
Notation "c ;;; k" := (bind c (fun _ => k))
  (at level 61, right associativity).

(** [Date.now()] and [new Date()]: the next clock reading. *)
Definition Date_now : M Z :=
  fun w => (clock w 0%nat,
            {| store := store w;
               clock := fun n => clock w (S n);
               uuids := uuids w;
               startOfDay := startOfDay w |}).

(** [const today = new Date(); today.setHours(0, 0, 0, 0)] *)
Definition Date_today : M Z :=
  fun w => let (d, w') := Date_now w in (startOfDay w d, w').

Definition uuidv4 : M string :=
  fun w => (uuids w 0%nat,
            {| store := store w;
               clock := clock w;
               uuids := fun n => uuids w (S n);
               startOfDay := startOfDay w |}).

(** [setTransactions(updater)] *)
Definition setTransactions (f : list Transaction -> list Transaction) : M unit :=
  fun w => (tt,
            {| store := f (store w);
               clock := clock w;
               uuids := uuids w;
               startOfDay := startOfDay w |}).

(** [await new Promise(resolve => setTimeout(resolve, ms))] *)
Definition sleep (ms : Z) : M unit := ret tt.

(** ** WalletContext: balance *)

(** [t.userId === currentUser?.id] *)
Definition ownedBy (cu : option Auth.User) (t : Transaction) : bool :=
  match cu with
  | Some u => String.eqb (userId t) (Auth.id u)
  | None => false
  end.

(** The body of the [reduce].  The [default] branch of the [switch] is not
    reachable: a [TransactionType] is one of the four cases. *)
Definition balanceStep (total : Z) (t : Transaction) : Z :=
  match type t with
  | ty_deposit | ty_transfer_in => total + amount t
  | ty_withdrawal | ty_transfer_out => total - amount t
  end.

Definition balance (r : Render) : Z :=
  fold_left balanceStep (filter (ownedBy (currentUser r)) (transactions r)) 0.

(** ** WalletContext: rate limits *)

Definition isType (k : TransactionType) (t : Transaction) : bool :=
  match k, type t with
  | ty_deposit, ty_deposit
  | ty_withdrawal, ty_withdrawal
  | ty_transfer_in, ty_transfer_in
  | ty_transfer_out, ty_transfer_out => true
  | _, _ => false
  end.

(** [.reduce((sum, t) => sum + t.amount, 0)] *)
Definition sumAmounts (l : list Transaction) : Z :=
  fold_left (fun sum t => sum + amount t) l 0.

Definition recentTransactions (u : Auth.User) (txs : list Transaction)
    (oneMinuteAgo : Z) : list Transaction :=
  filter (fun t => String.eqb (userId t) (Auth.id u)
                   && (timestamp t >? oneMinuteAgo)) txs.

Definition dailyTotal (k : TransactionType) (u : Auth.User)
    (txs : list Transaction) (today : Z) : Z :=
  sumAmounts
    (filter (fun t => String.eqb (userId t) (Auth.id u)
                      && isType k t
                      && (timestamp t >=? today)) txs).

Definition checkRateLimits (r : Render) (amt : Z) (kind : LimitedKind) : M bool :=
  match currentUser r with
  | None => ret false
  | Some u =>
    if amt >? maxAmountPerTransaction TRANSACTION_LIMITS then ret false else
    now <- Date_now ;;
    let oneMinuteAgo := now - 60000 in
    if Z.of_nat (List.length (recentTransactions u (transactions r) oneMinuteAgo))
         >=? maxTransactionsPerMinute TRANSACTION_LIMITS
    then ret false else
    today <- Date_today ;;
    match kind with
    | lk_withdrawal =>
        let dailyWithdrawals := dailyTotal ty_withdrawal u (transactions r) today in
        if dailyWithdrawals + amt >? maxDailyWithdrawal TRANSACTION_LIMITS
        then ret false else ret true
    | lk_transfer =>
        let dailyTransfers := dailyTotal ty_transfer_out u (transactions r) today in
        if dailyTransfers + amt >? maxDailyTransfer TRANSACTION_LIMITS
        then ret false else ret true
    end
  end.

(** ** WalletContext: the three operations and the history *)

Definition deposit (r : Render) (amt : Z) (desc : option string) : M bool :=
  match currentUser r with
  | None => ret false
  | Some u =>
    if amt <=? 0 then ret false else
    sleep 500 ;;;
    i <- uuidv4 ;;
    ts <- Date_now ;;
    let newTransaction :=
      {| id := i; userId := Auth.id u; type := ty_deposit; amount := amt;
         senderOrRecipient := None; timestamp := ts; description := desc |} in
    setTransactions (fun prev => prev ++ [newTransaction]) ;;;
    ret true
  end.

Definition withdraw (r : Render) (amt : Z) (desc : option string) : M bool :=
  match currentUser r with
  | None => ret false
  | Some u =>
    if (amt <=? 0) || (amt >? balance r) then ret false else
    ok <- checkRateLimits r amt lk_withdrawal ;;
    if negb ok then ret false else
    sleep 500 ;;;
    i <- uuidv4 ;;
    ts <- Date_now ;;
    let newTransaction :=
      {| id := i; userId := Auth.id u; type := ty_withdrawal; amount := amt;
         senderOrRecipient := None; timestamp := ts; description := desc |} in
    setTransactions (fun prev => prev ++ [newTransaction]) ;;;
    ret true
  end.

(** Each of the two entries is built with its own [uuidv4()] and its own
    [new Date()]; one [setTransactions] appends both. *)
Definition transfer (r : Render) (amt : Z) (recipientId : string)
    (desc : option string) : M bool :=
  match currentUser r with
  | None => ret false
  | Some u =>
    if (amt <=? 0) || (amt >? balance r) || String.eqb (Auth.id u) recipientId
    then ret false else
    ok <- checkRateLimits r amt lk_transfer ;;
    if negb ok then ret false else
    sleep 500 ;;;
    i1 <- uuidv4 ;;
    ts1 <- Date_now ;;
    let outgoingTransaction :=
      {| id := i1; userId := Auth.id u; type := ty_transfer_out; amount := amt;
         senderOrRecipient := Some recipientId; timestamp := ts1;
         description := desc |} in
    i2 <- uuidv4 ;;
    ts2 <- Date_now ;;
    let incomingTransaction :=
      {| id := i2; userId := recipientId; type := ty_transfer_in; amount := amt;
         senderOrRecipient := Some (Auth.id u); timestamp := ts2;
         description := desc |} in
    setTransactions
      (fun prev => prev ++ [outgoingTransaction; incomingTransaction]) ;;;
    ret true
  end.

(** [Array.prototype.sort] with the comparator [(a, b) => b.timestamp -
    a.timestamp]: most recent first, stable. *)
Fixpoint insertByTimestamp (x : Transaction) (l : list Transaction)
    : list Transaction :=
  match l with
  | [] => [x]
  | y :: l' =>
      if timestamp y >? timestamp x then y :: insertByTimestamp x l'
      else x :: l
  end.

Definition sortByTimestampDesc (l : list Transaction) : list Transaction :=
  fold_right insertByTimestamp [] l.

Definition getTransactionHistory (r : Render) : list Transaction :=
  match currentUser r with
  | None => []
  | Some u =>
      sortByTimestampDesc
        (filter (fun t => String.eqb (userId t) (Auth.id u)) (transactions r))
  end.

(** ** The public surface, called from an up-to-date render

    The provider hands [deposit], [withdraw] and [transfer] to its consumers
    through the context value of the current render.  A [Call] is one such
    invocation; [perform] issues it from the render of the committed state,
    which is how the pages use the provider: one call at a time, the next
    one after the re-render. *)

Inductive Call :=
| Deposit (amt : Z) (desc : option string)
| Withdraw (amt : Z) (desc : option string)
| Transfer (amt : Z) (recipientId : string) (desc : option string).

Definition invoke (r : Render) (c : Call) : M bool :=
  match c with
  | Deposit a d => deposit r a d
  | Withdraw a d => withdraw r a d
  | Transfer a rcp d => transfer r a rcp d
  end.

Definition render (cu : option Auth.User) (w : World) : Render :=
  {| currentUser := cu; transactions := store w |}.

Definition perform (cu : option Auth.User) (c : Call) : M bool :=
  fun w => invoke (render cu w) c w.

(** A session: who is logged in at each call, and the call. *)
Fixpoint run (calls : list (option Auth.User * Call)) (w : World) : World :=
  match calls with
  | [] => w
  | (cu, c) :: rest => run rest (snd (perform cu c w))
  end.

(** ** Vocabulary of the specification *)

Definition isCredit (t : Transaction) : bool :=
  isType ty_deposit t || isType ty_transfer_in t.

Definition isDebit (t : Transaction) : bool :=
  isType ty_withdrawal t || isType ty_transfer_out t.

(** The sum of the amounts of a list of entries. *)
Definition total (l : list Transaction) : Z :=
  fold_right (fun t acc => amount t + acc) 0 l.

(** The entries of an actor, in log order. *)
Definition entriesOf (actorId : string) (log : list Transaction)
    : list Transaction :=
  filter (fun t => String.eqb (userId t) actorId) log.

(** [BalanceOf(actor)] on a log: the balance a render for that actor shows. *)
Definition BalanceOf (actor : Auth.User) (log : list Transaction) : Z :=
  balance {| currentUser := Some actor; transactions := log |}.

(** The contribution of one entry to its owner's balance. *)
Definition signed (t : Transaction) : Z :=
  if isCredit t then amount t else - amount t.


(** The world after one more reading of the clock. *)
Definition tick (w : World) : World := snd (Date_now w).

(** The verdict of [checkRateLimits] for user [u] on log [txs], as a function
    of what it reads from the host: [now] is the value of [Date.now()] and
    [today] the local midnight computed from [new Date()]. *)
Definition verdict (u : Auth.User) (txs : list Transaction) (amt : Z)
    (kind : LimitedKind) (now today : Z) : bool :=
  if amt >? maxAmountPerTransaction TRANSACTION_LIMITS then false else
  if Z.of_nat (List.length (recentTransactions u txs (now - 60000)))
       >=? maxTransactionsPerMinute TRANSACTION_LIMITS then false else
  match kind with
  | lk_withdrawal =>
      negb (dailyTotal ty_withdrawal u txs today + amt
              >? maxDailyWithdrawal TRANSACTION_LIMITS)
  | lk_transfer =>
      negb (dailyTotal ty_transfer_out u txs today + amt
              >? maxDailyTransfer TRANSACTION_LIMITS)
  end.

(** *** The rate limiter as the specification words it

    [Evaluate(actorId, amount, category, history, now)]: the per-transaction
    cap first, then the per-minute cap over the actor's entries newer than
    [now - 60s], then the daily cap of the category over the actor's entries
    since the start of the calendar day of [now]; otherwise allow.  The
    calendar ([dayStart]) is the host's. *)

Inductive DenyReason :=
| PerTransactionCap
| PerMinuteCap
| DailyWithdrawalCap
| DailyTransferCap.

Inductive Decision :=
| Allow
| Deny (why : DenyReason).

Definition isWithdrawalCategory (c : LimitedKind) : bool :=
  match c with lk_withdrawal => true | lk_transfer => false end.

Definition isTransferCategory (c : LimitedKind) : bool :=
  match c with lk_transfer => true | lk_withdrawal => false end.

Definition countSince (bound : Z) (l : list Transaction) : Z :=
  Z.of_nat (List.length (filter (fun t => bound <? timestamp t) l)).

Definition sumOfTypeFrom (k : TransactionType) (start : Z)
    (l : list Transaction) : Z :=
  total (filter (fun t => start <=? timestamp t) (filter (isType k) l)).

Definition Evaluate (dayStart : Z -> Z) (actorId : string) (amt : Z)
    (category : LimitedKind) (history : list Transaction) (now : Z)
    : Decision :=
  let mine := entriesOf actorId history in
  if 10000 <? amt then Deny PerTransactionCap
  else if 5 <=? countSince (now - 60000) mine then Deny PerMinuteCap
  else if isWithdrawalCategory category
          && (5000 <? sumOfTypeFrom ty_withdrawal (dayStart now) mine + amt)
       then Deny DailyWithdrawalCap
  else if isTransferCategory category
          && (5000 <? sumOfTypeFrom ty_transfer_out (dayStart now) mine + amt)
       then Deny DailyTransferCap
  else Allow.

(** *** Sessions and sums over actors *)

(** What one call may add to a log: nothing, one deposit, one covered
    withdrawal, or the two entries of a covered transfer. *)
Inductive appended (log : list Transaction) : list Transaction -> Prop :=
| appended_nothing : appended log []
| appended_deposit (u : Auth.User) (tx : Transaction) :
    userId tx = Auth.id u -> type tx = ty_deposit -> 0 < amount tx ->
    appended log [tx]
| appended_withdrawal (u : Auth.User) (tx : Transaction) :
    userId tx = Auth.id u -> type tx = ty_withdrawal ->
    0 < amount tx -> amount tx <= BalanceOf u log ->
    appended log [tx]
| appended_transfer (u : Auth.User) (out inc : Transaction) :
    userId out = Auth.id u -> type out = ty_transfer_out ->
    userId inc <> Auth.id u -> type inc = ty_transfer_in ->
    amount inc = amount out ->
    0 < amount out -> amount out <= BalanceOf u log ->
    appended log [out; inc].

(** The sum of [BalanceOf] over a list of actors. *)
Definition sumBalances (actors : list Auth.User) (log : list Transaction) : Z :=
  fold_right (fun a acc => BalanceOf a log + acc) 0 actors.

(** Every entry of the log belongs to one of the listed actors. *)
Definition covers (actors : list Auth.User) (log : list Transaction) : Prop :=
  forall t, In t log -> In (userId t) (map Auth.id actors).

Definition totalDeposited (log : list Transaction) : Z :=
  total (filter (isType ty_deposit) log).

Definition totalWithdrawn (log : list Transaction) : Z :=
  total (filter (isType ty_withdrawal) log).

(** *** Sample data for the closed examples *)

Definition alice : Auth.User :=
  {| Auth.id := "alice"; Auth.name := "Alice";
     Auth.email := "alice@example.org"; Auth.password := "a-secret";
     Auth.createdAt := 0 |}.

Definition bob : Auth.User :=
  {| Auth.id := "bob"; Auth.name := "Bob";
     Auth.email := "bob@example.org"; Auth.password := "b-secret";
     Auth.createdAt := 0 |}.

(** A clock that advances by one millisecond at every reading. *)
Definition tickingFrom (start : Z) : nat -> Z := fun n => start + Z.of_nat n.

(** A clock that stands still. *)
Definition frozenAt (t : Z) : nat -> Z := fun _ => t.

Definition serialIds : nat -> string :=
  fun n => String.append "tx-" (NilEmpty.string_of_uint (Nat.to_uint n)).

(** Midnight in a zone without offset. *)
Definition utcMidnight (d : Z) : Z := d - d mod 86400000.

Definition worldWith (log : list Transaction) (c : nat -> Z) : World :=
  {| store := log; clock := c; uuids := serialIds; startOfDay := utcMidnight |}.

Definition entry (i owner : string) (k : TransactionType) (a ts : Z)
    : Transaction :=
  {| id := i; userId := owner; type := k; amount := a;
     senderOrRecipient := None; timestamp := ts; description := None |}.

(** Alice deposited 100 one hour into day 20000. *)
Definition aliceHas100 : list Transaction :=
  [entry "d-1" "alice" ty_deposit 100 1728003600000].

(** Alice deposited 20000 one hour into day 20000. *)
Definition aliceHas20000 : list Transaction :=
  [entry "d-1" "alice" ty_deposit 20000 1728003600000].

(** Two hours into day 20000. *)
Definition twoHoursIn : Z := 1728007200000.

(** The scenario of the specification: Alice deposits 100, withdraws 30,
    transfers 50 to Bob, then asks for 25 more than she has left. *)
Definition scenario : list (option Auth.User * Call) :=
  [ (Some alice, Deposit 100 None);
    (Some alice, Withdraw 30 None);
    (Some alice, Transfer 50 "bob" None);
    (Some alice, Withdraw 25 None) ].

(** A fresh ledger whose clock starts two hours into day 20000 and advances
    by a millisecond per reading. *)
Definition freshWorld : World := worldWith [] (tickingFrom twoHoursIn).

(** The signed sum of a whole log. *)
Definition netFlow (log : list Transaction) : Z :=
  fold_right (fun t acc => signed t + acc) 0 log.

(** The entry type a limited category is charged against. *)
Definition chargedType (c : LimitedKind) : TransactionType :=
  match c with
  | lk_withdrawal => ty_withdrawal
  | lk_transfer => ty_transfer_out
  end.

(** Six withdrawals of 1 in a row. *)
Definition sixWithdrawals : list (option Auth.User * Call) :=
  repeat (Some alice, Withdraw 1 None) 6.

(** Why a call is refused: the guards of the three operations. *)
Definition refused (r : Render) (c : Call) (w : World) : Prop :=
  currentUser r = None \/
  match c with
  | Deposit a _ => a <= 0
  | Withdraw a _ =>
      a <= 0 \/ balance r < a
      \/ fst (checkRateLimits r a lk_withdrawal w) = false
  | Transfer a rcp _ =>
      a <= 0 \/ balance r < a
      \/ (exists u, currentUser r = Some u /\ Auth.id u = rcp)
      \/ fst (checkRateLimits r a lk_transfer w) = false
  end.

(** Alice's deposit of an hour ago and five withdrawals of 1 made within
    five milliseconds of [twoHoursIn]. *)
Definition busyMinute : list Transaction :=
  store (run (firstn 5 sixWithdrawals)
             (worldWith aliceHas100 (tickingFrom twoHoursIn))).

(** The same with four withdrawals only. *)
Definition calmMinute : list Transaction :=
  store (run (firstn 4 sixWithdrawals)
             (worldWith aliceHas100 (tickingFrom twoHoursIn))).

(** * Further definitions: the rest of the providers and the pages *)

From Stdlib Require Import Permutation Sorted DecimalNat.

(** ** Dashboard: the recent transactions

    [getTransactionHistory().slice(0, 5)] *)
Definition recentOnDashboard (r : Render) : list Transaction :=
  firstn 5 (getTransactionHistory r).

(** [a] is shown before [b] in a history: [a] is at least as recent. *)
Definition noOlderThan (a b : Transaction) : Prop :=
  timestamp b <= timestamp a.

(** ** What a call commits, and what it consumes from the host *)

(** [w'] is [w] after appending [batch], reading the clock [reads] times and
    drawing one identifier per appended entry. *)
Definition effect (batch : list Transaction) (reads : nat) (w w' : World)
    : Prop :=
  store w' = store w ++ batch
  /\ (forall n, clock w' n = clock w (reads + n)%nat)
  /\ (forall n, uuids w' n = uuids w (List.length batch + n)%nat)
  /\ (forall d, startOfDay w' d = startOfDay w d).

(** The four outcomes of a call issued by [cu] from the render of [w]: the
    entries appended and the number of clock readings consumed. *)
Inductive Commit (cu : option Auth.User) (w : World)
    : list Transaction -> nat -> Prop :=
| commit_refused (reads : nat) :
    (reads <= 2)%nat -> Commit cu w [] reads
| commit_deposit (u : Auth.User) (a : Z) (d : option string) :
    cu = Some u -> 0 < a ->
    Commit cu w
      [ {| id := uuids w 0%nat; userId := Auth.id u; type := ty_deposit;
           amount := a; senderOrRecipient := None;
           timestamp := clock w 0%nat; description := d |} ] 1
| commit_withdraw (u : Auth.User) (a : Z) (d : option string) :
    cu = Some u -> 0 < a -> a <= BalanceOf u (store w) ->
    verdict u (store w) a lk_withdrawal (clock w 0%nat)
      (startOfDay w (clock w 1%nat)) = true ->
    Commit cu w
      [ {| id := uuids w 0%nat; userId := Auth.id u; type := ty_withdrawal;
           amount := a; senderOrRecipient := None;
           timestamp := clock w 2%nat; description := d |} ] 3
| commit_transfer (u : Auth.User) (a : Z) (rcp : string) (d : option string) :
    cu = Some u -> 0 < a -> a <= BalanceOf u (store w) ->
    Auth.id u <> rcp ->
    verdict u (store w) a lk_transfer (clock w 0%nat)
      (startOfDay w (clock w 1%nat)) = true ->
    Commit cu w
      [ {| id := uuids w 0%nat; userId := Auth.id u; type := ty_transfer_out;
           amount := a; senderOrRecipient := Some rcp;
           timestamp := clock w 2%nat; description := d |};
        {| id := uuids w 1%nat; userId := rcp; type := ty_transfer_in;
           amount := a; senderOrRecipient := Some (Auth.id u);
           timestamp := clock w 3%nat; description := d |} ] 4.

(** A log in which transfers occur only as adjacent pairs: a transfer_out
    immediately followed by the transfer_in of the same amount whose owner
    is the counterparty of the first and whose counterparty is its owner. *)
Inductive paired : list Transaction -> Prop :=
| paired_nil : paired []
| paired_single (t : Transaction) (rest : list Transaction) :
    (type t = ty_deposit \/ type t = ty_withdrawal) ->
    paired rest -> paired (t :: rest)
| paired_transfer (out inc : Transaction) (rest : list Transaction) :
    type out = ty_transfer_out -> type inc = ty_transfer_in ->
    amount inc = amount out ->
    senderOrRecipient out = Some (userId inc) ->
    senderOrRecipient inc = Some (userId out) ->
    userId inc <> userId out ->
    paired rest -> paired (out :: inc :: rest).

(** A clock that never runs backwards. *)
Definition monotone (c : nat -> Z) : Prop :=
  forall i j : nat, (i <= j)%nat -> c i <= c j.

(** [a] was committed no later than [b], by their timestamps. *)
Definition noLaterThan (a b : Transaction) : Prop :=
  timestamp a <= timestamp b.

(** ** AuthContext: the provider

    The provider holds [currentUser] and [users]; [login] and [register]
    read the [users] of the render they were handed out by and write with
    [setCurrentUser] and [setUsers (prev => ...)].  Storing the two in
    [localStorage] has no effect on what the functions return. *)

Record AuthWorld := mkAuthWorld {
  currentUserState : option Auth.User;   (* the React state [currentUser] *)
  usersState : list Auth.User;           (* the React state [users] *)
  authClock : nat -> Z;                  (* readings of the wall clock to come *)
  authUuids : nat -> string              (* identifiers [uuidv4] will return *)
}.

(** [setCurrentUser(v)] *)
Definition setCurrentUser (v : option Auth.User) (a : AuthWorld) : AuthWorld :=
  {| currentUserState := v; usersState := usersState a;
     authClock := authClock a; authUuids := authUuids a |}.

Definition login (users : list Auth.User) (email password : string)
    (a : AuthWorld) : bool * AuthWorld :=
  match find (fun u => String.eqb (Auth.email u) email
                       && String.eqb (Auth.password u) password) users with
  | Some user => (true, setCurrentUser (Some user) a)
  | None => (false, a)
  end.

Definition register (users : list Auth.User) (name email password : string)
    (a : AuthWorld) : bool * AuthWorld :=
  if existsb (fun u => String.eqb (Auth.email u) email) users then (false, a)
  else
    let newUser :=
      {| Auth.id := authUuids a 0%nat; Auth.name := name;
         Auth.email := email; Auth.password := password;
         Auth.createdAt := authClock a 0%nat |} in
    (true,
     {| currentUserState := Some newUser;
        usersState := usersState a ++ [newUser];
        authClock := fun n => authClock a (S n);
        authUuids := fun n => authUuids a (S n) |}).

Definition logout (a : AuthWorld) : AuthWorld := setCurrentUser None a.

(** [s.includes(sub)]: [sub] occurs in [s] as a contiguous run. *)
Fixpoint includes (s sub : string) : bool :=
  String.prefix sub s
  || match s with
     | EmptyString => false
     | String _ s' => includes s' sub
     end.

(** [!s] for a string: only the empty string is falsy. *)
Definition isEmpty (s : string) : bool :=
  match s with EmptyString => true | String _ _ => false end.

(** [toLowerCase] is the host's (its case mapping is not part of this
    development): the functions below take it as a parameter. *)
Definition getUsersByPartialName (toLowerCase : string -> string)
    (users : list Auth.User) (searchTerm : string) : list Auth.User :=
  if isEmpty searchTerm then []
  else
    let lowerSearchTerm := toLowerCase searchTerm in
    filter (fun u => includes (toLowerCase (Auth.name u)) lowerSearchTerm
                     || includes (toLowerCase (Auth.email u)) lowerSearchTerm)
           users.

(** One use of the auth provider, from an up-to-date render. *)
Inductive AuthCall :=
| Login (email password : string)
| Register (name email password : string)
| Logout.

Definition authPerform (c : AuthCall) (a : AuthWorld) : bool * AuthWorld :=
  match c with
  | Login e p => login (usersState a) e p a
  | Register n e p => register (usersState a) n e p a
  | Logout => (true, logout a)
  end.

Fixpoint authRun (calls : list AuthCall) (a : AuthWorld) : AuthWorld :=
  match calls with
  | [] => a
  | c :: rest => authRun rest (snd (authPerform c a))
  end.

(** ** The transfer page: the recipients offered

    [if (searchTerm.length >= 2) setRecipients(getUsersByPartialName(
    searchTerm).filter(user => user.id !== currentUser?.id)) else
    setRecipients([])].  The [length] of a JavaScript string counts UTF-16
    code units; like [toLowerCase] it is the host's and a parameter here. *)
Definition recipientsOffered (toLowerCase : string -> string)
    (lengthOf : string -> nat)
    (users : list Auth.User) (cu : option Auth.User) (searchTerm : string)
    : list Auth.User :=
  if (2 <=? lengthOf searchTerm)%nat then
    filter (fun user => match cu with
                        | Some c => negb (String.eqb (Auth.id user) (Auth.id c))
                        | None => true
                        end)
           (getUsersByPartialName toLowerCase users searchTerm)
  else [].

(** ** The history page: type toggles and filters *)

Definition typeEqb (a b : TransactionType) : bool :=
  match a, b with
  | ty_deposit, ty_deposit
  | ty_withdrawal, ty_withdrawal
  | ty_transfer_in, ty_transfer_in
  | ty_transfer_out, ty_transfer_out => true
  | _, _ => false
  end.

(** [prev.includes(type) ? prev.filter(t => t !== type) : [...prev, type]] *)
Definition toggleTransactionType (prev : list TransactionType)
    (k : TransactionType) : list TransactionType :=
  if existsb (typeEqb k) prev
  then filter (fun t => negb (typeEqb t k)) prev
  else prev ++ [k].

(** The filters of the page.  A bound of the date range is [None] when its
    field is empty, else the instant the field denotes; [endOfDay] is the
    host's [d.setHours(23, 59, 59, 999)]. *)
Record Filters := mkFilters {
  searchTerm : string;
  selectedTypes : list TransactionType;
  dateFrom : option Z;
  dateTo : option Z
}.

Definition passesFilters (toLowerCase : string -> string)
    (endOfDay : Z -> Z) (users : list Auth.User) (f : Filters)
    (t : Transaction) : bool :=
  if (0 <? List.length (selectedTypes f))%nat
     && negb (existsb (typeEqb (type t)) (selectedTypes f))
  then false else
  if match dateFrom f with
     | Some from => timestamp t <? from
     | None => false
     end
  then false else
  if match dateTo f with
     | Some to => timestamp t >? endOfDay to
     | None => false
     end
  then false else
  if negb (isEmpty (searchTerm f)) then
    let lowerSearchTerm := toLowerCase (searchTerm f) in
    let desc := match description t with
                | Some d => toLowerCase d
                | None => ""
                end in
    match senderOrRecipient t with
    | Some (String c rest) =>
        let userName :=
          match Auth.getUserById users (String c rest) with
          | Some user => toLowerCase (Auth.name user)
          | None => ""
          end in
        includes desc lowerSearchTerm || includes userName lowerSearchTerm
    | _ => includes desc lowerSearchTerm
    end
  else true.

Definition filteredTransactions (toLowerCase : string -> string)
    (endOfDay : Z -> Z) (users : list Auth.User) (f : Filters)
    (r : Render) : list Transaction :=
  filter (passesFilters toLowerCase endOfDay users f) (getTransactionHistory r).

(** Sample data: a case mapping for the letters A to Z. *)
Definition lowerLetter (c : Ascii.ascii) : Ascii.ascii :=
  let n := Ascii.nat_of_ascii c in
  if (65 <=? n)%nat && (n <=? 90)%nat then Ascii.ascii_of_nat (n + 32) else c.

Fixpoint lowerLetters (s : string) : string :=
  match s with
  | EmptyString => EmptyString
  | String c s' => String (lowerLetter c) (lowerLetters s')
  end.

Definition noFilters : Filters :=
  {| searchTerm := ""; selectedTypes := []; dateFrom := None; dateTo := None |}.

Definition emptyAuth : AuthWorld :=
  {| currentUserState := None; usersState := [];
     authClock := tickingFrom twoHoursIn; authUuids := serialIds |}.

(** ** The registration page: the handler [onSubmit]

    What the handler ends in: a navigation or an error message under the
    form.  The [catch] branch is not reached: the provider's functions do
    not throw.  The form hands its data to [onSubmit] only after its own
    validation (a name of two characters or more, an e-mail pattern, a
    password of six or more, a confirmation equal to the password); that
    validation is the form library's and is not embedded: [onSubmit] is the
    handler alone, on whatever data it is given. *)

Inductive SubmitOutcome :=
| navigate (path : string)
| setError (message : string).

Module RegisterPage.

Record RegisterFormInputs := mkInputs {
  name : string;
  email : string;
  password : string;
  confirmPassword : string
}.

Definition onSubmit (users : list Auth.User) (data : RegisterFormInputs)
    (a : AuthWorld) : SubmitOutcome * AuthWorld :=
  if negb (String.eqb (password data) (confirmPassword data))
  then (setError "Passwords do not match", a)
  else
    let (success, a') :=
      register users (name data) (email data) (password data) a in
    if success then (navigate "/dashboard", a')
    else (setError "Email is already in use", a').

End RegisterPage.

(** ** The dashboard and the transfer page: the money handlers

    The text field is read with [parseFloat]; here its result is given:
    [None] when it is NaN, else the amount.  A success toast quotes the
    amount formatted with [toFixed(2)]; here it carries the amount itself.
    The handlers use [balance] and the operations of one and the same
    context value, that is of one render. *)

Inductive Toast :=
| toastError (message : string)
| toastWithdrew (amt : Z)
| toastTransferred (amt : Z) (recipientName : string).

Definition handleWithdraw (r : Render) (parsed : option Z) : M Toast :=
  match parsed with
  | None => ret (toastError "Please enter a valid amount")
  | Some amt =>
    if amt <=? 0 then ret (toastError "Please enter a valid amount") else
    if amt >? balance r then ret (toastError "Insufficient funds") else
    success <- withdraw r amt (Some "Manual withdrawal") ;;
    if success then ret (toastWithdrew amt)
    else ret (toastError
                "Withdrawal failed. Please check your limits and try again.")
  end.

Definition handleTransfer (r : Render) (selectedRecipient : option Auth.User)
    (parsed : option Z) (desc : string) : M Toast :=
  match selectedRecipient with
  | None => ret (toastError "Please select a recipient")
  | Some recipient =>
    match parsed with
    | None => ret (toastError "Please enter a valid amount")
    | Some amt =>
      if amt <=? 0 then ret (toastError "Please enter a valid amount") else
      if amt >? balance r then ret (toastError "Insufficient funds") else
      success <- transfer r amt (Auth.id recipient) (Some desc) ;;
      if success then ret (toastTransferred amt (Auth.name recipient))
      else ret (toastError
                  "Transfer failed. Please check your limits and try again.")
    end
  end.

(** * Further definitions: the clock read twice, the arithmetic of amounts *)

(** The rules of [Evaluate] with the two instants the provider reads: the
    minute of rule (2) ends at [now], the calendar day of rules (3) and (4)
    is the day of [later]. *)
Definition EvaluateTwice (dayStart : Z -> Z) (actorId : string) (amt : Z)
    (category : LimitedKind) (history : list Transaction) (now later : Z)
    : Decision :=
  let mine := entriesOf actorId history in
  if 10000 <? amt then Deny PerTransactionCap
  else if 5 <=? countSince (now - 60000) mine then Deny PerMinuteCap
  else if isWithdrawalCategory category
          && (5000 <? sumOfTypeFrom ty_withdrawal (dayStart later) mine + amt)
       then Deny DailyWithdrawalCap
  else if isTransferCategory category
          && (5000 <? sumOfTypeFrom ty_transfer_out (dayStart later) mine + amt)
       then Deny DailyTransferCap
  else Allow.

(** The last millisecond of day 20000. *)
Definition lastMillisecond : Z := 1728086399999.

(** Alice deposited 20000 and withdrew 5000 in the morning of day 20000. *)
Definition spentToday : list Transaction :=
  [ entry "d-1" "alice" ty_deposit 20000 1728003600000;
    entry "w-1" "alice" ty_withdrawal 5000 twoHoursIn ].

(** ** The provider over any arithmetic of amounts

    In the source an amount is a JavaScript number.  [Ledger] is the wallet
    provider once more, line by line, with the arithmetic of amounts left
    open: the numeric literals, [+], [-], [<=] and [>].  Instantiated with
    [doubleArith] it computes with IEEE binary64 as the source does, NaN
    and rounding included; [exactArith] is the arithmetic of integers, in
    which nothing rounds.  Timestamps, the clock, identifiers and renders
    are as before. *)

From Stdlib Require Floats Uint63.

Module Ledger.

Record Arith := mkArith {
  num : Type;
  literal : Z -> num;            (* the numeric literals 0, 5000, 10000 *)
  plus : num -> num -> num;      (* a + b *)
  minus : num -> num -> num;     (* a - b *)
  leb : num -> num -> bool;      (* a <= b *)
  gtb : num -> num -> bool       (* a > b *)
}.

(** An arithmetic is exact when its numbers can be read as integers (of the
    smallest unit, say) in such a way that [+] and [-] are the integer
    ones: nothing rounds, nothing overflows, nothing is not a number. *)
Record Exact (A : Arith) := mkExact {
  toZ : num A -> Z;
  toZ_inj : forall a b, toZ a = toZ b -> a = b;
  toZ_zero : toZ (literal A 0) = 0;
  toZ_plus : forall a b, toZ (plus A a b) = toZ a + toZ b;
  toZ_minus : forall a b, toZ (minus A a b) = toZ a - toZ b
}.

Section Provider.

Variable A : Arith.

Record Transaction := mkTransaction {
  id : string;
  userId : string;
  type : TransactionType;
  amount : num A;
  senderOrRecipient : option string;
  timestamp : Z;
  description : option string
}.

Record Render := mkRender {
  currentUser : option Auth.User;
  transactions : list Transaction
}.

Record World := mkWorld {
  store : list Transaction;
  clock : nat -> Z;
  uuids : nat -> string;
  startOfDay : Z -> Z
}.

Definition M (X : Type) : Type := World -> X * World.

Definition ret {X} (x : X) : M X := fun w => (x, w).

Definition bind {X Y} (c : M X) (k : X -> M Y) : M Y :=
  fun w => let (x, w') := c w in k x w'.

Definition Date_now : M Z :=
  fun w => (clock w 0%nat,
            {| store := store w;
               clock := fun n => clock w (S n);
               uuids := uuids w;
               startOfDay := startOfDay w |}).

Definition Date_today : M Z :=
  fun w => let (d, w') := Date_now w in (startOfDay w d, w').

Definition uuidv4 : M string :=
  fun w => (uuids w 0%nat,
            {| store := store w;
               clock := clock w;
               uuids := fun n => uuids w (S n);
               startOfDay := startOfDay w |}).

Definition setTransactions (f : list Transaction -> list Transaction)
    : M unit :=
  fun w => (tt,
            {| store := f (store w);
               clock := clock w;
               uuids := uuids w;
               startOfDay := startOfDay w |}).

Definition sleep (ms : Z) : M unit := ret tt.

(** [t.userId === currentUser?.id] *)
Definition ownedBy (cu : option Auth.User) (t : Transaction) : bool :=
  match cu with
  | Some u => String.eqb (userId t) (Auth.id u)
  | None => false
  end.

Definition balanceStep (total : num A) (t : Transaction) : num A :=
  match type t with
  | ty_deposit | ty_transfer_in => plus A total (amount t)
  | ty_withdrawal | ty_transfer_out => minus A total (amount t)
  end.

Definition balance (r : Render) : num A :=
  fold_left balanceStep (filter (ownedBy (currentUser r)) (transactions r))
            (literal A 0).

Definition isType (k : TransactionType) (t : Transaction) : bool :=
  typeEqb (type t) k.

Definition sumAmounts (l : list Transaction) : num A :=
  fold_left (fun sum t => plus A sum (amount t)) l (literal A 0).

Definition recentTransactions (u : Auth.User) (txs : list Transaction)
    (oneMinuteAgo : Z) : list Transaction :=
  filter (fun t => String.eqb (userId t) (Auth.id u)
                   && (timestamp t >? oneMinuteAgo)) txs.

Definition dailyTotal (k : TransactionType) (u : Auth.User)
    (txs : list Transaction) (today : Z) : num A :=
  sumAmounts
    (filter (fun t => String.eqb (userId t) (Auth.id u)
                      && isType k t
                      && (timestamp t >=? today)) txs).

Definition checkRateLimits (r : Render) (amt : num A) (kind : LimitedKind)
    : M bool :=
  match currentUser r with
  | None => ret false
  | Some u =>
    if gtb A amt (literal A (maxAmountPerTransaction TRANSACTION_LIMITS))
    then ret false else
    bind Date_now (fun now =>
    let oneMinuteAgo := now - 60000 in
    if Z.of_nat (List.length (recentTransactions u (transactions r) oneMinuteAgo))
         >=? maxTransactionsPerMinute TRANSACTION_LIMITS
    then ret false else
    bind Date_today (fun today =>
    match kind with
    | lk_withdrawal =>
        let dailyWithdrawals :=
          dailyTotal ty_withdrawal u (transactions r) today in
        if gtb A (plus A dailyWithdrawals amt)
                 (literal A (maxDailyWithdrawal TRANSACTION_LIMITS))
        then ret false else ret true
    | lk_transfer =>
        let dailyTransfers :=
          dailyTotal ty_transfer_out u (transactions r) today in
        if gtb A (plus A dailyTransfers amt)
                 (literal A (maxDailyTransfer TRANSACTION_LIMITS))
        then ret false else ret true
    end))
  end.

Definition deposit (r : Render) (amt : num A) (desc : option string)
    : M bool :=
  match currentUser r with
  | None => ret false
  | Some u =>
    if leb A amt (literal A 0) then ret false else
    bind (sleep 500) (fun _ =>
    bind uuidv4 (fun i =>
    bind Date_now (fun ts =>
    let newTransaction :=
      {| id := i; userId := Auth.id u; type := ty_deposit; amount := amt;
         senderOrRecipient := None; timestamp := ts; description := desc |} in
    bind (setTransactions (fun prev => prev ++ [newTransaction])) (fun _ =>
    ret true))))
  end.

Definition withdraw (r : Render) (amt : num A) (desc : option string)
    : M bool :=
  match currentUser r with
  | None => ret false
  | Some u =>
    if leb A amt (literal A 0) || gtb A amt (balance r) then ret false else
    bind (checkRateLimits r amt lk_withdrawal) (fun ok =>
    if negb ok then ret false else
    bind (sleep 500) (fun _ =>
    bind uuidv4 (fun i =>
    bind Date_now (fun ts =>
    let newTransaction :=
      {| id := i; userId := Auth.id u; type := ty_withdrawal; amount := amt;
         senderOrRecipient := None; timestamp := ts; description := desc |} in
    bind (setTransactions (fun prev => prev ++ [newTransaction])) (fun _ =>
    ret true)))))
  end.

Definition transfer (r : Render) (amt : num A) (recipientId : string)
    (desc : option string) : M bool :=
  match currentUser r with
  | None => ret false
  | Some u =>
    if leb A amt (literal A 0) || gtb A amt (balance r)
       || String.eqb (Auth.id u) recipientId
    then ret false else
    bind (checkRateLimits r amt lk_transfer) (fun ok =>
    if negb ok then ret false else
    bind (sleep 500) (fun _ =>
    bind uuidv4 (fun i1 =>
    bind Date_now (fun ts1 =>
    let outgoingTransaction :=
      {| id := i1; userId := Auth.id u; type := ty_transfer_out;
         amount := amt; senderOrRecipient := Some recipientId;
         timestamp := ts1; description := desc |} in
    bind uuidv4 (fun i2 =>
    bind Date_now (fun ts2 =>
    let incomingTransaction :=
      {| id := i2; userId := recipientId; type := ty_transfer_in;
         amount := amt; senderOrRecipient := Some (Auth.id u);
         timestamp := ts2; description := desc |} in
    bind (setTransactions
            (fun prev => prev ++ [outgoingTransaction; incomingTransaction]))
         (fun _ => ret true)))))))
  end.

(** *** Calls, from any render *)

Inductive Call :=
| Deposit (amt : num A) (desc : option string)
| Withdraw (amt : num A) (desc : option string)
| Transfer (amt : num A) (recipientId : string) (desc : option string).

Definition invoke (r : Render) (c : Call) : M bool :=
  match c with
  | Deposit a d => deposit r a d
  | Withdraw a d => withdraw r a d
  | Transfer a rcp d => transfer r a rcp d
  end.

Definition render (cu : option Auth.User) (w : World) : Render :=
  {| currentUser := cu; transactions := store w |}.

(** A history of calls, each issued from the render the caller held at the
    time (up to date or not): the world it leads to, and what each call
    returned. *)
Fixpoint run (calls : list (Render * Call)) (w : World) : World :=
  match calls with
  | [] => w
  | (r, c) :: rest => run rest (snd (invoke r c w))
  end.

Fixpoint results (calls : list (Render * Call)) (w : World)
    : list (Call * bool) :=
  match calls with
  | [] => []
  | (r, c) :: rest =>
      (c, fst (invoke r c w)) :: results rest (snd (invoke r c w))
  end.

(** A session: every call is issued from the render of the committed
    log. *)
Fixpoint session (calls : list (option Auth.User * Call)) (w : World)
    : World :=
  match calls with
  | [] => w
  | (cu, c) :: rest => session rest (snd (invoke (render cu w) c w))
  end.

(** *** Vocabulary of the specification *)

(** The sum of the amounts of a list of entries. *)
Definition total (l : list Transaction) : num A :=
  fold_right (fun t acc => plus A (amount t) acc) (literal A 0) l.

(** The entries of an actor with one of the given types, in log order. *)
Definition entriesOfTypes (ks : list TransactionType) (actorId : string)
    (log : list Transaction) : list Transaction :=
  filter (fun t => String.eqb actorId (userId t)
                   && existsb (typeEqb (type t)) ks) log.

Definition BalanceOf (actor : Auth.User) (log : list Transaction) : num A :=
  balance {| currentUser := Some actor; transactions := log |}.

(** The total of the amounts of the calls of a history that returned
    success: the deposits, the withdrawals. *)
Definition depositedIn (rs : list (Call * bool)) : num A :=
  fold_left (fun acc cr => match cr with
                           | (Deposit a _, true) => plus A acc a
                           | _ => acc
                           end) rs (literal A 0).

Definition withdrawnIn (rs : list (Call * bool)) : num A :=
  fold_left (fun acc cr => match cr with
                           | (Withdraw a _, true) => plus A acc a
                           | _ => acc
                           end) rs (literal A 0).

(** The sum of [BalanceOf] over a list of actors. *)
Definition sumBalances (actors : list Auth.User) (log : list Transaction)
    : num A :=
  fold_left (fun acc a => plus A acc (BalanceOf a log)) actors (literal A 0).

Definition covers (actors : list Auth.User) (log : list Transaction) : Prop :=
  forall t, In t log -> In (userId t) (map Auth.id actors).

End Provider.

Arguments id {A} _.
Arguments userId {A} _.
Arguments type {A} _.
Arguments amount {A} _.
Arguments senderOrRecipient {A} _.
Arguments timestamp {A} _.
Arguments description {A} _.
Arguments currentUser {A} _.
Arguments transactions {A} _.
Arguments store {A} _.
Arguments clock {A} _.
Arguments uuids {A} _.
Arguments startOfDay {A} _.
Arguments balance {A} _.
Arguments checkRateLimits {A} _ _ _ _.
Arguments deposit {A} _ _ _ _.
Arguments withdraw {A} _ _ _ _.
Arguments transfer {A} _ _ _ _ _.
Arguments invoke {A} _ _ _.
Arguments render {A} _ _.
Arguments run {A} _ _.
Arguments results {A} _ _.
Arguments session {A} _ _.
Arguments total {A} _.
Arguments entriesOfTypes {A} _ _ _.
Arguments BalanceOf {A} _ _.
Arguments depositedIn {A} _.
Arguments withdrawnIn {A} _.
Arguments sumBalances {A} _ _.
Arguments covers {A} _ _.
Arguments Deposit {A} _ _.
Arguments Withdraw {A} _ _.
Arguments Transfer {A} _ _ _.

End Ledger.

(** The arithmetic of integers. *)
Definition exactArith : Ledger.Arith :=
  {| Ledger.num := Z;
     Ledger.literal := fun z => z;
     Ledger.plus := Z.add;
     Ledger.minus := Z.sub;
     Ledger.leb := Z.leb;
     Ledger.gtb := Z.gtb |}.

Definition integersAreExact : Ledger.Exact exactArith :=
  @Ledger.mkExact exactArith
    (fun z => z)
    (fun a b H => H)
    eq_refl
    (fun a b => eq_refl)
    (fun a b => eq_refl).

(** The arithmetic of JavaScript numbers: IEEE 754 binary64.  [a > b] is
    [b < a]; every comparison with NaN is false. *)
Definition doubleArith : Ledger.Arith :=
  {| Ledger.num := PrimFloat.float;
     Ledger.literal := fun z => PrimFloat.of_uint63 (Uint63.of_Z z);
     Ledger.plus := PrimFloat.add;
     Ledger.minus := PrimFloat.sub;
     Ledger.leb := PrimFloat.leb;
     Ledger.gtb := fun a b => PrimFloat.ltb b a |}.

(** The double nearest to the fraction [n / d] of two small naturals, what
    [parseFloat] gives for its decimal notation. *)
Definition fraction (n d : Z) : PrimFloat.float :=
  PrimFloat.div (PrimFloat.of_uint63 (Uint63.of_Z n))
                (PrimFloat.of_uint63 (Uint63.of_Z d)).

(** *** Reading amounts as integers, in an exact arithmetic *)

Section Worth.

Context {A : Ledger.Arith} (E : Ledger.Exact A).

(** The amounts of a list of entries, added up as integers. *)
Definition worth (l : list (Ledger.Transaction A)) : Z :=
  fold_right (fun t acc => Ledger.toZ A E (Ledger.amount t) + acc) 0 l.

(** What an entry contributes to the balance of its owner, as an integer. *)
Definition signedWorth (t : Ledger.Transaction A) : Z :=
  match Ledger.type t with
  | ty_deposit | ty_transfer_in => Ledger.toZ A E (Ledger.amount t)
  | ty_withdrawal | ty_transfer_out => - Ledger.toZ A E (Ledger.amount t)
  end.

(** The signed contributions of the entries of one actor, and of all. *)
Definition netWorthOf (actorId : string) (log : list (Ledger.Transaction A))
    : Z :=
  fold_right (fun t acc =>
                (if String.eqb (Ledger.userId t) actorId
                 then signedWorth t else 0) + acc) 0 log.

Definition netWorth (log : list (Ledger.Transaction A)) : Z :=
  fold_right (fun t acc => signedWorth t + acc) 0 log.

(** The amounts of the successful deposits and of the successful
    withdrawals of a history, as integers. *)
Definition depositedWorth (rs : list (Ledger.Call A * bool)) : Z :=
  fold_right (fun cr acc =>
                match cr with
                | (Ledger.Deposit a _, true) => Ledger.toZ A E a + acc
                | _ => acc
                end) 0 rs.

Definition withdrawnWorth (rs : list (Ledger.Call A * bool)) : Z :=
  fold_right (fun cr acc =>
                match cr with
                | (Ledger.Withdraw a _, true) => Ledger.toZ A E a + acc
                | _ => acc
                end) 0 rs.

End Worth.

(** *** Sample data in doubles *)

Definition doubleWorld : Ledger.World doubleArith :=
  {| Ledger.store := [];
     Ledger.clock := tickingFrom twoHoursIn;
     Ledger.uuids := serialIds;
     Ledger.startOfDay := utcMidnight |}.

(** Alice deposits 0.1, withdraws 0.1 and deposits 0.2. *)
Definition dimes : list (option Auth.User * Ledger.Call doubleArith) :=
  [ (Some alice, @Ledger.Deposit doubleArith (fraction 1 10) None);
    (Some alice, @Ledger.Withdraw doubleArith (fraction 1 10) None);
    (Some alice, @Ledger.Deposit doubleArith (fraction 1 5) None) ].

(** Alice deposits 0.1, Bob deposits 0.3. *)
Definition twoSavers : list (option Auth.User * Ledger.Call doubleArith) :=
  [ (Some alice, @Ledger.Deposit doubleArith (fraction 1 10) None);
    (Some bob, @Ledger.Deposit doubleArith (fraction 3 10) None) ].

(** 2^53, the first double whose successor is not a double. *)
Definition twoTo53 : PrimFloat.float :=
  PrimFloat.of_uint63 (Uint63.of_Z 9007199254740992).

(** What [parseFloat] gives for a text that is not a number. *)
Definition notANumber : PrimFloat.float :=
  PrimFloat.div (PrimFloat.of_uint63 (Uint63.of_Z 0))
                (PrimFloat.of_uint63 (Uint63.of_Z 0)).

(** A type that adds to the balance. *)
Definition isCreditType (k : TransactionType) : bool :=
  existsb (typeEqb k) [ty_deposit; ty_transfer_in].

(** What a call that returned success has appended, and the guards it
    passed. *)
Definition appendedBy {A : Ledger.Arith} (r : Ledger.Render A) (c : Ledger.Call A)
    (batch : list (Ledger.Transaction A)) : Prop :=
  exists u, Ledger.currentUser r = Some u /\
    match c with
    | Ledger.Deposit a _ =>
        Ledger.leb A a (Ledger.literal A 0) = false
        /\ exists tx, batch = [tx]
             /\ Ledger.userId tx = Auth.id u /\ Ledger.type tx = ty_deposit
             /\ Ledger.amount tx = a
    | Ledger.Withdraw a _ =>
        Ledger.leb A a (Ledger.literal A 0) = false
        /\ Ledger.gtb A a (Ledger.balance r) = false
        /\ exists tx, batch = [tx]
             /\ Ledger.userId tx = Auth.id u /\ Ledger.type tx = ty_withdrawal
             /\ Ledger.amount tx = a
    | Ledger.Transfer a rcp _ =>
        Ledger.leb A a (Ledger.literal A 0) = false
        /\ Ledger.gtb A a (Ledger.balance r) = false
        /\ Auth.id u <> rcp
        /\ exists out inc, batch = [out; inc]
             /\ Ledger.userId out = Auth.id u
             /\ Ledger.type out = ty_transfer_out /\ Ledger.amount out = a
             /\ Ledger.userId inc = rcp
             /\ Ledger.type inc = ty_transfer_in /\ Ledger.amount inc = a
    end.

(** *** Sample data in integers *)

Definition exactWorld : Ledger.World exactArith :=
  {| Ledger.store := [];
     Ledger.clock := tickingFrom twoHoursIn;
     Ledger.uuids := serialIds;
     Ledger.startOfDay := utcMidnight |}.

(** The scenario of the specification, in integers. *)
Definition exactScenario : list (option Auth.User * Ledger.Call exactArith) :=
  [ (Some alice, @Ledger.Deposit exactArith 100 None);
    (Some alice, @Ledger.Withdraw exactArith 30 None);
    (Some alice, @Ledger.Transfer exactArith 50 "bob" None);
    (Some alice, @Ledger.Withdraw exactArith 25 None) ].

Definition carol : Auth.User :=
  {| Auth.id := "carol"; Auth.name := "Carol";
     Auth.email := "carol@example.org"; Auth.password := "c-secret";
     Auth.createdAt := 0 |}.

(** The types that add to a balance and the types that take from it. *)
Definition creditTypes : list TransactionType := [ty_deposit; ty_transfer_in].
Definition debitTypes : list TransactionType := [ty_withdrawal; ty_transfer_out].

(** The balances of a list of actors, added up as integers. *)
Definition actorsWorth {A : Ledger.Arith} (E : Ledger.Exact A)
    (actors : list Auth.User) (log : list (Ledger.Transaction A)) : Z :=
  fold_right (fun a acc => netWorthOf E (Auth.id a) log + acc) 0 actors.


(** *** Days and minutes of a ledger *)

(** All the readings of the clock fall on the calendar day that starts at
    [day]. *)
Definition allOnDay {A : Ledger.Arith} (day : Z) (w : Ledger.World A) : Prop :=
  forall n : nat,
    Ledger.startOfDay w (Ledger.clock w n) = day /\ day <= Ledger.clock w n.

(** Any two readings of the clock are less than a minute apart. *)
Definition allInOneMinute {A : Ledger.Arith} (w : Ledger.World A) : Prop :=
  forall i j : nat, Ledger.clock w i - Ledger.clock w j < 60000.

(** The two tests of the limiter that read the log, passed: fewer than five
    entries of the user in the last minute, and the day total of the
    charged type plus the amount not above the cap. *)
Definition passedLimits {A : Ledger.Arith} (r : Ledger.Render A)
    (u : Auth.User) (amt : Ledger.num A) (kind : LimitedKind)
    (w : Ledger.World A) : Prop :=
  (Z.of_nat (List.length
               (Ledger.recentTransactions A u (Ledger.transactions r)
                  (Ledger.clock w 0%nat - 60000))) >=? 5) = false
  /\ Ledger.gtb A
       (Ledger.plus A
          (Ledger.dailyTotal A (chargedType kind) u (Ledger.transactions r)
             (Ledger.startOfDay w (Ledger.clock w 1%nat)))
          amt)
       (Ledger.literal A 5000) = false.

(** Fresh ledgers whose clock stands still two hours into day 20000. *)
Definition stillDoubles : Ledger.World doubleArith :=
  {| Ledger.store := [];
     Ledger.clock := frozenAt twoHoursIn;
     Ledger.uuids := serialIds;
     Ledger.startOfDay := utcMidnight |}.

Definition stillIntegers : Ledger.World exactArith :=
  {| Ledger.store := [];
     Ledger.clock := frozenAt twoHoursIn;
     Ledger.uuids := serialIds;
     Ledger.startOfDay := utcMidnight |}.

(** The double of a small natural. *)
Definition whole (z : Z) : PrimFloat.float := Ledger.literal doubleArith z.

(** Alice funds her account, then asks for 3000 four times. *)
Definition greedyDoubles : list (option Auth.User * Ledger.Call doubleArith) :=
  [ (Some alice, @Ledger.Deposit doubleArith (whole 20000) None);
    (Some alice, @Ledger.Withdraw doubleArith (whole 3000) None);
    (Some alice, @Ledger.Withdraw doubleArith (whole 3000) None);
    (Some alice, @Ledger.Transfer doubleArith (whole 3000) "bob" None);
    (Some alice, @Ledger.Transfer doubleArith (whole 3000) "bob" None) ].

Definition greedyIntegers : list (option Auth.User * Ledger.Call exactArith) :=
  [ (Some alice, @Ledger.Deposit exactArith 20000 None);
    (Some alice, @Ledger.Withdraw exactArith 3000 None);
    (Some alice, @Ledger.Withdraw exactArith 3000 None);
    (Some alice, @Ledger.Transfer exactArith 3000 "bob" None);
    (Some alice, @Ledger.Transfer exactArith 3000 "bob" None) ].

(** Alice funds her account, withdraws NaN, then 5000 twice. *)
Definition afterNaN : list (option Auth.User * Ledger.Call doubleArith) :=
  [ (Some alice, @Ledger.Deposit doubleArith (whole 20000) None);
    (Some alice, @Ledger.Withdraw doubleArith notANumber None);
    (Some alice, @Ledger.Withdraw doubleArith (whole 5000) None);
    (Some alice, @Ledger.Withdraw doubleArith (whole 5000) None) ].

(** Alice deposits 100, then asks for 1 seven times. *)
Definition sevenDoubles : list (option Auth.User * Ledger.Call doubleArith) :=
  (Some alice, @Ledger.Deposit doubleArith (whole 100) None)
  :: repeat (Some alice, @Ledger.Withdraw doubleArith (whole 1) None) 7.
(** ** Balance derivation *)

Lemma balanceStep_signed (acc : Z) (t : Transaction) :
  balanceStep acc t = acc + signed t.
Proof.
  unfold balanceStep, signed, isCredit, isType.
  destruct (type t); simpl; lia.
Qed.

Lemma fold_balanceStep (l : list Transaction) (acc : Z) :
  fold_left balanceStep l acc = acc + total (filter isCredit l) - total (filter isDebit l).
Proof.
  revert acc; induction l as [|t l IH]; intro acc; simpl.
  - lia.
  - rewrite IH. unfold balanceStep, isCredit, isDebit, isType.
    destruct (type t); simpl; lia.
Qed.

Lemma sumAmounts_total (l : list Transaction) : sumAmounts l = total l.
Proof.
  unfold sumAmounts.
  assert (G : forall acc, fold_left (fun sum t => sum + amount t) l acc = acc + total l).
  { induction l as [|t l IH]; intro acc; simpl; [lia | rewrite IH; lia]. }
  rewrite G. lia.
Qed.

Lemma ownedBy_some (u : Auth.User) (log : list Transaction) :
  filter (ownedBy (Some u)) log = entriesOf (Auth.id u) log.
Proof. reflexivity. Qed.

Lemma entriesOf_nil_iff (a : string) (log : list Transaction) :
  (forall t, In t log -> userId t <> a) -> entriesOf a log = [].
Proof.
  intro H. induction log as [|t l IH]; simpl; [reflexivity|].
  destruct (String.eqb_spec (userId t) a) as [E|E].
  - exfalso. apply (H t); [left; reflexivity | exact E].
  - apply IH. intros t' Ht'. apply H. right; exact Ht'.
Qed.

(** ** The rate limiter: what it reads and what it leaves alone *)

Ltac run_monad :=
  unfold bind, ret, sleep, setTransactions, uuidv4, Date_today, Date_now; simpl.

Lemma checkRateLimits_verdict (u : Auth.User) (txs : list Transaction)
    (amt : Z) (kind : LimitedKind) (w : World) :
  fst (checkRateLimits {| currentUser := Some u; transactions := txs |} amt kind w)
  = verdict u txs amt kind (clock w 0%nat) (startOfDay w (clock w 1%nat)).
Proof.
  unfold checkRateLimits, verdict; simpl. run_monad.
  destruct (amt >? _); [reflexivity|].
  destruct (_ >=? _); [reflexivity|].
  destruct kind; simpl;
    match goal with |- context [if ?c then _ else _] => destruct c end;
    reflexivity.
Qed.

Lemma checkRateLimits_no_user (txs : list Transaction) (amt : Z)
    (kind : LimitedKind) (w : World) :
  checkRateLimits {| currentUser := None; transactions := txs |} amt kind w
  = (false, w).
Proof. reflexivity. Qed.

Lemma checkRateLimits_store (r : Render) (amt : Z) (kind : LimitedKind)
    (w : World) :
  store (snd (checkRateLimits r amt kind w)) = store w.
Proof.
  unfold checkRateLimits. destruct (currentUser r); [|reflexivity].
  run_monad.
  destruct (amt >? _); [reflexivity|].
  destruct (_ >=? _); [reflexivity|].
  destruct kind; simpl;
    match goal with |- context [if ?c then _ else _] => destruct c end;
    reflexivity.
Qed.

Lemma checkRateLimits_allow_world (r : Render) (amt : Z) (kind : LimitedKind)
    (w : World) :
  fst (checkRateLimits r amt kind w) = true ->
  snd (checkRateLimits r amt kind w) = tick (tick w).
Proof.
  unfold checkRateLimits. destruct (currentUser r); [|discriminate].
  run_monad.
  destruct (amt >? _); [discriminate|].
  destruct (_ >=? _); [discriminate|].
  destruct kind; simpl;
    match goal with |- context [if ?c then _ else _] => destruct c end;
    simpl; intro H; try discriminate; reflexivity.
Qed.

(** ** The three operations: what a call returns and what it commits *)

Lemma deposit_true (r : Render) (amt : Z) (desc : option string) (w : World) :
  fst (deposit r amt desc w) = true ->
  exists u, currentUser r = Some u /\ 0 < amt /\
    store (snd (deposit r amt desc w))
    = store w ++ [ {| id := uuids w 0%nat; userId := Auth.id u;
                      type := ty_deposit; amount := amt;
                      senderOrRecipient := None;
                      timestamp := clock w 0%nat; description := desc |} ].
Proof.
  unfold deposit. destruct (currentUser r) as [u|]; [|discriminate].
  destruct (Z.leb_spec amt 0); [discriminate|].
  intros _. exists u. repeat split; try assumption; reflexivity.
Qed.

Lemma deposit_false (r : Render) (amt : Z) (desc : option string) (w : World) :
  fst (deposit r amt desc w) = false ->
  (currentUser r = None \/ amt <= 0) /\ snd (deposit r amt desc w) = w.
Proof.
  unfold deposit. destruct (currentUser r) as [u|]; [|intros _; split; [left|]; reflexivity].
  destruct (Z.leb_spec amt 0); [|discriminate].
  intros _. split; [right; assumption | reflexivity].
Qed.

Lemma withdraw_true (r : Render) (amt : Z) (desc : option string) (w : World) :
  fst (withdraw r amt desc w) = true ->
  exists u, currentUser r = Some u /\ 0 < amt /\ amt <= balance r /\
    fst (checkRateLimits r amt lk_withdrawal w) = true /\
    store (snd (withdraw r amt desc w))
    = store w ++ [ {| id := uuids w 0%nat; userId := Auth.id u;
                      type := ty_withdrawal; amount := amt;
                      senderOrRecipient := None;
                      timestamp := clock w 2%nat; description := desc |} ].
Proof.
  unfold withdraw. destruct (currentUser r) as [u|] eqn:Hu; [|discriminate].
  destruct (Z.leb_spec amt 0); [discriminate|].
  destruct (Z.gtb_spec amt (balance r)); [discriminate|]. simpl.
  unfold bind.
  pose proof (checkRateLimits_allow_world r amt lk_withdrawal w) as Hw.
  destruct (checkRateLimits r amt lk_withdrawal w) as [ok w1]; simpl in *.
  destruct ok; [|discriminate]. simpl.
  rewrite (Hw eq_refl). intros _.
  exists u. repeat split; try assumption; reflexivity.
Qed.

Lemma withdraw_false (r : Render) (amt : Z) (desc : option string) (w : World) :
  fst (withdraw r amt desc w) = false ->
  (currentUser r = None \/ amt <= 0 \/ balance r < amt
   \/ fst (checkRateLimits r amt lk_withdrawal w) = false)
  /\ store (snd (withdraw r amt desc w)) = store w.
Proof.
  unfold withdraw. destruct (currentUser r) as [u|] eqn:Hu;
    [|intros _; split; [left|]; reflexivity].
  destruct (Z.leb_spec amt 0);
    [intros _; split; [right; left; assumption | reflexivity]|].
  destruct (Z.gtb_spec amt (balance r));
    [intros _; split; [right; right; left; assumption | reflexivity]|]. simpl.
  unfold bind.
  pose proof (checkRateLimits_store r amt lk_withdrawal w) as Hs.
  destruct (checkRateLimits r amt lk_withdrawal w) as [ok w1]; simpl in *.
  destruct ok; [discriminate|]. simpl.
  intros _. split; [right; right; right; reflexivity | exact Hs].
Qed.

Lemma transfer_true (r : Render) (amt : Z) (rcp : string)
    (desc : option string) (w : World) :
  fst (transfer r amt rcp desc w) = true ->
  exists u, currentUser r = Some u /\ 0 < amt /\ amt <= balance r /\
    Auth.id u <> rcp /\
    fst (checkRateLimits r amt lk_transfer w) = true /\
    store (snd (transfer r amt rcp desc w))
    = store w ++ [ {| id := uuids w 0%nat; userId := Auth.id u;
                      type := ty_transfer_out; amount := amt;
                      senderOrRecipient := Some rcp;
                      timestamp := clock w 2%nat; description := desc |};
                   {| id := uuids w 1%nat; userId := rcp;
                      type := ty_transfer_in; amount := amt;
                      senderOrRecipient := Some (Auth.id u);
                      timestamp := clock w 3%nat; description := desc |} ].
Proof.
  unfold transfer. destruct (currentUser r) as [u|] eqn:Hu; [|discriminate].
  destruct (Z.leb_spec amt 0); [discriminate|].
  destruct (Z.gtb_spec amt (balance r)); [discriminate|].
  destruct (String.eqb_spec (Auth.id u) rcp); [discriminate|]. simpl.
  unfold bind.
  pose proof (checkRateLimits_allow_world r amt lk_transfer w) as Hw.
  destruct (checkRateLimits r amt lk_transfer w) as [ok w1]; simpl in *.
  destruct ok; [|discriminate]. simpl.
  rewrite (Hw eq_refl). intros _.
  exists u. repeat split; try assumption; reflexivity.
Qed.

Lemma transfer_false (r : Render) (amt : Z) (rcp : string)
    (desc : option string) (w : World) :
  fst (transfer r amt rcp desc w) = false ->
  (currentUser r = None \/ amt <= 0 \/ balance r < amt
   \/ (exists u, currentUser r = Some u /\ Auth.id u = rcp)
   \/ fst (checkRateLimits r amt lk_transfer w) = false)
  /\ store (snd (transfer r amt rcp desc w)) = store w.
Proof.
  unfold transfer. destruct (currentUser r) as [u|] eqn:Hu;
    [|intros _; split; [left|]; reflexivity].
  destruct (Z.leb_spec amt 0);
    [intros _; split; [right; left; assumption | reflexivity]|].
  destruct (Z.gtb_spec amt (balance r));
    [intros _; split; [right; right; left; assumption | reflexivity]|].
  destruct (String.eqb_spec (Auth.id u) rcp);
    [intros _; split; [do 3 right; left; exists u; split; [reflexivity|assumption]
                      | reflexivity]|]. simpl.
  unfold bind.
  pose proof (checkRateLimits_store r amt lk_transfer w) as Hs.
  destruct (checkRateLimits r amt lk_transfer w) as [ok w1]; simpl in *.
  destruct ok; [discriminate|]. simpl.
  intros _. split; [do 4 right; reflexivity | exact Hs].
Qed.

(** ** Transfers commit a pair *)

Lemma entriesOf_app (a : string) (l1 l2 : list Transaction) :
  entriesOf a (l1 ++ l2) = entriesOf a l1 ++ entriesOf a l2.
Proof. apply filter_app. Qed.

(** [C2, amended] A successful transfer commits, in one state update, the
    previous log followed by exactly two new entries: a transfer_out owned
    by the sender and naming the recipient, then a transfer_in owned by the
    recipient and naming the sender, both with the requested amount.  Each
    entry carries its own reading of the clock, the transfer_out the earlier
    one and the transfer_in the next one.  The sender's entries grow by the
    transfer_out only, the recipient's by the transfer_in only.  A failed
    transfer leaves the log as it was. *)
Theorem transfer_commits_pair_or_nothing :
  forall (r : Render) (amt : Z) (rcp : string) (desc : option string)
         (w : World),
    (fst (transfer r amt rcp desc w) = true ->
     exists (u : Auth.User) (out inc : Transaction),
       currentUser r = Some u /\
       store (snd (transfer r amt rcp desc w)) = store w ++ [out; inc] /\
       userId out = Auth.id u /\ type out = ty_transfer_out /\
       senderOrRecipient out = Some rcp /\
       userId inc = rcp /\ type inc = ty_transfer_in /\
       senderOrRecipient inc = Some (Auth.id u) /\
       amount out = amt /\ amount inc = amt /\
       timestamp out = clock w 2%nat /\ timestamp inc = clock w 3%nat /\
       entriesOf (Auth.id u) (store (snd (transfer r amt rcp desc w)))
         = entriesOf (Auth.id u) (store w) ++ [out] /\
       entriesOf rcp (store (snd (transfer r amt rcp desc w)))
         = entriesOf rcp (store w) ++ [inc])
    /\ (fst (transfer r amt rcp desc w) = false ->
        store (snd (transfer r amt rcp desc w)) = store w).
Proof.
  intros r amt rcp desc w. split.
  - intro Hok.
    destruct (transfer_true r amt rcp desc w Hok)
      as (u & Hu & Hpos & Hbal & Hne & Hrl & Hst).
    eexists u, _, _. split; [exact Hu|]. split; [exact Hst|].
    rewrite Hst, !entriesOf_app. simpl.
    rewrite String.eqb_refl.
    destruct (String.eqb_spec rcp (Auth.id u)) as [E|E];
      [exfalso; apply Hne; symmetry; exact E|].
    destruct (String.eqb_spec (Auth.id u) rcp) as [E'|E'];
      [exfalso; apply Hne; exact E'|].
    rewrite ?String.eqb_refl. repeat split; reflexivity.
  - intro Hko. apply (transfer_false r amt rcp desc w Hko).
Qed.

Lemma transfer_commits_pair_or_nothing_witness :
  let w := worldWith aliceHas100 (tickingFrom twoHoursIn) in
  let res := transfer (render (Some alice) w) 50 "bob" None w in
  fst res = true /\
  exists (u : Auth.User) (out inc : Transaction),
    Some alice = Some u /\
    store (snd res) = store w ++ [out; inc] /\
    userId out = Auth.id u /\ type out = ty_transfer_out /\
    senderOrRecipient out = Some "bob" /\
    userId inc = "bob" /\ type inc = ty_transfer_in /\
    senderOrRecipient inc = Some (Auth.id u) /\
    amount out = 50 /\ amount inc = 50 /\
    timestamp out = clock w 2%nat /\ timestamp inc = clock w 3%nat /\
    entriesOf (Auth.id u) (store (snd res))
      = entriesOf (Auth.id u) (store w) ++ [out] /\
    entriesOf "bob" (store (snd res)) = entriesOf "bob" (store w) ++ [inc].
Proof.
  intros w res.
  assert (Hok : fst res = true) by (vm_compute; reflexivity).
  split; [exact Hok|].
  exact (proj1 (transfer_commits_pair_or_nothing
                  (render (Some alice) w) 50 "bob" None w) Hok).
Defined.

(** [C2, as stated, fails] With a clock that moves between the two
    [new Date()] of a transfer, the transfer succeeds and the two entries it
    commits carry different timestamps. *)
Lemma transfer_pair_timestamps_differ :
  let w := worldWith aliceHas100 (tickingFrom twoHoursIn) in
  let res := transfer (render (Some alice) w) 50 "bob" None w in
  fst res = true /\
  exists out inc : Transaction,
    store (snd res) = store w ++ [out; inc] /\
    type out = ty_transfer_out /\ type inc = ty_transfer_in /\
    timestamp out <> timestamp inc.
Proof.
  intros w res. split; [vm_compute; reflexivity|].
  exists {| id := "tx-0"; userId := "alice"; type := ty_transfer_out;
            amount := 50; senderOrRecipient := Some "bob";
            timestamp := twoHoursIn + 2; description := None |},
         {| id := "tx-1"; userId := "bob"; type := ty_transfer_in;
            amount := 50; senderOrRecipient := Some "alice";
            timestamp := twoHoursIn + 3; description := None |}.
  split; [vm_compute; reflexivity|].
  repeat split. vm_compute. discriminate.
Qed.

(** ** Sessions: every call appends a legal batch *)

Lemma BalanceOf_entries (a : Auth.User) (log : list Transaction) :
  BalanceOf a log
  = total (filter isCredit (entriesOf (Auth.id a) log))
    - total (filter isDebit (entriesOf (Auth.id a) log)).
Proof.
  unfold BalanceOf, balance; simpl.
  rewrite ownedBy_some, fold_balanceStep. lia.
Qed.

Lemma total_app (l1 l2 : list Transaction) :
  total (l1 ++ l2) = total l1 + total l2.
Proof. induction l1 as [|t l IH]; simpl; [reflexivity | rewrite IH; lia]. Qed.

Lemma BalanceOf_app (a : Auth.User) (l1 l2 : list Transaction) :
  BalanceOf a (l1 ++ l2) = BalanceOf a l1 + BalanceOf a l2.
Proof.
  rewrite !BalanceOf_entries, entriesOf_app, !filter_app, !total_app. lia.
Qed.

Lemma BalanceOf_cons (a : Auth.User) (t : Transaction) (l : list Transaction) :
  BalanceOf a (t :: l)
  = (if String.eqb (userId t) (Auth.id a) then signed t else 0) + BalanceOf a l.
Proof.
  rewrite !BalanceOf_entries. unfold signed, isCredit, isDebit, isType. simpl.
  destruct (String.eqb (userId t) (Auth.id a)); [|lia].
  simpl. unfold isCredit, isDebit, isType.
  destruct (type t); simpl; lia.
Qed.

Lemma BalanceOf_nil (a : Auth.User) : BalanceOf a [] = 0.
Proof. reflexivity. Qed.

Lemma BalanceOf_same_id (a b : Auth.User) (log : list Transaction) :
  Auth.id a = Auth.id b -> BalanceOf a log = BalanceOf b log.
Proof. intro E. rewrite !BalanceOf_entries, E. reflexivity. Qed.

Lemma perform_appended (cu : option Auth.User) (c : Call) (w : World) :
  exists batch,
    store (snd (perform cu c w)) = store w ++ batch
    /\ appended (store w) batch.
Proof.
  unfold perform.
  destruct (fst (invoke (render cu w) c w)) eqn:Hres; destruct c; simpl in *.
  - destruct (deposit_true _ _ _ _ Hres) as (u & Hu & Hpos & Hst).
    eexists; split; [exact Hst|].
    apply (appended_deposit _ u); simpl; auto.
  - destruct (withdraw_true _ _ _ _ Hres) as (u & Hu & Hpos & Hbal & _ & Hst).
    eexists; split; [exact Hst|].
    simpl in Hu; subst cu.
    apply (appended_withdrawal _ u); simpl; auto.
  - destruct (transfer_true _ _ _ _ _ Hres)
      as (u & Hu & Hpos & Hbal & Hne & _ & Hst).
    eexists; split; [exact Hst|].
    simpl in Hu; subst cu.
    apply (appended_transfer _ u); simpl; auto.
  - exists []. rewrite app_nil_r.
    destruct (deposit_false _ _ _ _ Hres) as [_ E]. rewrite E.
    split; [reflexivity | constructor].
  - exists []. rewrite app_nil_r.
    split; [apply (withdraw_false _ _ _ _ Hres) | constructor].
  - exists []. rewrite app_nil_r.
    split; [apply (transfer_false _ _ _ _ _ Hres) | constructor].
Qed.

(** An invariant of logs that every legal batch preserves holds after any
    session that starts from a log satisfying it. *)
Lemma run_invariant (P : list Transaction -> Prop) :
  (forall log batch, P log -> appended log batch -> P (log ++ batch)) ->
  forall calls w, P (store w) -> P (store (run calls w)).
Proof.
  intros Hstep calls.
  induction calls as [|[cu c] rest IH]; intros w Hw; simpl; [exact Hw|].
  apply IH.
  destruct (perform_appended cu c w) as (batch & -> & Hb).
  apply Hstep; assumption.
Qed.

(** ** No negative balance *)

Lemma appended_keeps_nonnegative (log batch : list Transaction) :
  (forall a, 0 <= BalanceOf a log) ->
  appended log batch ->
  forall a, 0 <= BalanceOf a (log ++ batch).
Proof.
  intros Hlog Hb a. rewrite BalanceOf_app.
  specialize (Hlog a) as Ha.
  destruct Hb as [ | u tx Hown Hty Hpos
                   | u tx Hown Hty Hpos Hcov
                   | u out inc Hown Hty Hoth Hty' Heq Hpos Hcov ].
  - rewrite BalanceOf_nil. lia.
  - rewrite BalanceOf_cons, BalanceOf_nil.
    unfold signed, isCredit, isType. rewrite Hty. simpl.
    destruct (String.eqb _ _); lia.
  - rewrite BalanceOf_cons, BalanceOf_nil.
    unfold signed, isCredit, isType. rewrite Hty. simpl.
    destruct (String.eqb_spec (userId tx) (Auth.id a)) as [E|E]; [|lia].
    rewrite (BalanceOf_same_id u a) in Hcov by congruence. lia.
  - rewrite !BalanceOf_cons, BalanceOf_nil.
    unfold signed, isCredit, isType. rewrite Hty, Hty'. simpl.
    destruct (String.eqb_spec (userId out) (Auth.id a)) as [E|E];
      destruct (String.eqb_spec (userId inc) (Auth.id a)) as [E'|E'];
      first [ lia
            | rewrite (BalanceOf_same_id u a) in Hcov by congruence; lia ].
Qed.

(** In a session, where every call is issued from the render of the
    committed log, no balance goes below zero: starting from the empty log,
    after any such sequence of deposits, withdrawals and transfers (by any
    users, successful or not) the balance of every actor is non-negative.
    The guard behind it: a withdrawal or a transfer of more than the balance
    of the render it is issued from is refused. *)
Theorem balance_never_negative :
  forall (calls : list (option Auth.User * Call)) (w0 : World),
    store w0 = [] ->
    (forall actor : Auth.User, 0 <= BalanceOf actor (store (run calls w0)))
    /\ (forall (r : Render) (amt : Z) (rcp : string) (desc : option string)
               (w : World),
          balance r < amt ->
          fst (withdraw r amt desc w) = false
          /\ fst (transfer r amt rcp desc w) = false).
Proof.
  intros calls w0 Hempty. split.
  - apply (run_invariant (fun log => forall a, 0 <= BalanceOf a log)).
    + intros log batch Hlog Hb. apply appended_keeps_nonnegative; assumption.
    + rewrite Hempty. intro a. rewrite BalanceOf_nil. lia.
  - intros r amt rcp desc w Hlt. split.
    + destruct (fst (withdraw r amt desc w)) eqn:E; [|reflexivity].
      destruct (withdraw_true _ _ _ _ E) as (u & _ & _ & Hbal & _). lia.
    + destruct (fst (transfer r amt rcp desc w)) eqn:E; [|reflexivity].
      destruct (transfer_true _ _ _ _ _ E) as (u & _ & _ & Hbal & _). lia.
Qed.

Lemma balance_never_negative_witness :
  let w3 := run (firstn 3 scenario) freshWorld in
  let r := render (Some alice) w3 in
  store freshWorld = [] /\
  (forall actor : Auth.User,
     0 <= BalanceOf actor (store (run scenario freshWorld))) /\
  balance r < 25 /\
  fst (withdraw r 25 None w3) = false /\
  fst (transfer r 25 "bob" None w3) = false.
Proof.
  intros w3 r.
  destruct (balance_never_negative scenario freshWorld eq_refl) as [Hinv Hguard].
  assert (Hlt : balance r < 25) by (vm_compute; reflexivity).
  split; [reflexivity|]. split; [exact Hinv|]. split; [exact Hlt|].
  exact (Hguard r 25 "bob" None w3 Hlt).
Defined.

(** The scenario, evaluated: Alice ends with 20, Bob with 50, and the last
    withdrawal (25 out of 20) is refused and changes nothing. *)
Example scenario_balances :
  let w3 := run (firstn 3 scenario) freshWorld in
  BalanceOf alice (store w3) = 20 /\ BalanceOf bob (store w3) = 50 /\
  map type (store w3)
    = [ty_deposit; ty_withdrawal; ty_transfer_out; ty_transfer_in] /\
  fst (perform (Some alice) (Withdraw 25 None) w3) = false /\
  store (run scenario freshWorld) = store w3.
Proof. vm_compute. repeat split; reflexivity. Qed.

(** The funds check reads the balance of the render the call was issued
    from.  Sessions ([run]) always issue a call from the render of the
    committed log; a second call issued from a render that has not seen the
    first one is checked against the old balance. *)
Remark outdated_render_checks_old_balance :
  let w := worldWith aliceHas100 (tickingFrom twoHoursIn) in
  let r := render (Some alice) w in
  let w1 := snd (withdraw r 100 None w) in
  fst (withdraw (render (Some alice) w1) 100 None w1) = false /\
  fst (withdraw r 100 None w1) = true.
Proof. vm_compute. split; reflexivity. Qed.

(** ** The rate limiter against the rules of the specification *)

Lemma filter_filter {A} (f g : A -> bool) (l : list A) :
  filter g (filter f l) = filter (fun x => f x && g x) l.
Proof.
  induction l as [|x l IH]; simpl; [reflexivity|].
  destruct (f x); simpl; [destruct (g x)|]; rewrite IH; reflexivity.
Qed.

Lemma recentTransactions_countSince (u : Auth.User) (txs : list Transaction)
    (bound : Z) :
  Z.of_nat (List.length (recentTransactions u txs bound))
  = countSince bound (entriesOf (Auth.id u) txs).
Proof.
  unfold recentTransactions, countSince, entriesOf.
  rewrite filter_filter. do 2 f_equal.
  apply filter_ext. intro t. rewrite Z.gtb_ltb. reflexivity.
Qed.

Lemma dailyTotal_sumOfTypeFrom (k : TransactionType) (u : Auth.User)
    (txs : list Transaction) (today : Z) :
  dailyTotal k u txs today = sumOfTypeFrom k today (entriesOf (Auth.id u) txs).
Proof.
  unfold dailyTotal, sumOfTypeFrom, entriesOf.
  rewrite sumAmounts_total, !filter_filter. f_equal.
  apply filter_ext. intro t. rewrite Z.geb_leb, ?andb_assoc. reflexivity.
Qed.

Lemma verdict_Evaluate (dayStart : Z -> Z) (u : Auth.User)
    (txs : list Transaction) (amt : Z) (kind : LimitedKind) (now : Z) :
  verdict u txs amt kind now (dayStart now) = true
  <-> Evaluate dayStart (Auth.id u) amt kind txs now = Allow.
Proof.
  unfold verdict, Evaluate.
  rewrite recentTransactions_countSince, !dailyTotal_sumOfTypeFrom.
  simpl maxAmountPerTransaction; simpl maxTransactionsPerMinute;
    simpl maxDailyWithdrawal; simpl maxDailyTransfer.
  rewrite Z.gtb_ltb, Z.geb_leb.
  destruct (10000 <? amt); [split; discriminate|].
  destruct (5 <=? _); [split; discriminate|].
  destruct kind; simpl; rewrite Z.gtb_ltb;
    destruct (5000 <? _); simpl; split; intro; try discriminate; reflexivity.
Qed.

Lemma checkRateLimits_reads (u : Auth.User) (txs : list Transaction)
    (amt : Z) (kind : LimitedKind) (w : World) :
  snd (checkRateLimits {| currentUser := Some u; transactions := txs |} amt kind w)
  = if 10000 <? amt then w
    else if 5 <=? countSince (clock w 0%nat - 60000) (entriesOf (Auth.id u) txs)
         then tick w
         else tick (tick w).
Proof.
  unfold checkRateLimits; simpl. run_monad.
  rewrite Z.gtb_ltb.
  destruct (10000 <? amt); [reflexivity|]. cbv beta.
  rewrite recentTransactions_countSince, Z.geb_leb.
  destruct (5 <=? _); [reflexivity|]. cbv beta.
  destruct kind; simpl;
    match goal with |- context [if ?c then _ else _] => destruct c end;
    reflexivity.
Qed.

Lemma EvaluateTwice_same_day (dayStart : Z -> Z) (actorId : string)
    (amt : Z) (category : LimitedKind) (history : list Transaction)
    (now later : Z) :
  dayStart later = dayStart now ->
  EvaluateTwice dayStart actorId amt category history now later
  = Evaluate dayStart actorId amt category history now.
Proof. intro E. unfold EvaluateTwice, Evaluate. rewrite E. reflexivity. Qed.

Lemma verdict_EvaluateTwice (dayStart : Z -> Z) (u : Auth.User)
    (txs : list Transaction) (amt : Z) (kind : LimitedKind) (now later : Z) :
  verdict u txs amt kind now (dayStart later) = true
  <-> EvaluateTwice dayStart (Auth.id u) amt kind txs now later = Allow.
Proof.
  unfold verdict, EvaluateTwice.
  rewrite recentTransactions_countSince, !dailyTotal_sumOfTypeFrom.
  simpl maxAmountPerTransaction; simpl maxTransactionsPerMinute;
    simpl maxDailyWithdrawal; simpl maxDailyTransfer.
  rewrite Z.gtb_ltb, Z.geb_leb.
  destruct (10000 <? amt); [split; discriminate|].
  destruct (5 <=? _); [split; discriminate|].
  destruct kind; simpl; rewrite Z.gtb_ltb;
    destruct (5000 <? _); simpl; split; intro; try discriminate; reflexivity.
Qed.


(** Five withdrawals of 1 within a minute pass, the sixth is refused and
    leaves the balance where the fifth left it (the deposit is an hour
    old). *)
Example sixth_in_a_minute_is_refused :
  let w := worldWith aliceHas100 (tickingFrom twoHoursIn) in
  let w5 := run (firstn 5 sixWithdrawals) w in
  BalanceOf alice (store w5) = 95 /\
  fst (perform (Some alice) (Withdraw 1 None) w5) = false /\
  BalanceOf alice (store (run sixWithdrawals w)) = 95.
Proof. vm_compute. repeat split; reflexivity. Qed.



(** ** Failed calls *)

Lemma invoke_false_store (r : Render) (c : Call) (w : World) :
  fst (invoke r c w) = false -> store (snd (invoke r c w)) = store w.
Proof.
  destruct c; simpl; intro H.
  - destruct (deposit_false _ _ _ _ H) as [_ E]. rewrite E. reflexivity.
  - apply (withdraw_false _ _ _ _ H).
  - apply (transfer_false _ _ _ _ _ H).
Qed.

(** [C6] A failed call to deposit, withdraw or transfer (from any render,
    in any world) appends nothing: the committed log is the one before the
    call, and so is the balance of every actor and of every render over
    it. *)
Theorem failed_call_changes_nothing :
  forall (r : Render) (c : Call) (w : World),
    fst (invoke r c w) = false ->
    store (snd (invoke r c w)) = store w
    /\ (forall actor : Auth.User,
          BalanceOf actor (store (snd (invoke r c w)))
          = BalanceOf actor (store w))
    /\ (forall cu : option Auth.User,
          balance (render cu (snd (invoke r c w))) = balance (render cu w)).
Proof.
  intros r c w H. pose proof (invoke_false_store r c w H) as E.
  split; [exact E|]. split.
  - intro actor. rewrite E. reflexivity.
  - intro cu. unfold render. rewrite E. reflexivity.
Qed.

Lemma failed_call_changes_nothing_witness :
  let w := run (firstn 3 scenario) freshWorld in
  let r := render (Some alice) w in
  fst (invoke r (Withdraw 25 None) w) = false /\
  store (snd (invoke r (Withdraw 25 None) w)) = store w /\
  (forall actor : Auth.User,
     BalanceOf actor (store (snd (invoke r (Withdraw 25 None) w)))
     = BalanceOf actor (store w)) /\
  (forall cu : option Auth.User,
     balance (render cu (snd (invoke r (Withdraw 25 None) w)))
     = balance (render cu w)).
Proof.
  intros w r.
  assert (H : fst (invoke r (Withdraw 25 None) w) = false)
    by (vm_compute; reflexivity).
  split; [exact H|].
  exact (failed_call_changes_nothing r (Withdraw 25 None) w H).
Defined.

(** ** What a failure tells the caller *)

Lemma refused_fails (r : Render) (c : Call) (w : World) :
  refused r c w -> fst (invoke r c w) = false.
Proof.
  intro Href.
  destruct (fst (invoke r c w)) eqn:E; [exfalso|reflexivity].
  destruct c; simpl in E.
  - destruct (deposit_true _ _ _ _ E) as (u & Hu & Hpos & _).
    destruct Href as [Hn|Hle]; [congruence|lia].
  - destruct (withdraw_true _ _ _ _ E) as (u & Hu & Hpos & Hbal & Hrl & _).
    destruct Href as [Hn|[Hle|[Hlt|Hd]]]; [congruence|lia|lia|congruence].
  - destruct (transfer_true _ _ _ _ _ E)
      as (u & Hu & Hpos & Hbal & Hne & Hrl & _).
    destruct Href as [Hn|[Hle|[Hlt|[(u' & Hu' & Hself)|Hd]]]];
      [congruence|lia|lia| |congruence].
    apply Hne. congruence.
Qed.

Lemma fails_refused (r : Render) (c : Call) (w : World) :
  fst (invoke r c w) = false -> refused r c w.
Proof.
  unfold refused. destruct c; simpl; intro E.
  - destruct (deposit_false _ _ _ _ E) as [[Hn|Hle] _]; auto.
  - destruct (withdraw_false _ _ _ _ E) as [Hc _]. tauto.
  - destruct (transfer_false _ _ _ _ _ E) as [Hc _]. tauto.
Qed.

(** [C7, amended] The three operations return a boolean.  A call fails
    exactly when one of the guards refuses it (no current user; amount not
    positive; for withdraw and transfer, amount above the balance or a
    denial of the rate limiter; for transfer, recipient equal to the
    sender), and every failed call returns the same value [false], whatever
    the cause: two refused calls cannot be told apart by their result. *)
Theorem failure_is_a_bare_false :
  forall (r : Render) (c : Call) (w : World),
    (fst (invoke r c w) = false <-> refused r c w)
    /\ (forall (r' : Render) (c' : Call) (w' : World),
          refused r c w -> refused r' c' w' ->
          fst (invoke r c w) = fst (invoke r' c' w')).
Proof.
  intros r c w. split.
  - split; [apply fails_refused | apply refused_fails].
  - intros r' c' w' H H'.
    rewrite (refused_fails _ _ _ H), (refused_fails _ _ _ H'). reflexivity.
Qed.

Lemma failure_is_a_bare_false_witness :
  let w := worldWith aliceHas100 (tickingFrom twoHoursIn) in
  let r := render (Some alice) w in
  let w' := worldWith aliceHas20000 (tickingFrom twoHoursIn) in
  let r' := render (Some alice) w' in
  refused r (Withdraw 200 None) w /\
  refused r' (Withdraw 6000 None) w' /\
  fst (invoke r (Withdraw 200 None) w) = fst (invoke r' (Withdraw 6000 None) w').
Proof.
  intros w r w' r'.
  assert (H : refused r (Withdraw 200 None) w).
  { right. right. left. vm_compute. reflexivity. }
  assert (H' : refused r' (Withdraw 6000 None) w').
  { right. right. right. vm_compute. reflexivity. }
  split; [exact H|]. split; [exact H'|].
  exact (proj2 (failure_is_a_bare_false r (Withdraw 200 None) w)
               r' (Withdraw 6000 None) w' H H').
Defined.

(** [C7, as stated, fails] A withdrawal refused for lack of funds (the rate
    limiter would allow it) and a withdrawal refused by the rate limiter
    (the funds are there) give the caller the same result. *)
Lemma withdraw_denials_look_alike :
  let w := worldWith aliceHas100 (tickingFrom twoHoursIn) in
  let r := render (Some alice) w in
  let w' := worldWith aliceHas20000 (tickingFrom twoHoursIn) in
  let r' := render (Some alice) w' in
  (balance r < 200 /\ fst (checkRateLimits r 200 lk_withdrawal w) = true) /\
  (6000 <= balance r' /\ fst (checkRateLimits r' 6000 lk_withdrawal w') = false) /\
  fst (withdraw r 200 None w) = false /\
  fst (withdraw r' 6000 None w') = false /\
  fst (withdraw r 200 None w) = fst (withdraw r' 6000 None w').
Proof.
  vm_compute. repeat split; try reflexivity; discriminate.
Qed.

(** ** The recipient of a transfer *)

Lemma getUserById_registered (users : list Auth.User) (u : Auth.User) :
  In u users -> Auth.getUserById users (Auth.id u) <> None.
Proof.
  unfold Auth.getUserById. intros Hin Hnone.
  apply (find_none _ _ Hnone) in Hin.
  rewrite String.eqb_refl in Hin. discriminate.
Qed.

(** [C8, amended] [transfer] never consults the identity collaborator: the
    only check on the recipient is that it differs from the sender.  So for
    a registered sender and a recipient id that [getUserById] does not
    resolve, a transfer of a positive amount within the balance that the
    rate limiter allows succeeds, and commits its two entries, the
    transfer_in being owned by the unresolvable id. *)
Theorem transfer_ignores_identity :
  forall (users : list Auth.User) (u : Auth.User) (log : list Transaction)
         (amt : Z) (rcp : string) (desc : option string) (w : World),
    let r := {| currentUser := Some u; transactions := log |} in
    In u users ->
    Auth.getUserById users rcp = None ->
    0 < amt -> amt <= balance r ->
    fst (checkRateLimits r amt lk_transfer w) = true ->
    fst (transfer r amt rcp desc w) = true
    /\ exists out inc : Transaction,
         store (snd (transfer r amt rcp desc w)) = store w ++ [out; inc]
         /\ userId out = Auth.id u /\ type out = ty_transfer_out
         /\ userId inc = rcp /\ type inc = ty_transfer_in.
Proof.
  intros users u log amt rcp desc w r Hin Hnone Hpos Hbal Hrl.
  assert (Hok : fst (transfer r amt rcp desc w) = true).
  { destruct (fst (transfer r amt rcp desc w)) eqn:E; [reflexivity|exfalso].
    destruct (transfer_false _ _ _ _ _ E)
      as [[Hn|[Hle|[Hlt|[(u' & Hu' & Hself)|Hd]]]] _].
    - discriminate Hn.
    - lia.
    - lia.
    - simpl in Hu'. injection Hu' as <-. subst rcp.
      exact (getUserById_registered users u Hin Hnone).
    - congruence. }
  split; [exact Hok|].
  destruct (transfer_true _ _ _ _ _ Hok) as (u' & Hu' & _ & _ & _ & _ & Hst).
  simpl in Hu'. injection Hu' as <-.
  eexists _, _. split; [exact Hst|]. repeat split; reflexivity.
Qed.

Lemma transfer_ignores_identity_witness :
  let w := worldWith aliceHas100 (tickingFrom twoHoursIn) in
  let r := {| currentUser := Some alice; transactions := aliceHas100 |} in
  In alice [alice; bob] /\
  Auth.getUserById [alice; bob] "nobody" = None /\
  fst (transfer r 50 "nobody" None w) = true /\
  exists out inc : Transaction,
    store (snd (transfer r 50 "nobody" None w)) = store w ++ [out; inc]
    /\ userId out = Auth.id alice /\ type out = ty_transfer_out
    /\ userId inc = "nobody" /\ type inc = ty_transfer_in.
Proof.
  intros w r.
  assert (Hin : In alice [alice; bob]) by (left; reflexivity).
  assert (Hnone : Auth.getUserById [alice; bob] "nobody" = None) by reflexivity.
  split; [exact Hin|]. split; [exact Hnone|].
  apply (transfer_ignores_identity [alice; bob] alice aliceHas100 50 "nobody"
           None w Hin Hnone).
  - lia.
  - vm_compute. discriminate.
  - vm_compute. reflexivity.
Defined.

(** [C8, as stated, fails] Alice, with 100, transfers 50 to an id that no
    registered user has: the call succeeds and two entries are appended. *)
Lemma transfer_to_unknown_succeeds :
  let w := worldWith aliceHas100 (tickingFrom twoHoursIn) in
  let res := transfer (render (Some alice) w) 50 "nobody" None w in
  Auth.getUserById [alice; bob] "nobody" = None /\
  fst res = true /\
  List.length (store (snd res)) = (List.length (store w) + 2)%nat /\
  map userId (store (snd res)) = ["alice"; "alice"; "nobody"].
Proof. vm_compute. repeat split; reflexivity. Qed.

(** ** The rate limiter and the clock *)

(** [C9, amended] [checkRateLimits] takes the amount and the category only;
    the instant is not an argument, it reads the host's clock itself
    ([Date.now()], then [new Date()]).  Its verdict is a function of the
    render (current user and log), the amount, the category, these two
    readings and the host's calendar: in two worlds that agree on them it
    returns the same verdict.  It never changes the committed log. *)
Theorem rate_limit_reads_the_clock :
  forall (r : Render) (amt : Z) (kind : LimitedKind) (w w' : World),
    clock w 0%nat = clock w' 0%nat ->
    clock w 1%nat = clock w' 1%nat ->
    (forall d, startOfDay w d = startOfDay w' d) ->
    fst (checkRateLimits r amt kind w) = fst (checkRateLimits r amt kind w')
    /\ store (snd (checkRateLimits r amt kind w)) = store w.
Proof.
  intros [cu log] amt kind w w' H0 H1 Hcal.
  split; [|apply checkRateLimits_store].
  destruct cu as [u|]; [|reflexivity].
  rewrite !checkRateLimits_verdict, H0, H1, Hcal. reflexivity.
Qed.

Lemma rate_limit_reads_the_clock_witness :
  let r := {| currentUser := Some alice; transactions := busyMinute |} in
  let w := worldWith [] (frozenAt (twoHoursIn + 1000)) in
  let w' := worldWith aliceHas100 (fun n => twoHoursIn + 1000 + Z.of_nat (n / 2)) in
  fst (checkRateLimits r 1 lk_withdrawal w) = fst (checkRateLimits r 1 lk_withdrawal w')
  /\ store (snd (checkRateLimits r 1 lk_withdrawal w)) = store w.
Proof.
  intros r w w'.
  apply (rate_limit_reads_the_clock r 1 lk_withdrawal w w').
  - reflexivity.
  - reflexivity.
  - intro d. reflexivity.
Defined.

(** [C9, as stated, fails] The same render, amount and category, evaluated
    twice: one second after Alice's five withdrawals the request is denied,
    two minutes after them it is allowed.  Nothing the caller passes
    differs; the clock the function reads does. *)
Lemma rate_limit_depends_on_wall_clock :
  let r := {| currentUser := Some alice; transactions := busyMinute |} in
  let soon := worldWith busyMinute (frozenAt (twoHoursIn + 1000)) in
  let later := worldWith busyMinute (frozenAt (twoHoursIn + 120000)) in
  store soon = store later /\
  fst (checkRateLimits r 1 lk_withdrawal soon) = false /\
  fst (checkRateLimits r 1 lk_withdrawal later) = true.
Proof. vm_compute. repeat split; reflexivity. Qed.

(** ** Without a current user *)

(** [C10] With no authenticated user ([currentUser] is null) deposit,
    withdraw and transfer return [false] and leave the world, hence the
    log, untouched, whatever the amount, the recipient and the log; and the
    history is empty. *)
Theorem logged_out_does_nothing :
  forall (log : list Transaction) (amt : Z) (rcp : string)
         (desc : option string) (w : World),
    let r := {| currentUser := None; transactions := log |} in
    deposit r amt desc w = (false, w)
    /\ withdraw r amt desc w = (false, w)
    /\ transfer r amt rcp desc w = (false, w)
    /\ getTransactionHistory r = [].
Proof. intros. repeat split. Qed.

(** * Further properties *)

(** ** The history: a stable sort, most recent first *)

Lemma insertByTimestamp_perm (x : Transaction) (l : list Transaction) :
  Permutation (insertByTimestamp x l) (x :: l).
Proof.
  induction l as [|y l IH]; simpl; [apply Permutation_refl|].
  destruct (timestamp y >? timestamp x).
  - apply perm_trans with (y :: x :: l);
      [apply perm_skip; exact IH | apply perm_swap].
  - apply Permutation_refl.
Qed.

Lemma sortByTimestampDesc_perm (l : list Transaction) :
  Permutation (sortByTimestampDesc l) l.
Proof.
  induction l as [|x l IH]; simpl; [constructor|].
  apply perm_trans with (x :: sortByTimestampDesc l);
    [apply insertByTimestamp_perm | apply perm_skip; exact IH].
Qed.

Lemma insertByTimestamp_sorted (x : Transaction) (l : list Transaction) :
  StronglySorted noOlderThan l ->
  StronglySorted noOlderThan (insertByTimestamp x l).
Proof.
  induction l as [|y l IH]; simpl; intro Hs.
  - constructor; constructor.
  - inversion Hs as [|y' l' Hl Hy]; subst.
    destruct (Z.gtb_spec (timestamp y) (timestamp x)) as [Hgt|Hle].
    + constructor; [apply IH; exact Hl|].
      apply (Permutation_Forall (Permutation_sym (insertByTimestamp_perm x l))).
      constructor; [unfold noOlderThan; lia | exact Hy].
    + constructor; [exact Hs|].
      constructor; [unfold noOlderThan; lia|].
      apply (Forall_impl _ (P := noOlderThan y)); [|exact Hy].
      unfold noOlderThan. intros z Hz. lia.
Qed.

Lemma sortByTimestampDesc_sorted (l : list Transaction) :
  StronglySorted noOlderThan (sortByTimestampDesc l).
Proof.
  induction l as [|x l IH]; simpl; [constructor|].
  apply insertByTimestamp_sorted. exact IH.
Qed.

Lemma insertByTimestamp_same_instant (ts : Z) (x : Transaction)
    (l : list Transaction) :
  filter (fun t => timestamp t =? ts) (insertByTimestamp x l)
  = filter (fun t => timestamp t =? ts) (x :: l).
Proof.
  induction l as [|y l IH]; [reflexivity|]. simpl insertByTimestamp.
  destruct (Z.gtb_spec (timestamp y) (timestamp x)) as [Hgt|Hle];
    [|reflexivity].
  simpl. simpl in IH. rewrite IH.
  destruct (Z.eqb_spec (timestamp y) ts);
    destruct (Z.eqb_spec (timestamp x) ts); simpl; try reflexivity.
  lia.
Qed.

(** [X1] The history of the logged-in user holds exactly that user's
    entries of the log: it is a rearrangement of them, nothing is dropped,
    duplicated or borrowed from another user. *)
Theorem history_is_the_users_entries :
  forall (u : Auth.User) (log : list Transaction),
    Permutation
      (getTransactionHistory {| currentUser := Some u; transactions := log |})
      (entriesOf (Auth.id u) log).
Proof.
  intros u log. unfold getTransactionHistory; simpl.
  apply sortByTimestampDesc_perm.
Qed.

(** [X2] The history is ordered most recent first: every entry is at least
    as recent as all the entries after it. *)
Theorem history_is_most_recent_first :
  forall r : Render, StronglySorted noOlderThan (getTransactionHistory r).
Proof.
  intro r. unfold getTransactionHistory.
  destruct (currentUser r); [apply sortByTimestampDesc_sorted | constructor].
Qed.

(** [X3] The ordering is stable: the entries of the user that carry one and
    the same timestamp appear in the history in the order of the log. *)
Theorem history_keeps_log_order_on_ties :
  forall (u : Auth.User) (log : list Transaction) (ts : Z),
    filter (fun t => timestamp t =? ts)
      (getTransactionHistory {| currentUser := Some u; transactions := log |})
    = filter (fun t => timestamp t =? ts) (entriesOf (Auth.id u) log).
Proof.
  intros u log ts. unfold getTransactionHistory; simpl.
  fold (entriesOf (Auth.id u) log).
  induction (entriesOf (Auth.id u) log) as [|x l IH]; [reflexivity|].
  simpl sortByTimestampDesc. rewrite insertByTimestamp_same_instant.
  simpl. rewrite IH. reflexivity.
Qed.

Lemma StronglySorted_across {A} (R : A -> A -> Prop) (l1 l2 : list A) :
  StronglySorted R (l1 ++ l2) ->
  forall a b, In a l1 -> In b l2 -> R a b.
Proof.
  induction l1 as [|x l1 IH]; simpl; intros Hs a b Ha Hb; [contradiction|].
  inversion Hs as [|x' l' Hl Hx]; subst.
  destruct Ha as [<-|Ha].
  - rewrite Forall_forall in Hx. apply Hx. apply in_or_app. right. exact Hb.
  - apply (IH Hl a b Ha Hb).
Qed.

(** [X4] The dashboard shows at most five entries, the first ones of the
    history, and none of the entries it leaves out is more recent than one
    it shows. *)
Theorem dashboard_shows_the_most_recent :
  forall r : Render,
    (List.length (recentOnDashboard r) <= 5)%nat
    /\ getTransactionHistory r
       = recentOnDashboard r ++ skipn 5 (getTransactionHistory r)
    /\ (forall shown hidden : Transaction,
          In shown (recentOnDashboard r) ->
          In hidden (skipn 5 (getTransactionHistory r)) ->
          timestamp hidden <= timestamp shown).
Proof.
  intro r. unfold recentOnDashboard. split; [apply firstn_le_length|].
  split; [symmetry; apply firstn_skipn|].
  intros shown hidden Hs Hh.
  apply (StronglySorted_across noOlderThan
           (firstn 5 (getTransactionHistory r))
           (skipn 5 (getTransactionHistory r))); try assumption.
  rewrite firstn_skipn. unfold getTransactionHistory.
  destruct (currentUser r); [apply sortByTimestampDesc_sorted | constructor].
Qed.

Lemma dashboard_shows_the_most_recent_witness :
  let r := {| currentUser := Some alice; transactions := busyMinute |} in
  map type (recentOnDashboard r)
    = [ty_withdrawal; ty_withdrawal; ty_withdrawal; ty_withdrawal;
       ty_withdrawal] /\
  map type (skipn 5 (getTransactionHistory r)) = [ty_deposit] /\
  (forall shown hidden : Transaction,
     In shown (recentOnDashboard r) ->
     In hidden (skipn 5 (getTransactionHistory r)) ->
     timestamp hidden <= timestamp shown).
Proof.
  intro r. split; [vm_compute; reflexivity|]. split; [vm_compute; reflexivity|].
  exact (proj2 (proj2 (dashboard_shows_the_most_recent r))).
Defined.

(** ** Every call, as a commit *)

Lemma effect_ticks0 (w : World) : effect [] 0 w w.
Proof.
  unfold effect. rewrite app_nil_r. repeat split.
Qed.

Lemma checkRateLimits_effect (r : Render) (amt : Z) (kind : LimitedKind)
    (w : World) :
  exists reads, (reads <= 2)%nat
    /\ effect [] reads w (snd (checkRateLimits r amt kind w)).
Proof.
  destruct r as [[u|] log].
  - rewrite checkRateLimits_reads.
    destruct (10000 <? amt); [exists 0%nat; split; [lia|apply effect_ticks0]|].
    destruct (5 <=? _).
    + exists 1%nat. split; [lia|]. unfold effect; simpl.
      rewrite app_nil_r. repeat split.
    + exists 2%nat. split; [lia|]. unfold effect; simpl.
      rewrite app_nil_r. repeat split.
  - exists 0%nat. split; [lia|apply effect_ticks0].
Qed.

Lemma perform_commit (cu : option Auth.User) (c : Call) (w : World) :
  exists batch reads,
    Commit cu w batch reads /\ effect batch reads w (snd (perform cu c w)).
Proof.
  unfold perform.
  destruct (fst (invoke (render cu w) c w)) eqn:Hres; destruct c; simpl in *.
  - (* deposit, done *)
    destruct (deposit_true _ _ _ _ Hres) as (u & Hu & Hpos & _).
    simpl in Hu; subst cu.
    eexists _, _. split; [apply (commit_deposit _ _ u amt desc eq_refl Hpos)|].
    unfold deposit; simpl. destruct (Z.leb_spec amt 0); [lia|].
    unfold effect; simpl. repeat split.
  - (* withdraw, done *)
    destruct (withdraw_true _ _ _ _ Hres) as (u & Hu & Hpos & Hbal & Hrl & _).
    simpl in Hu; subst cu.
    pose proof Hrl as Hv. unfold render in Hv. rewrite checkRateLimits_verdict in Hv.
    eexists _, _.
    split; [apply (commit_withdraw _ _ u amt desc eq_refl Hpos Hbal Hv)|].
    pose proof (checkRateLimits_allow_world _ _ _ _ Hrl) as Hw.
    unfold withdraw; simpl.
    destruct (Z.leb_spec amt 0); [lia|].
    destruct (Z.gtb_spec amt (balance (render (Some u) w))); [lia|]. simpl.
    unfold bind.
    destruct (checkRateLimits (render (Some u) w) amt lk_withdrawal w)
      as [ok w1]; simpl in *. subst ok w1. simpl.
    unfold effect; simpl. repeat split.
  - (* transfer, done *)
    destruct (transfer_true _ _ _ _ _ Hres)
      as (u & Hu & Hpos & Hbal & Hne & Hrl & _).
    simpl in Hu; subst cu.
    pose proof Hrl as Hv. unfold render in Hv. rewrite checkRateLimits_verdict in Hv.
    eexists _, _.
    split; [apply (commit_transfer _ _ u amt recipientId desc eq_refl Hpos Hbal Hne Hv)|].
    pose proof (checkRateLimits_allow_world _ _ _ _ Hrl) as Hw.
    unfold transfer; simpl.
    destruct (Z.leb_spec amt 0); [lia|].
    destruct (Z.gtb_spec amt (balance (render (Some u) w))); [lia|].
    destruct (String.eqb_spec (Auth.id u) recipientId); [contradiction|]. simpl.
    unfold bind.
    destruct (checkRateLimits (render (Some u) w) amt lk_transfer w)
      as [ok w1]; simpl in *. subst ok w1. simpl.
    unfold effect; simpl. repeat split.
  - (* deposit, refused *)
    destruct (deposit_false _ _ _ _ Hres) as [_ ->].
    exists [], 0%nat. split; [constructor; lia | apply effect_ticks0].
  - (* withdraw, refused *)
    exists []. unfold withdraw in *.
    destruct cu as [u|]; simpl in *;
      [|exists 0%nat; split; [constructor; lia | apply effect_ticks0]].
    destruct ((amt <=? 0) || (amt >? balance (render (Some u) w)));
      [exists 0%nat; split; [constructor; lia | apply effect_ticks0]|].
    unfold bind in *.
    destruct (checkRateLimits_effect (render (Some u) w) amt lk_withdrawal w)
      as (reads & Hle & He).
    destruct (checkRateLimits (render (Some u) w) amt lk_withdrawal w)
      as [ok w1]; simpl in *.
    destruct ok; [discriminate|]. simpl.
    exists reads. split; [constructor; exact Hle | exact He].
  - (* transfer, refused *)
    exists []. unfold transfer in *.
    destruct cu as [u|]; simpl in *;
      [|exists 0%nat; split; [constructor; lia | apply effect_ticks0]].
    destruct ((amt <=? 0) || (amt >? balance (render (Some u) w))
              || String.eqb (Auth.id u) recipientId);
      [exists 0%nat; split; [constructor; lia | apply effect_ticks0]|].
    unfold bind in *.
    destruct (checkRateLimits_effect (render (Some u) w) amt lk_transfer w)
      as (reads & Hle & He).
    destruct (checkRateLimits (render (Some u) w) amt lk_transfer w)
      as [ok w1]; simpl in *.
    destruct ok; [discriminate|]. simpl.
    exists reads. split; [constructor; exact Hle | exact He].
Qed.

Lemma run_world_invariant (P : World -> Prop) :
  (forall cu c w, P w -> P (snd (perform cu c w))) ->
  forall calls w, P w -> P (run calls w).
Proof.
  intros Hstep calls.
  induction calls as [|[cu c] rest IH]; intros w Hw; simpl; [exact Hw|].
  apply IH, Hstep, Hw.
Qed.

(** ** Sessions: what the log looks like after any sequence of calls *)

(** [X8] The log is append-only: after any session the log it started from
    is still there, unchanged, as a prefix. *)
Theorem log_is_append_only :
  forall (calls : list (option Auth.User * Call)) (w : World),
    exists suffix : list Transaction,
      store (run calls w) = store w ++ suffix.
Proof.
  intros calls w.
  apply (run_world_invariant
           (fun w' => exists suffix, store w' = store w ++ suffix)).
  - intros cu c w' [s Hs].
    destruct (perform_commit cu c w') as (batch & reads & _ & (Hst & _)).
    exists (s ++ batch). rewrite Hst, Hs, app_assoc. reflexivity.
  - exists []. rewrite app_nil_r. reflexivity.
Qed.

Lemma paired_app (l1 l2 : list Transaction) :
  paired l1 -> paired l2 -> paired (l1 ++ l2).
Proof.
  intros H1 H2. induction H1; simpl.
  - exact H2.
  - apply paired_single; assumption.
  - apply paired_transfer; assumption.
Qed.

Lemma Commit_paired (cu : option Auth.User) (w : World)
    (batch : list Transaction) (reads : nat) :
  Commit cu w batch reads -> paired batch.
Proof.
  intros [k Hk | u a d Hu Hpos | u a d Hu Hpos Hbal Hv
          | u a rcp d Hu Hpos Hbal Hne Hv].
  - constructor.
  - apply paired_single; [left; reflexivity | constructor].
  - apply paired_single; [right; reflexivity | constructor].
  - apply paired_transfer; simpl; try reflexivity; [|constructor].
    intro E. apply Hne. symmetry. exact E.
Qed.

(** [X10] Transfers stay paired: if, before a session, the log consists of
    deposits, withdrawals and adjacent transfer pairs (a transfer_out
    immediately followed by the transfer_in of the same amount, each naming
    the owner of the other, owners distinct), it does so after the
    session. *)
Theorem transfers_stay_paired :
  forall (calls : list (option Auth.User * Call)) (w : World),
    paired (store w) -> paired (store (run calls w)).
Proof.
  intros calls.
  apply (run_world_invariant (fun w => paired (store w))).
  intros cu c w Hw.
  destruct (perform_commit cu c w) as (batch & reads & Hc & (Hst & _)).
  rewrite Hst. apply paired_app; [exact Hw | apply (Commit_paired _ _ _ _ Hc)].
Qed.

Lemma transfers_stay_paired_witness :
  paired (store freshWorld) /\ paired (store (run scenario freshWorld)).
Proof.
  assert (H : paired (store freshWorld)) by constructor.
  split; [exact H | exact (transfers_stay_paired scenario freshWorld H)].
Defined.

Lemma Commit_ids (cu : option Auth.User) (w : World)
    (batch : list Transaction) (reads : nat) :
  Commit cu w batch reads ->
  map id batch = map (uuids w) (seq 0 (List.length batch)).
Proof. intros []; reflexivity. Qed.

Lemma map_seq_shifted {A} (f g : nat -> A) (a s b : nat) :
  (forall n, f n = g (a + n)%nat) ->
  map f (seq s b) = map g (seq (s + a) b).
Proof.
  intro H. revert s. induction b as [|b IH]; intro s; simpl; [reflexivity|].
  rewrite H, (Nat.add_comm a s). f_equal. apply (IH (S s)).
Qed.

(** [X11] Transaction ids are unique as long as the identifier source does
    not repeat itself: after any session that starts from the empty log,
    the ids of the log are pairwise distinct; they are the first
    identifiers of the source, in order, one per entry. *)
Theorem transaction_ids_are_unique :
  forall (calls : list (option Auth.User * Call)) (w0 : World),
    store w0 = [] ->
    (forall i j : nat, uuids w0 i = uuids w0 j -> i = j) ->
    NoDup (map id (store (run calls w0)))
    /\ map id (store (run calls w0))
       = map (uuids w0) (seq 0 (List.length (store (run calls w0)))).
Proof.
  intros calls w0 Hempty Hinj.
  assert (Hinv :
    map id (store (run calls w0))
      = map (uuids w0) (seq 0 (List.length (store (run calls w0))))
    /\ forall n, uuids (run calls w0) n
                 = uuids w0 (List.length (store (run calls w0)) + n)%nat).
  { apply (run_world_invariant
             (fun w => map id (store w)
                         = map (uuids w0) (seq 0 (List.length (store w)))
                       /\ forall n, uuids w n
                                    = uuids w0 (List.length (store w) + n)%nat)).
    - intros cu c w [Hids Hsrc].
      destruct (perform_commit cu c w)
        as (batch & reads & Hc & (Hst & _ & Hu & _)).
      rewrite Hst, length_app, map_app, seq_app, map_app, Hids.
      split.
      + f_equal. rewrite (Commit_ids _ _ _ _ Hc).
        apply (map_seq_shifted _ _ (List.length (store w)) 0). exact Hsrc.
      + intro n. rewrite Hu, Hsrc. f_equal. lia.
    - rewrite Hempty. split; [reflexivity | intro n; reflexivity]. }
  destruct Hinv as [Hids _]. split; [|exact Hids].
  rewrite Hids. apply Finite.Injective_map_NoDup; [exact Hinj | apply seq_NoDup].
Qed.

Lemma serialIds_injective (i j : nat) : serialIds i = serialIds j -> i = j.
Proof.
  unfold serialIds. simpl. intro H. injection H as H.
  assert (E : Some (Nat.to_uint i) = Some (Nat.to_uint j))
    by (rewrite <- !NilEmpty.usu, H; reflexivity).
  injection E as E. apply DecimalNat.Unsigned.to_uint_inj. exact E.
Qed.

Lemma transaction_ids_are_unique_witness :
  store freshWorld = [] /\
  (forall i j : nat, uuids freshWorld i = uuids freshWorld j -> i = j) /\
  NoDup (map id (store (run scenario freshWorld))).
Proof.
  split; [reflexivity|]. split; [exact serialIds_injective|].
  exact (proj1 (transaction_ids_are_unique scenario freshWorld eq_refl
                  serialIds_injective)).
Defined.

Lemma StronglySorted_app {A} (R : A -> A -> Prop) (l1 l2 : list A) :
  StronglySorted R l1 -> StronglySorted R l2 ->
  (forall a b, In a l1 -> In b l2 -> R a b) ->
  StronglySorted R (l1 ++ l2).
Proof.
  intros H1 H2 H12. induction H1 as [|x l Hl IH Hx]; simpl; [exact H2|].
  constructor.
  - apply IH. intros a b Ha Hb. apply H12; [right; exact Ha | exact Hb].
  - apply Forall_app. split; [exact Hx|].
    rewrite Forall_forall. intros b Hb. apply H12; [left; reflexivity | exact Hb].
Qed.

Lemma Commit_timestamps (cu : option Auth.User) (w : World)
    (batch : list Transaction) (reads : nat) :
  Commit cu w batch reads ->
  monotone (clock w) ->
  StronglySorted noLaterThan batch
  /\ Forall (fun t => exists j, (j < reads)%nat /\ timestamp t = clock w j) batch.
Proof.
  intros [k Hk | u a d Hu Hpos | u a d Hu Hpos Hbal Hv
          | u a rcp d Hu Hpos Hbal Hne Hv] Hmono.
  - split; constructor.
  - split; repeat constructor. exists 0%nat. split; [lia|reflexivity].
  - split; repeat constructor. exists 2%nat. split; [lia|reflexivity].
  - split.
    + repeat constructor. unfold noLaterThan; simpl. apply Hmono. lia.
    + repeat constructor; [exists 2%nat | exists 3%nat];
        (split; [lia|reflexivity]).
Qed.

(** [X12] With a clock that never runs backwards, timestamps never decrease
    along the log: after any session that starts from the empty log, every
    entry is timestamped no later than all the entries appended after
    it. *)
Theorem timestamps_follow_insertion_order :
  forall (calls : list (option Auth.User * Call)) (w0 : World),
    store w0 = [] ->
    monotone (clock w0) ->
    StronglySorted noLaterThan (store (run calls w0)).
Proof.
  intros calls w0 Hempty Hmono.
  apply (run_world_invariant
           (fun w => monotone (clock w)
                     /\ StronglySorted noLaterThan (store w)
                     /\ Forall (fun t => forall n, timestamp t <= clock w n)
                               (store w))).
  - intros cu c w (Hm & Hs & Hb).
    destruct (perform_commit cu c w)
      as (batch & reads & Hc & (Hst & Hck & _)).
    destruct (Commit_timestamps _ _ _ _ Hc Hm) as [Hbs Hbt].
    rewrite Forall_forall in Hb, Hbt.
    split; [|split].
    + intros i j Hij. rewrite !Hck. apply Hm. lia.
    + rewrite Hst. apply StronglySorted_app; try assumption.
      intros a b Ha Hb'. destruct (Hbt b Hb') as (j & _ & Ej).
      unfold noLaterThan. rewrite Ej. apply Hb. exact Ha.
    + rewrite Hst, Forall_forall. intros t Ht n. rewrite Hck.
      apply in_app_or in Ht. destruct Ht as [Ht|Ht].
      * apply Hb. exact Ht.
      * destruct (Hbt t Ht) as (j & Hj & Ej). rewrite Ej. apply Hm. lia.
  - rewrite Hempty. split; [exact Hmono|]. split; constructor.
Qed.

Lemma tickingFrom_monotone (start : Z) : monotone (tickingFrom start).
Proof. intros i j Hij. unfold tickingFrom. lia. Qed.

Lemma timestamps_follow_insertion_order_witness :
  store freshWorld = [] /\ monotone (clock freshWorld) /\
  StronglySorted noLaterThan (store (run scenario freshWorld)).
Proof.
  split; [reflexivity|]. split; [exact (tickingFrom_monotone twoHoursIn)|].
  exact (timestamps_follow_insertion_order scenario freshWorld eq_refl
           (tickingFrom_monotone twoHoursIn)).
Defined.

(** ** Sessions: what the limits guarantee *)

Lemma verdict_true_inv (u : Auth.User) (txs : list Transaction) (amt : Z)
    (kind : LimitedKind) (now today : Z) :
  verdict u txs amt kind now today = true ->
  amt <= 10000
  /\ (List.length (recentTransactions u txs (now - 60000)) < 5)%nat
  /\ dailyTotal (chargedType kind) u txs today + amt <= 5000.
Proof.
  unfold verdict. simpl maxAmountPerTransaction.
  simpl maxTransactionsPerMinute. simpl maxDailyWithdrawal.
  simpl maxDailyTransfer.
  destruct (Z.gtb_spec amt 10000); [discriminate|].
  destruct (Z.geb_spec
              (Z.of_nat (List.length (recentTransactions u txs (now - 60000))))
              5); [discriminate|].
  destruct kind; simpl;
    match goal with |- context [?x >? 5000] => destruct (Z.gtb_spec x 5000) end;
    simpl; intro Hv; try discriminate; repeat split; lia.
Qed.

Lemma total_nonneg (l : list Transaction) :
  Forall (fun t => 0 <= amount t) l -> 0 <= total l.
Proof. induction 1; simpl; lia. Qed.

Lemma dailyTotal_nonneg (k : TransactionType) (u : Auth.User)
    (txs : list Transaction) (today : Z) :
  Forall (fun t => 0 <= amount t) txs -> 0 <= dailyTotal k u txs today.
Proof.
  intro H. unfold dailyTotal. rewrite sumAmounts_total.
  apply total_nonneg. apply incl_Forall with (l1 := txs); [|exact H].
  apply incl_filter.
Qed.

(** [X13] On a log without negative amounts, no single withdrawal and no
    single transfer of more than 5000 ever succeeds: the daily caps also
    bound each operation, below the per-transaction cap of 10000. *)
Theorem nothing_above_the_daily_cap :
  forall (u : Auth.User) (log : list Transaction) (amt : Z) (rcp : string)
         (desc : option string) (w : World),
    let r := {| currentUser := Some u; transactions := log |} in
    Forall (fun t => 0 <= amount t) log ->
    5000 < amt ->
    fst (withdraw r amt desc w) = false
    /\ fst (transfer r amt rcp desc w) = false.
Proof.
  intros u log amt rcp desc w r Hlog Hbig. split; apply not_true_is_false; intro E.
  - destruct (withdraw_true _ _ _ _ E) as (u' & _ & _ & _ & Hrl & _).
    unfold r in Hrl. rewrite checkRateLimits_verdict in Hrl.
    apply verdict_true_inv in Hrl. destruct Hrl as (_ & _ & Hd).
    pose proof (dailyTotal_nonneg (chargedType lk_withdrawal) u log
                  (startOfDay w (clock w 1%nat)) Hlog). lia.
  - destruct (transfer_true _ _ _ _ _ E) as (u' & _ & _ & _ & _ & Hrl & _).
    unfold r in Hrl. rewrite checkRateLimits_verdict in Hrl.
    apply verdict_true_inv in Hrl. destruct Hrl as (_ & _ & Hd).
    pose proof (dailyTotal_nonneg (chargedType lk_transfer) u log
                  (startOfDay w (clock w 1%nat)) Hlog). lia.
Qed.

Lemma nothing_above_the_daily_cap_witness :
  let r := {| currentUser := Some alice; transactions := aliceHas20000 |} in
  let w := worldWith aliceHas20000 (tickingFrom twoHoursIn) in
  Forall (fun t => 0 <= amount t) aliceHas20000 /\
  fst (withdraw r 5001 None w) = false /\
  fst (transfer r 5001 "bob" None w) = false.
Proof.
  intros r w.
  assert (H : Forall (fun t => 0 <= amount t) aliceHas20000).
  { repeat constructor. simpl. lia. }
  split; [exact H|].
  apply (nothing_above_the_daily_cap alice aliceHas20000 5001 "bob" None w H).
  lia.
Defined.

Lemma filter_all {A} (p : A -> bool) (l : list A) :
  Forall (fun x => p x = true) l -> filter p l = l.
Proof.
  induction 1 as [|x l Hx _ IH]; simpl; [reflexivity|].
  rewrite Hx, IH. reflexivity.
Qed.

Lemma filter_length_bound {A} (p : A -> bool) (l : list A) :
  (List.length (filter p l) <= List.length l)%nat.
Proof.
  induction l as [|x l IH]; simpl; [lia|]. destruct (p x); simpl; lia.
Qed.

(** ** The auth provider *)

Lemma existsb_email_false (users : list Auth.User) (e : string) :
  existsb (fun u => String.eqb (Auth.email u) e) users = false ->
  ~ In e (map Auth.email users).
Proof.
  intros H Hin. apply in_map_iff in Hin. destruct Hin as (u & Eu & Hu).
  assert (Ht : existsb (fun u => String.eqb (Auth.email u) e) users = true).
  { apply existsb_exists. exists u. split; [exact Hu|].
    rewrite Eu. apply String.eqb_refl. }
  congruence.
Qed.

Lemma authPerform_users (c : AuthCall) (a : AuthWorld) :
  usersState (snd (authPerform c a)) = usersState a
  \/ exists n e p,
       c = Register n e p
       /\ ~ In e (map Auth.email (usersState a))
       /\ fst (authPerform c a) = true
       /\ usersState (snd (authPerform c a))
          = usersState a
            ++ [ {| Auth.id := authUuids a 0%nat; Auth.name := n;
                    Auth.email := e; Auth.password := p;
                    Auth.createdAt := authClock a 0%nat |} ]
       /\ currentUserState (snd (authPerform c a))
          = Some {| Auth.id := authUuids a 0%nat; Auth.name := n;
                    Auth.email := e; Auth.password := p;
                    Auth.createdAt := authClock a 0%nat |}.
Proof.
  destruct c as [e p | n e p | ]; simpl.
  - left. unfold login. destruct (find _ _); reflexivity.
  - unfold register.
    destruct (existsb _ (usersState a)) eqn:E; [left; reflexivity|].
    right. exists n, e, p. simpl.
    repeat split. apply existsb_email_false. exact E.
  - left. reflexivity.
Qed.

Lemma authRun_invariant (P : AuthWorld -> Prop) :
  (forall c a, P a -> P (snd (authPerform c a))) ->
  forall calls a, P a -> P (authRun calls a).
Proof.
  intros Hstep calls.
  induction calls as [|c rest IH]; intros a Ha; simpl; [exact Ha|].
  apply IH, Hstep, Ha.
Qed.

(** [X16] A registration issued from a render that holds every user
    committed so far keeps the registered e-mail addresses unique.  Hence
    they stay unique over any sequence of logins, registrations and logouts
    in which each call is issued from the current render, as [authRun]
    issues them.  (From an outdated render the same address can be
    registered twice: [outdated_render_registers_twice].) *)
Theorem emails_stay_unique :
  forall (a : AuthWorld),
    NoDup (map Auth.email (usersState a)) ->
    (forall (users : list Auth.User) (name email password : string),
       (forall u, In u (usersState a) -> In u users) ->
       NoDup (map Auth.email
                (usersState (snd (register users name email password a)))))
    /\ (forall calls : list AuthCall,
          NoDup (map Auth.email (usersState (authRun calls a)))).
Proof.
  intros a Ha. split.
  - intros users name email password Hseen. unfold register.
    destruct (existsb _ users) eqn:E; simpl; [exact Ha|].
    pose proof (existsb_email_false _ _ E) as Hfresh.
    rewrite map_app. simpl.
    apply NoDup_app; [exact Ha | repeat constructor; intros [] | ].
    intros x Hx [<-|[]]. apply Hfresh.
    apply in_map_iff in Hx. destruct Hx as (u & Eu & Hu).
    rewrite <- Eu. apply in_map. apply Hseen. exact Hu.
  - intro calls. revert Ha.
    apply (authRun_invariant
             (fun a => NoDup (map Auth.email (usersState a)))).
    intros c a' Ha'.
    destruct (authPerform_users c a')
      as [-> | (n & e & p & _ & Hfresh & _ & -> & _)]; [exact Ha'|].
    rewrite map_app. simpl.
    apply NoDup_app; [exact Ha' | repeat constructor; intros [] | ].
    intros x Hx [<-|[]]. exact (Hfresh Hx).
Qed.

Lemma emails_stay_unique_witness :
  let a1 := snd (register [] "Alice" "alice@example.org" "a-secret"
                   emptyAuth) in
  let calls := [ Register "Impostor" "alice@example.org" "other";
                 Register "Bob" "bob@example.org" "b-secret" ] in
  NoDup (map Auth.email (usersState a1)) /\
  (forall u, In u (usersState a1) -> In u (usersState a1)) /\
  NoDup (map Auth.email
           (usersState (snd (register (usersState a1) "Bob"
                               "bob@example.org" "b-secret" a1)))) /\
  map Auth.name (usersState (snd (register (usersState a1) "Bob"
                                    "bob@example.org" "b-secret" a1)))
  = ["Alice"; "Bob"] /\
  NoDup (map Auth.email (usersState (authRun calls a1))) /\
  map Auth.name (usersState (authRun calls a1)) = ["Alice"; "Bob"].
Proof.
  intros a1 calls.
  assert (H : NoDup (map Auth.email (usersState a1))).
  { vm_compute. repeat constructor. intros []. }
  destruct (emails_stay_unique a1 H) as [Hstep Hrun].
  split; [exact H|]. split; [intros u Hu; exact Hu|].
  split; [apply Hstep; intros u Hu; exact Hu|].
  split; [reflexivity|]. split; [exact (Hrun calls) | reflexivity].
Defined.

(** Two registrations of one address issued from the same render, which
    holds no user yet: both succeed, and the address is registered twice. *)
Remark outdated_render_registers_twice :
  let a1 := snd (register [] "Alice" "alice@example.org" "a-secret" emptyAuth) in
  let res := register [] "Impostor" "alice@example.org" "other" a1 in
  fst res = true /\
  map Auth.email (usersState (snd res))
  = ["alice@example.org"; "alice@example.org"].
Proof. vm_compute. split; reflexivity. Qed.

Lemma find_app_none {A} (p : A -> bool) (l1 l2 : list A) :
  find p l1 = None -> find p (l1 ++ l2) = find p l2.
Proof.
  induction l1 as [|x l IH]; simpl; [reflexivity|].
  destruct (p x); [discriminate | exact IH].
Qed.

Lemma find_app_some {A} (p : A -> bool) (l1 l2 : list A) (x : A) :
  find p l1 = Some x -> find p (l1 ++ l2) = Some x.
Proof.
  induction l1 as [|y l IH]; simpl; [discriminate|].
  destruct (p y); [intro H; exact H | exact IH].
Qed.

Lemma find_none_all {A} (p : A -> bool) (l : list A) :
  (forall x, In x l -> p x = false) -> find p l = None.
Proof.
  induction l as [|x l IH]; simpl; intro H; [reflexivity|].
  rewrite (H x (or_introl eq_refl)). apply IH.
  intros y Hy. apply H. right. exact Hy.
Qed.

(** [X17] Registering and then logging in: after a successful registration
    the new user is the current user, and a login with the same e-mail
    address and password succeeds and makes that very user (with the given
    name, address and password) the current user again. *)
Theorem register_then_login :
  forall (name email password : string) (a : AuthWorld),
    let a1 := snd (register (usersState a) name email password a) in
    fst (register (usersState a) name email password a) = true ->
    exists newUser : Auth.User,
      Auth.name newUser = name /\ Auth.email newUser = email
      /\ Auth.password newUser = password
      /\ usersState a1 = usersState a ++ [newUser]
      /\ currentUserState a1 = Some newUser
      /\ login (usersState a1) email password (logout a1)
         = (true, setCurrentUser (Some newUser) (logout a1)).
Proof.
  intros name email password a a1 Hok. subst a1.
  unfold register in *.
  destruct (existsb _ (usersState a)) eqn:E; [discriminate|]. simpl.
  exists {| Auth.id := authUuids a 0%nat; Auth.name := name;
            Auth.email := email; Auth.password := password;
            Auth.createdAt := authClock a 0%nat |}.
  do 5 (split; [reflexivity|]).
  unfold login. cbn [usersState logout setCurrentUser].
  rewrite find_app_none.
  - simpl. rewrite !String.eqb_refl. reflexivity.
  - apply find_none_all. intros u Hu.
    assert (Hne : String.eqb (Auth.email u) email = false).
    { destruct (String.eqb (Auth.email u) email) eqn:Ee; [|reflexivity].
      assert (existsb (fun u => String.eqb (Auth.email u) email) (usersState a)
              = true)
        by (apply existsb_exists; exists u; split; assumption).
      congruence. }
    rewrite Hne. reflexivity.
Qed.

Lemma register_then_login_witness :
  let a := emptyAuth in
  let a1 := snd (register (usersState a) "Alice" "alice@example.org" "a-secret" a) in
  fst (register (usersState a) "Alice" "alice@example.org" "a-secret" a) = true /\
  exists newUser : Auth.User,
    Auth.name newUser = "Alice" /\ Auth.email newUser = "alice@example.org"
    /\ Auth.password newUser = "a-secret"
    /\ usersState a1 = usersState a ++ [newUser]
    /\ currentUserState a1 = Some newUser
    /\ login (usersState a1) "alice@example.org" "a-secret" (logout a1)
       = (true, setCurrentUser (Some newUser) (logout a1)).
Proof.
  intros a a1.
  assert (Hok : fst (register (usersState a) "Alice" "alice@example.org"
                       "a-secret" a) = true) by reflexivity.
  split; [exact Hok|].
  exact (register_then_login "Alice" "alice@example.org" "a-secret" a Hok).
Defined.

Lemma find_first {A} (p : A -> bool) (l : list A) (x : A) :
  find p l = Some x ->
  exists before after,
    l = before ++ x :: after /\ p x = true
    /\ forall y, In y before -> p y = false.
Proof.
  induction l as [|y l IH]; simpl; [discriminate|].
  destruct (p y) eqn:Ey.
  - intro H. injection H as <-. exists [], l.
    split; [reflexivity|]. split; [exact Ey|]. intros z [].
  - intro H. destruct (IH H) as (before & after & -> & Hx & Hb).
    exists (y :: before), after. split; [reflexivity|]. split; [exact Hx|].
    intros z [<-|Hz]; [exact Ey | apply Hb; exact Hz].
Qed.

(** [X18] A login succeeds exactly when some user of the list has this
    e-mail address and this password.  On success the current user becomes
    the first such user of the list (no user before it in the list has both
    the address and the password) and nothing else changes; on failure
    nothing changes at all: whoever was logged in stays so. *)
Theorem login_checks_the_credentials :
  forall (users : list Auth.User) (email password : string) (a : AuthWorld),
    (fst (login users email password a) = true
     <-> exists u, In u users /\ Auth.email u = email
                   /\ Auth.password u = password)
    /\ (fst (login users email password a) = true ->
        exists (before after : list Auth.User) (u : Auth.User),
          users = before ++ u :: after
          /\ Auth.email u = email /\ Auth.password u = password
          /\ (forall v, In v before ->
                ~ (Auth.email v = email /\ Auth.password v = password))
          /\ snd (login users email password a) = setCurrentUser (Some u) a)
    /\ (fst (login users email password a) = false ->
        snd (login users email password a) = a).
Proof.
  intros users email password a. unfold login.
  destruct (find _ users) as [user|] eqn:E; simpl.
  - pose proof (find_first _ _ _ E) as (before & after & Hsplit & Hp & Hb).
    apply find_some in E. destruct E as [Hin _].
    apply andb_true_iff in Hp. destruct Hp as [He Hp].
    apply String.eqb_eq in He, Hp.
    split; [|split].
    + split; [intros _; exists user; auto | reflexivity].
    + intros _. exists before, after, user.
      split; [exact Hsplit|]. split; [exact He|]. split; [exact Hp|].
      split; [|reflexivity].
      intros v Hv [Hve Hvp]. specialize (Hb v Hv). simpl in Hb.
      rewrite Hve, Hvp, !String.eqb_refl in Hb. discriminate.
    + discriminate.
  - split; [|split].
    + split; [discriminate|]. intros (u & Hin & He & Hp).
      pose proof (find_none _ _ E u Hin) as Hf. simpl in Hf.
      rewrite He, Hp, !String.eqb_refl in Hf. discriminate.
    + discriminate.
    + reflexivity.
Qed.

Lemma login_checks_the_credentials_witness :
  let twin := {| Auth.id := "twin"; Auth.name := "Twin";
                 Auth.email := "alice@example.org";
                 Auth.password := "a-secret"; Auth.createdAt := 1 |} in
  let users := [bob; alice; twin] in
  let a := setCurrentUser (Some bob) emptyAuth in
  fst (login users "alice@example.org" "a-secret" a) = true /\
  (exists (before after : list Auth.User) (u : Auth.User),
     users = before ++ u :: after
     /\ Auth.email u = "alice@example.org" /\ Auth.password u = "a-secret"
     /\ (forall v, In v before ->
           ~ (Auth.email v = "alice@example.org"
              /\ Auth.password v = "a-secret"))
     /\ snd (login users "alice@example.org" "a-secret" a)
        = setCurrentUser (Some u) a) /\
  snd (login users "alice@example.org" "a-secret" a)
  = setCurrentUser (Some alice) a /\
  fst (login users "alice@example.org" "guess" a) = false /\
  snd (login users "alice@example.org" "guess" a) = a.
Proof.
  intros twin users a.
  destruct (login_checks_the_credentials users "alice@example.org"
              "a-secret" a) as (_ & Hyes & _).
  destruct (login_checks_the_credentials users "alice@example.org"
              "guess" a) as (_ & _ & Hno).
  split; [reflexivity|]. split; [exact (Hyes eq_refl)|].
  split; [reflexivity|]. split; [reflexivity | exact (Hno eq_refl)].
Defined.

(** [X19] A registration succeeds exactly when no user of the list has the
    e-mail address yet, whatever the name and the password (an empty
    password included).  A refused registration changes nothing; it does not
    log the visitor in or out. *)
Theorem register_refuses_known_email :
  forall (users : list Auth.User) (name email password : string)
         (a : AuthWorld),
    (fst (register users name email password a) = true
     <-> ~ In email (map Auth.email users))
    /\ (fst (register users name email password a) = false ->
        snd (register users name email password a) = a).
Proof.
  intros users name email password a. unfold register.
  destruct (existsb _ users) eqn:E; simpl.
  - split; [|reflexivity]. split; [discriminate|].
    intro Hnot. exfalso. apply Hnot.
    apply existsb_exists in E. destruct E as (u & Hu & He).
    apply String.eqb_eq in He. rewrite <- He. apply in_map. exact Hu.
  - split; [|discriminate]. split; [|reflexivity].
    intros _. apply existsb_email_false. exact E.
Qed.

Lemma register_refuses_known_email_witness :
  let a := setCurrentUser (Some bob) emptyAuth in
  fst (register [alice; bob] "Eve" "alice@example.org" "" a) = false /\
  snd (register [alice; bob] "Eve" "alice@example.org" "" a) = a.
Proof.
  intro a.
  destruct (register_refuses_known_email [alice; bob] "Eve"
              "alice@example.org" "" a) as [_ Hno].
  split; [reflexivity | exact (Hno eq_refl)].
Defined.

(** [X20] Over any session of logins, registrations and logouts the list of
    users only grows at its end (no user is ever removed or altered), and
    the current user, when there is one, is a registered user, provided this
    was so at the start. *)
Theorem users_only_grow :
  forall (calls : list AuthCall) (a : AuthWorld),
    (forall u, currentUserState a = Some u -> In u (usersState a)) ->
    (exists added, usersState (authRun calls a) = usersState a ++ added)
    /\ (forall u, currentUserState (authRun calls a) = Some u ->
                  In u (usersState (authRun calls a))).
Proof.
  intros calls a Hcur.
  apply (authRun_invariant
           (fun a' => (exists added, usersState a' = usersState a ++ added)
                      /\ (forall u, currentUserState a' = Some u ->
                                    In u (usersState a')))).
  - intros c a' [[added Hadd] Hin]. split.
    + destruct (authPerform_users c a')
        as [-> | (n & e & p & _ & _ & _ & -> & _)].
      * exists added. exact Hadd.
      * eexists. rewrite Hadd, <- app_assoc. reflexivity.
    + destruct c as [e p | n e p | ]; simpl.
      * unfold login. destruct (find _ (usersState a')) as [user|] eqn:E;
          simpl; [|exact Hin].
        intros u Hu. injection Hu as <-. apply (find_some _ _ E).
      * unfold register. destruct (existsb _ (usersState a')); simpl;
          [exact Hin|].
        intros u Hu. injection Hu as <-. apply in_or_app. right. left.
        reflexivity.
      * discriminate.
  - split; [exists []; rewrite app_nil_r; reflexivity | exact Hcur].
Qed.

Lemma users_only_grow_witness :
  let calls := [ Register "Alice" "alice@example.org" "a-secret"; Logout;
                 Login "alice@example.org" "a-secret" ] in
  (forall u, currentUserState emptyAuth = Some u -> In u (usersState emptyAuth)) /\
  (exists added, usersState (authRun calls emptyAuth)
                 = usersState emptyAuth ++ added) /\
  (forall u, currentUserState (authRun calls emptyAuth) = Some u ->
             In u (usersState (authRun calls emptyAuth))).
Proof.
  intro calls.
  assert (H : forall u, currentUserState emptyAuth = Some u ->
                        In u (usersState emptyAuth)) by discriminate.
  split; [exact H|]. exact (users_only_grow calls emptyAuth H).
Defined.

(** [X21] Looking a user up by id.  [getUserById] returns a user of the list
    with that id, the first one, or nothing when no user has it; and after a
    successful registration whose fresh id no earlier user has, the id
    resolves to the new user, while every other id resolves as before. *)
Theorem getUserById_finds_registered_users :
  forall (users : list Auth.User) (i : string),
    (forall u, Auth.getUserById users i = Some u ->
               In u users /\ Auth.id u = i)
    /\ (Auth.getUserById users i = None <-> ~ In i (map Auth.id users))
    /\ (forall (newUser : Auth.User),
          ~ In (Auth.id newUser) (map Auth.id users) ->
          Auth.getUserById (users ++ [newUser]) (Auth.id newUser) = Some newUser
          /\ (i <> Auth.id newUser ->
              Auth.getUserById (users ++ [newUser]) i
              = Auth.getUserById users i)).
Proof.
  intros users i. unfold Auth.getUserById. split; [|split].
  - intros u Hu. apply find_some in Hu. destruct Hu as [Hin He].
    apply String.eqb_eq in He. auto.
  - split.
    + intros Hnone Hin. apply in_map_iff in Hin. destruct Hin as (u & Eu & Hu).
      pose proof (find_none _ _ Hnone u Hu) as Hf. simpl in Hf.
      rewrite Eu, String.eqb_refl in Hf. discriminate.
    + intro Hnot. apply find_none_all. intros u Hu.
      destruct (String.eqb_spec (Auth.id u) i) as [E|E]; [|reflexivity].
      exfalso. apply Hnot. rewrite <- E. apply in_map. exact Hu.
  - intros newUser Hfresh. split.
    + rewrite find_app_none; [simpl; rewrite String.eqb_refl; reflexivity|].
      apply find_none_all. intros u Hu.
      destruct (String.eqb_spec (Auth.id u) (Auth.id newUser)) as [E|E];
        [|reflexivity].
      exfalso. apply Hfresh. rewrite <- E. apply in_map. exact Hu.
    + intro Hne.
      destruct (find (fun u => String.eqb (Auth.id u) i) users) as [u|] eqn:E.
      * apply (find_app_some _ _ _ _ E).
      * rewrite (find_app_none _ _ _ E). simpl.
        destruct (String.eqb_spec (Auth.id newUser) i) as [E'|E'];
          [exfalso; apply Hne; symmetry; exact E' | reflexivity].
Qed.

Lemma getUserById_finds_registered_users_witness :
  Auth.getUserById [alice] "bob" = None /\
  ~ In (Auth.id bob) (map Auth.id [alice]) /\
  Auth.getUserById ([alice] ++ [bob]) (Auth.id bob) = Some bob /\
  Auth.getUserById ([alice] ++ [bob]) "alice" = Auth.getUserById [alice] "alice".
Proof.
  assert (Hfresh : ~ In (Auth.id bob) (map Auth.id [alice])).
  { simpl. intros [H|[]]. discriminate. }
  destruct (getUserById_finds_registered_users [alice] "alice")
    as (_ & _ & Hreg).
  destruct (Hreg bob Hfresh) as [Hnew Hold].
  split; [reflexivity|]. split; [exact Hfresh|]. split; [exact Hnew|].
  apply Hold. discriminate.
Defined.

(** ** Searching: [includes] is the substring test *)

Lemma prefix_spec (a b : string) :
  String.prefix a b = true <-> exists post, b = String.append a post.
Proof.
  revert b. induction a as [|c a IH]; intro b; simpl.
  - split; [intros _; exists b; reflexivity | destruct b; reflexivity].
  - destruct b as [|d b]; simpl.
    + split; [discriminate | intros [post H]; discriminate].
    + destruct (Ascii.ascii_dec c d) as [<-|Hne].
      * rewrite IH. split; intros [post H]; exists post.
        -- rewrite H. reflexivity.
        -- injection H as H. exact H.
      * split; [discriminate|]. intros [post H]. injection H as H1 H2.
        exfalso. apply Hne. symmetry. exact H1.
Qed.

Lemma includes_spec (s sub : string) :
  includes s sub = true
  <-> exists pre post, s = String.append pre (String.append sub post).
Proof.
  induction s as [|c s IH]; cbn [includes].
  - rewrite orb_false_r, prefix_spec. split.
    + intros [post H]. exists "", post. exact H.
    + intros (pre & post & H). destruct pre as [|p pre]; [|discriminate].
      exists post. exact H.
  - rewrite orb_true_iff, prefix_spec, IH. split.
    + intros [[post H] | (pre & post & H)].
      * exists "", post. exact H.
      * exists (String c pre), post. simpl. rewrite H. reflexivity.
    + intros (pre & post & H). destruct pre as [|p pre]; simpl in H.
      * left. exists post. exact H.
      * right. injection H as _ H. exists pre, post. exact H.
Qed.

(** ** The transfer page *)

(** [X22] The recipients the transfer page offers.  A search term whose
    [length] is below two offers nobody.  Everyone offered is a registered
    user whose id resolves through [getUserById], is not the current user,
    and whose lower-cased name or e-mail address contains the lower-cased
    term.  Hence a transfer to an offered recipient is never refused as a
    self-transfer: when the amount passes the tests [amount <= 0] and
    [amount > balance] and the rate limiter consents, it succeeds, in any
    arithmetic of amounts. *)
Theorem offered_recipients_are_valid :
  forall (toLowerCase : string -> string) (lengthOf : string -> nat)
         (users : list Auth.User) (c : Auth.User) (term : string),
    ((lengthOf term < 2)%nat ->
     recipientsOffered toLowerCase lengthOf users (Some c) term = [])
    /\ (forall x : Auth.User,
          In x (recipientsOffered toLowerCase lengthOf users (Some c) term) ->
          In x users
          /\ (2 <= lengthOf term)%nat
          /\ Auth.getUserById users (Auth.id x) <> None
          /\ Auth.id x <> Auth.id c
          /\ (exists pre post,
                toLowerCase (Auth.name x)
                = String.append pre (String.append (toLowerCase term) post)
                \/ toLowerCase (Auth.email x)
                   = String.append pre (String.append (toLowerCase term) post))
          /\ (forall (A : Ledger.Arith) (log : list (Ledger.Transaction A))
                     (amt : Ledger.num A) (desc : option string)
                     (w : Ledger.World A),
                Ledger.leb A amt (Ledger.literal A 0) = false ->
                Ledger.gtb A amt
                  (Ledger.balance {| Ledger.currentUser := Some c;
                                     Ledger.transactions := log |}) = false ->
                fst (Ledger.checkRateLimits
                       {| Ledger.currentUser := Some c;
                          Ledger.transactions := log |}
                       amt lk_transfer w) = true ->
                fst (Ledger.transfer
                       {| Ledger.currentUser := Some c;
                          Ledger.transactions := log |}
                       amt (Auth.id x) desc w) = true)).
Proof.
  intros toLowerCase lengthOf users c term. unfold recipientsOffered. split.
  - intro Hshort. destruct (Nat.leb_spec 2 (lengthOf term)); [lia|].
    reflexivity.
  - intros x Hx.
    destruct (Nat.leb_spec 2 (lengthOf term)) as [Hlen|]; [|contradiction].
    apply filter_In in Hx. destruct Hx as [Hx Hother].
    apply negb_true_iff in Hother.
    unfold getUsersByPartialName in Hx.
    destruct (isEmpty term); [contradiction|].
    apply filter_In in Hx. destruct Hx as [Hin Hmatch].
    assert (Hne : Auth.id x <> Auth.id c).
    { intro E. rewrite E, String.eqb_refl in Hother. discriminate. }
    split; [exact Hin|]. split; [exact Hlen|].
    split; [|split; [exact Hne|split]].
    + apply getUserById_registered. exact Hin.
    + apply orb_true_iff in Hmatch.
      destruct Hmatch as [H|H]; apply includes_spec in H;
        destruct H as (pre & post & H); exists pre, post; auto.
    + intros A log amt desc w Hpos Hbal Hrl.
      unfold Ledger.transfer. cbn [Ledger.currentUser].
      rewrite Hpos, Hbal, String.eqb_sym, Hother. cbn [orb].
      unfold Ledger.bind.
      destruct (Ledger.checkRateLimits _ amt lk_transfer w) as [ok w1].
      simpl in Hrl. subst ok. reflexivity.
Qed.

Lemma offered_recipients_are_valid_witness :
  let w1 := snd (Ledger.deposit (Ledger.render (Some alice) doubleWorld)
                   (whole 100) None doubleWorld) in
  recipientsOffered lowerLetters String.length [alice; bob] (Some alice) "B"
  = [] /\
  recipientsOffered lowerLetters String.length [alice; bob] (Some alice)
    "EXAMPLE" = [bob] /\
  Auth.getUserById [alice; bob] (Auth.id bob) <> None /\
  Auth.id bob <> Auth.id alice /\
  fst (Ledger.transfer (Ledger.render (Some alice) w1) (whole 50)
         (Auth.id bob) None w1) = true.
Proof.
  intro w1.
  destruct (offered_recipients_are_valid lowerLetters String.length
              [alice; bob] alice "B") as [Hshort _].
  destruct (offered_recipients_are_valid lowerLetters String.length
              [alice; bob] alice "EXAMPLE") as [_ Hin].
  assert (Hbob : In bob (recipientsOffered lowerLetters String.length
                           [alice; bob] (Some alice) "EXAMPLE"))
    by (vm_compute; left; reflexivity).
  destruct (Hin bob Hbob) as (_ & _ & Hres & Hne & _ & Htr).
  split; [apply Hshort; simpl; lia|]. split; [vm_compute; reflexivity|].
  split; [exact Hres|]. split; [exact Hne|].
  apply (Htr doubleArith (Ledger.store w1) (whole 50) None w1);
    vm_compute; reflexivity.
Defined.

(** ** The history page *)

Lemma typeEqb_eq (a b : TransactionType) : typeEqb a b = true <-> a = b.
Proof. destruct a, b; simpl; split; intro H; congruence. Qed.

Lemma existsb_typeEqb (k : TransactionType) (l : list TransactionType) :
  existsb (typeEqb k) l = true <-> In k l.
Proof.
  rewrite existsb_exists. split.
  - intros (x & Hx & E). apply typeEqb_eq in E. subst. exact Hx.
  - intro H. exists k. split; [exact H | apply typeEqb_eq; reflexivity].
Qed.

(** [X23] Toggling a type in the filter flips whether that type is selected
    and nothing else: every other type is selected after the toggle exactly
    when it was before, a selection without repetitions stays without
    repetitions, and switching a type on and off again restores the
    selection. *)
Theorem toggle_flips_one_type :
  forall (prev : list TransactionType) (k : TransactionType),
    (In k (toggleTransactionType prev k) <-> ~ In k prev)
    /\ (forall k', k' <> k ->
          (In k' (toggleTransactionType prev k) <-> In k' prev))
    /\ (NoDup prev -> NoDup (toggleTransactionType prev k))
    /\ (~ In k prev ->
        toggleTransactionType (toggleTransactionType prev k) k = prev).
Proof.
  intros prev k. unfold toggleTransactionType.
  destruct (existsb (typeEqb k) prev) eqn:E.
  - apply existsb_typeEqb in E. split; [|split; [|split]].
    + split; [|contradiction]. intro H. apply filter_In in H.
      destruct H as [_ H]. apply negb_true_iff in H.
      assert (typeEqb k k = true) by (apply typeEqb_eq; reflexivity).
      congruence.
    + intros k' Hne. rewrite filter_In. split; [intros [H _]; exact H|].
      intro H. split; [exact H|]. apply negb_true_iff.
      destruct (typeEqb k' k) eqn:E'; [|reflexivity].
      apply typeEqb_eq in E'. contradiction.
    + intro Hnd. apply NoDup_filter. exact Hnd.
    + contradiction.
  - assert (Hnot : ~ In k prev).
    { intro H. apply existsb_typeEqb in H. congruence. }
    split; [|split; [|split]].
    + split; [intros _; exact Hnot|]. intros _. apply in_or_app. right. left.
      reflexivity.
    + intros k' Hne. rewrite in_app_iff. simpl. split; [|auto].
      intros [H|[H|[]]]; [exact H | exfalso; apply Hne; symmetry; exact H].
    + intro Hnd. apply NoDup_app; [exact Hnd | repeat constructor; intros [] |].
      intros x Hx [<-|[]]. exact (Hnot Hx).
    + intros _.
      assert (Hin : existsb (typeEqb k) (prev ++ [k]) = true).
      { apply existsb_typeEqb, in_or_app. right. left. reflexivity. }
      rewrite Hin, filter_app. simpl.
      assert (Hkk : typeEqb k k = true) by (apply typeEqb_eq; reflexivity).
      rewrite Hkk. simpl. rewrite app_nil_r.
      apply filter_all. rewrite Forall_forall. intros x Hx.
      apply negb_true_iff. destruct (typeEqb x k) eqn:E'; [|reflexivity].
      apply typeEqb_eq in E'. subst. contradiction.
Qed.

Lemma toggle_flips_one_type_witness :
  NoDup [ty_deposit; ty_transfer_in] /\
  NoDup (toggleTransactionType [ty_deposit; ty_transfer_in] ty_withdrawal) /\
  ~ In ty_withdrawal [ty_deposit; ty_transfer_in] /\
  toggleTransactionType
    (toggleTransactionType [ty_deposit; ty_transfer_in] ty_withdrawal)
    ty_withdrawal
  = [ty_deposit; ty_transfer_in].
Proof.
  assert (Hnd : NoDup [ty_deposit; ty_transfer_in]).
  { constructor; [intros [H|[]]; discriminate|].
    constructor; [intros []|constructor]. }
  assert (Hnot : ~ In ty_withdrawal [ty_deposit; ty_transfer_in]).
  { intros [H|[H|[]]]; discriminate. }
  destruct (toggle_flips_one_type [ty_deposit; ty_transfer_in] ty_withdrawal)
    as (_ & _ & Hkeep & Hback).
  split; [exact Hnd|]. split; [exact (Hkeep Hnd)|].
  split; [exact Hnot | exact (Hback Hnot)].
Defined.

Lemma StronglySorted_filter_keeps {A} (R : A -> A -> Prop) (p : A -> bool)
    (l : list A) :
  StronglySorted R l -> StronglySorted R (filter p l).
Proof.
  induction 1 as [|x l Hl IH Hx]; simpl; [constructor|].
  destruct (p x); [|exact IH].
  constructor; [exact IH|].
  apply incl_Forall with (l1 := l); [apply incl_filter | exact Hx].
Qed.

Lemma passesFilters_noFilters (toLowerCase : string -> string)
    (endOfDay : Z -> Z) (users : list Auth.User) (t : Transaction) :
  passesFilters toLowerCase endOfDay users noFilters t = true.
Proof. reflexivity. Qed.

(** [X24] The filters of the history page only narrow the history.  With no
    type selected, no date and no search term the page shows the whole
    history.  Whatever the filters, the page shows entries of the history
    only, all owned by the current user, still most recent first; when
    types are selected every entry shown has a selected type, and every
    entry shown lies within the date range: not before [from], not after
    the end of the day of [to]. *)
Theorem filters_only_narrow :
  forall (toLowerCase : string -> string) (endOfDay : Z -> Z)
         (users : list Auth.User) (f : Filters) (u : Auth.User)
         (log : list Transaction),
    let r := {| currentUser := Some u; transactions := log |} in
    filteredTransactions toLowerCase endOfDay users noFilters r
    = getTransactionHistory r
    /\ StronglySorted noOlderThan
         (filteredTransactions toLowerCase endOfDay users f r)
    /\ (forall t : Transaction,
          In t (filteredTransactions toLowerCase endOfDay users f r) ->
          In t log /\ userId t = Auth.id u
          /\ (selectedTypes f <> [] -> In (type t) (selectedTypes f))
          /\ (forall from, dateFrom f = Some from -> from <= timestamp t)
          /\ (forall to, dateTo f = Some to -> timestamp t <= endOfDay to)).
Proof.
  intros toLowerCase endOfDay users f u log r.
  unfold filteredTransactions. split; [|split].
  - apply filter_all. rewrite Forall_forall. intros t _. reflexivity.
  - apply StronglySorted_filter_keeps. unfold r, getTransactionHistory; simpl.
    apply sortByTimestampDesc_sorted.
  - intros t Ht. apply filter_In in Ht. destruct Ht as [Hh Hp].
    unfold r, getTransactionHistory in Hh; simpl in Hh.
    apply (Permutation_in _ (sortByTimestampDesc_perm _)) in Hh.
    apply filter_In in Hh. destruct Hh as [Hlog Hown].
    apply String.eqb_eq in Hown.
    split; [exact Hlog|]. split; [exact Hown|].
    unfold passesFilters in Hp.
    destruct ((0 <? List.length (selectedTypes f))%nat
              && negb (existsb (typeEqb (type t)) (selectedTypes f))) eqn:Ety;
      [discriminate|].
    destruct (dateFrom f) as [from|] eqn:Efrom.
    + destruct (Z.ltb_spec (timestamp t) from) as [|Hfrom]; [discriminate|].
      destruct (dateTo f) as [to|] eqn:Eto.
      * destruct (Z.gtb_spec (timestamp t) (endOfDay to)) as [|Hto];
          [discriminate|].
        split; [|split].
        -- intro Hsel. apply existsb_typeEqb.
           destruct (selectedTypes f); [contradiction|]. simpl in Ety.
           apply negb_false_iff in Ety. exact Ety.
        -- intros from' E. injection E as <-. exact Hfrom.
        -- intros to' E. injection E as <-. exact Hto.
      * split; [|split].
        -- intro Hsel. apply existsb_typeEqb.
           destruct (selectedTypes f); [contradiction|]. simpl in Ety.
           apply negb_false_iff in Ety. exact Ety.
        -- intros from' E. injection E as <-. exact Hfrom.
        -- discriminate.
    + destruct (dateTo f) as [to|] eqn:Eto.
      * destruct (Z.gtb_spec (timestamp t) (endOfDay to)) as [|Hto];
          [discriminate|].
        split; [|split].
        -- intro Hsel. apply existsb_typeEqb.
           destruct (selectedTypes f); [contradiction|]. simpl in Ety.
           apply negb_false_iff in Ety. exact Ety.
        -- discriminate.
        -- intros to' E. injection E as <-. exact Hto.
      * split; [|split].
        -- intro Hsel. apply existsb_typeEqb.
           destruct (selectedTypes f); [contradiction|]. simpl in Ety.
           apply negb_false_iff in Ety. exact Ety.
        -- discriminate.
        -- discriminate.
Qed.

Lemma filters_only_narrow_witness :
  let f := {| searchTerm := ""; selectedTypes := [ty_withdrawal];
              dateFrom := Some twoHoursIn; dateTo := None |} in
  let r := {| currentUser := Some alice;
              transactions := store (run scenario freshWorld) |} in
  let shown := filteredTransactions lowerLetters (fun d => d + 86399999)
                 [alice; bob] f r in
  map (fun t => (type t, amount t)) shown = [(ty_withdrawal, 30)] /\
  (forall t, In t shown ->
     In (type t) (selectedTypes f) /\ twoHoursIn <= timestamp t).
Proof.
  intros f r shown. split; [vm_compute; reflexivity|].
  intros t Ht.
  destruct (filters_only_narrow lowerLetters (fun d => d + 86399999)
              [alice; bob] f alice (store (run scenario freshWorld)))
    as (_ & _ & Hshown).
  destruct (Hshown t Ht) as (_ & _ & Hty & Hfrom & _).
  split; [apply Hty; discriminate | apply Hfrom; reflexivity].
Defined.

(** ** The registration and login pages *)

(** [X25] The handler [onSubmit] of the registration page, run on data in
    which the two passwords agree (the form runs it only after its
    validation, which includes that comparison), from a render holding the
    list [users].  It navigates to the dashboard exactly when no user of
    that list has the e-mail address, and then the new user, with the name,
    address and password of the form, is appended to the users and becomes
    the current user.  Otherwise it shows "Email is already in use" and
    changes nothing.  It never shows "Passwords do not match". *)
Theorem register_handler_outcomes :
  forall (users : list Auth.User) (data : RegisterPage.RegisterFormInputs)
         (a : AuthWorld),
    let res := RegisterPage.onSubmit users data a in
    RegisterPage.password data = RegisterPage.confirmPassword data ->
    (fst res = navigate "/dashboard"
     <-> ~ In (RegisterPage.email data) (map Auth.email users))
    /\ (fst res = navigate "/dashboard" ->
        exists newUser,
          usersState (snd res) = usersState a ++ [newUser]
          /\ currentUserState (snd res) = Some newUser
          /\ Auth.name newUser = RegisterPage.name data
          /\ Auth.email newUser = RegisterPage.email data
          /\ Auth.password newUser = RegisterPage.password data)
    /\ (fst res <> navigate "/dashboard" ->
        fst res = setError "Email is already in use" /\ snd res = a)
    /\ fst res <> setError "Passwords do not match".
Proof.
  intros users data a res Epw. subst res. unfold RegisterPage.onSubmit.
  rewrite Epw, String.eqb_refl. simpl. unfold register.
  destruct (existsb _ users) eqn:E; simpl.
  - assert (Hin : In (RegisterPage.email data) (map Auth.email users)).
    { apply existsb_exists in E. destruct E as (u & Hu & He).
      apply String.eqb_eq in He. rewrite <- He. apply in_map. exact Hu. }
    split; [|split; [|split]].
    + split; [discriminate | intro Hn; contradiction].
    + discriminate.
    + intros _. split; reflexivity.
    + discriminate.
  - pose proof (existsb_email_false _ _ E) as Hfresh.
    split; [|split; [|split]].
    + split; [intros _; exact Hfresh | reflexivity].
    + intros _. eexists. repeat split.
    + intro H. exfalso. apply H. reflexivity.
    + discriminate.
Qed.

Lemma register_handler_outcomes_witness :
  let a := snd (register [] "Alice" "alice@example.org" "a-secret" emptyAuth) in
  let eve := {| RegisterPage.name := "Eve Adams";
                RegisterPage.email := "alice@example.org";
                RegisterPage.password := "secret1";
                RegisterPage.confirmPassword := "secret1" |} in
  let dan := {| RegisterPage.name := "Dan Brown";
                RegisterPage.email := "dan@example.org";
                RegisterPage.password := "secret2";
                RegisterPage.confirmPassword := "secret2" |} in
  RegisterPage.password eve = RegisterPage.confirmPassword eve /\
  fst (RegisterPage.onSubmit (usersState a) eve a)
    = setError "Email is already in use" /\
  snd (RegisterPage.onSubmit (usersState a) eve a) = a /\
  fst (RegisterPage.onSubmit (usersState a) dan a) = navigate "/dashboard" /\
  map Auth.name (usersState (snd (RegisterPage.onSubmit (usersState a) dan a)))
  = ["Alice"; "Dan Brown"].
Proof.
  intros a eve dan.
  destruct (register_handler_outcomes (usersState a) eve a eq_refl)
    as (_ & _ & Hsame & _).
  assert (Hno : fst (RegisterPage.onSubmit (usersState a) eve a)
                <> navigate "/dashboard") by discriminate.
  destruct (Hsame Hno) as [Hmsg Hst].
  split; [reflexivity|]. split; [exact Hmsg|]. split; [exact Hst|].
  split; reflexivity.
Defined.

(** ** The money handlers of the pages *)

(** [X26] The withdrawal handler of the dashboard, for a logged-in user.
    It answers "Insufficient funds" exactly when the amount is positive and
    above the balance, and then the provider is not even called: the world
    is untouched.  It answers "Withdrawal failed. Please check your limits
    and try again." exactly when the amount is positive, within the balance
    and the rate limiter denies it.  Whenever it answers with an error the
    log is unchanged; when it reports success the log has grown by one
    withdrawal of that amount owned by the user. *)
Theorem handleWithdraw_messages :
  forall (u : Auth.User) (log : list Transaction) (parsed : option Z)
         (w : World),
    let r := {| currentUser := Some u; transactions := log |} in
    let res := handleWithdraw r parsed w in
    (fst res = toastError "Insufficient funds"
     <-> exists amt, parsed = Some amt /\ 0 < amt /\ balance r < amt)
    /\ (fst res = toastError "Insufficient funds" -> snd res = w)
    /\ (fst res
        = toastError "Withdrawal failed. Please check your limits and try again."
        <-> exists amt, parsed = Some amt /\ 0 < amt /\ amt <= balance r
                        /\ fst (checkRateLimits r amt lk_withdrawal w) = false)
    /\ (forall message, fst res = toastError message -> store (snd res) = store w)
    /\ (forall amt, fst res = toastWithdrew amt ->
          parsed = Some amt
          /\ exists tx, store (snd res) = store w ++ [tx]
                        /\ userId tx = Auth.id u /\ type tx = ty_withdrawal
                        /\ amount tx = amt).
Proof.
  intros u log parsed w r res. subst res. unfold handleWithdraw.
  destruct parsed as [amt|]; simpl.
  2:{ split; [|split; [|split; [|split]]].
      - split; [discriminate | intros (a & H & _); discriminate].
      - discriminate.
      - split; [discriminate | intros (a & H & _); discriminate].
      - reflexivity.
      - discriminate. }
  destruct (Z.leb_spec amt 0) as [Hle|Hpos]; simpl.
  { split; [|split; [|split; [|split]]].
    - split; [discriminate | intros (a & H & Ha & _); injection H as <-; lia].
    - discriminate.
    - split; [discriminate | intros (a & H & Ha & _); injection H as <-; lia].
    - reflexivity.
    - discriminate. }
  destruct (Z.gtb_spec amt (balance r)) as [Hgt|Hbal]; simpl.
  { split; [|split; [|split; [|split]]].
    - split; [intros _; exists amt; auto | reflexivity].
    - reflexivity.
    - split; [discriminate|].
      intros (a & H & _ & Ha & _); injection H as <-; lia.
    - reflexivity.
    - discriminate. }
  unfold bind.
  pose proof (withdraw_true r amt (Some "Manual withdrawal") w) as Ht.
  pose proof (withdraw_false r amt (Some "Manual withdrawal") w) as Hf.
  destruct (withdraw r amt (Some "Manual withdrawal") w) as [ok w1].
  simpl in *. destruct ok; simpl.
  - destruct (Ht eq_refl) as (u' & Hu' & _ & _ & Hrl & Hst).
    injection Hu' as <-.
    split; [|split; [|split; [|split]]].
    + split; [discriminate|].
      intros (a & H & _ & Ha); injection H as <-; lia.
    + discriminate.
    + split; [discriminate|].
      intros (a & H & _ & _ & Hd); injection H as <-. congruence.
    + discriminate.
    + intros a H. injection H as <-. split; [reflexivity|].
      eexists. split; [exact Hst|]. repeat split.
  - destruct (Hf eq_refl) as [[Hn|[Hle|[Hlt|Hd]]] Hst];
      [discriminate Hn | lia | lia |].
    split; [|split; [|split; [|split]]].
    + split; [discriminate|].
      intros (a & H & _ & Ha); injection H as <-; lia.
    + discriminate.
    + split; [intros _; exists amt; auto | reflexivity].
    + intros _ _. exact Hst.
    + discriminate.
Qed.

Lemma handleWithdraw_messages_witness :
  let r := {| currentUser := Some alice; transactions := aliceHas20000 |} in
  let w := worldWith aliceHas20000 (tickingFrom twoHoursIn) in
  fst (handleWithdraw r (Some 6000) w)
    = toastError "Withdrawal failed. Please check your limits and try again." /\
  fst (checkRateLimits r 6000 lk_withdrawal w) = false /\
  fst (handleWithdraw r (Some 30000) w) = toastError "Insufficient funds" /\
  snd (handleWithdraw r (Some 30000) w) = w /\
  fst (handleWithdraw r (Some 100) w) = toastWithdrew 100 /\
  List.length (store (snd (handleWithdraw r (Some 100) w))) = 2%nat.
Proof.
  intros r w.
  destruct (handleWithdraw_messages alice aliceHas20000 (Some 6000) w)
    as (_ & _ & [Hlim _] & _).
  destruct (handleWithdraw_messages alice aliceHas20000 (Some 30000) w)
    as (_ & Hsame & _).
  destruct (handleWithdraw_messages alice aliceHas20000 (Some 100) w)
    as (_ & _ & _ & _ & Hdone).
  assert (E1 : fst (handleWithdraw r (Some 6000) w)
               = toastError
                   "Withdrawal failed. Please check your limits and try again.")
    by (vm_compute; reflexivity).
  assert (E2 : fst (handleWithdraw r (Some 30000) w)
               = toastError "Insufficient funds")
    by (vm_compute; reflexivity).
  assert (E3 : fst (handleWithdraw r (Some 100) w) = toastWithdrew 100)
    by (vm_compute; reflexivity).
  split; [exact E1|]. split.
  { destruct (Hlim E1) as (a & Ha & _ & _ & Hd). injection Ha as <-. exact Hd. }
  split; [exact E2|]. split; [exact (Hsame E2)|]. split; [exact E3|].
  destruct (Hdone 100 E3) as (_ & tx & Hst & _).
  unfold r. rewrite Hst. reflexivity.
Defined.

(** [X27] The transfer handler of the transfer page, for a logged-in user
    and a selected recipient other than that user (as every offered
    recipient is).  It answers "Transfer failed. Please check your limits
    and try again." exactly when the amount is positive, within the balance
    and the rate limiter denies it; without a selected recipient, with an
    unreadable or non-positive amount, or with an amount above the balance
    it answers with its own message and does not call the provider.  After
    an error the log is unchanged; after a success it has grown by the
    transfer pair for that recipient. *)
Theorem handleTransfer_messages :
  forall (u recipient : Auth.User) (log : list Transaction)
         (parsed : option Z) (desc : string) (w : World),
    let r := {| currentUser := Some u; transactions := log |} in
    let res := handleTransfer r (Some recipient) parsed desc w in
    Auth.id recipient <> Auth.id u ->
    (fst res
     = toastError "Transfer failed. Please check your limits and try again."
     <-> exists amt, parsed = Some amt /\ 0 < amt /\ amt <= balance r
                     /\ fst (checkRateLimits r amt lk_transfer w) = false)
    /\ (fst res = toastError "Insufficient funds"
        <-> exists amt, parsed = Some amt /\ 0 < amt /\ balance r < amt)
    /\ (fst res = toastError "Insufficient funds"
        \/ fst res = toastError "Please enter a valid amount" -> snd res = w)
    /\ handleTransfer r None parsed desc w
       = (toastError "Please select a recipient", w)
    /\ (forall message, fst res = toastError message -> store (snd res) = store w)
    /\ (forall amt nm, fst res = toastTransferred amt nm ->
          parsed = Some amt /\ nm = Auth.name recipient
          /\ exists out inc,
               store (snd res) = store w ++ [out; inc]
               /\ userId out = Auth.id u /\ type out = ty_transfer_out
               /\ userId inc = Auth.id recipient /\ type inc = ty_transfer_in
               /\ amount out = amt /\ amount inc = amt).
Proof.
  intros u recipient log parsed desc w r res Hother. subst res.
  unfold handleTransfer.
  destruct parsed as [amt|]; simpl.
  2:{ split; [|split; [|split; [|split; [|split]]]].
      - split; [discriminate | intros (a & H & _); discriminate].
      - split; [discriminate | intros (a & H & _); discriminate].
      - reflexivity.
      - reflexivity.
      - reflexivity.
      - discriminate. }
  destruct (Z.leb_spec amt 0) as [Hle|Hpos]; simpl.
  { split; [|split; [|split; [|split; [|split]]]].
    - split; [discriminate | intros (a & H & Ha & _); injection H as <-; lia].
    - split; [discriminate | intros (a & H & Ha & _); injection H as <-; lia].
    - reflexivity.
    - reflexivity.
    - reflexivity.
    - discriminate. }
  destruct (Z.gtb_spec amt (balance r)) as [Hgt|Hbal]; simpl.
  { split; [|split; [|split; [|split; [|split]]]].
    - split; [discriminate|].
      intros (a & H & _ & Ha & _); injection H as <-; lia.
    - split; [intros _; exists amt; auto | reflexivity].
    - reflexivity.
    - reflexivity.
    - reflexivity.
    - discriminate. }
  unfold bind.
  pose proof (transfer_true r amt (Auth.id recipient) (Some desc) w) as Ht.
  pose proof (transfer_false r amt (Auth.id recipient) (Some desc) w) as Hf.
  destruct (transfer r amt (Auth.id recipient) (Some desc) w) as [ok w1].
  simpl in *. destruct ok; simpl.
  - destruct (Ht eq_refl) as (u' & Hu' & _ & _ & _ & Hrl & Hst).
    injection Hu' as <-.
    split; [|split; [|split; [|split; [|split]]]].
    + split; [discriminate|].
      intros (a & H & _ & _ & Hd); injection H as <-. congruence.
    + split; [discriminate|].
      intros (a & H & _ & Ha); injection H as <-; lia.
    + intros [H|H]; discriminate.
    + reflexivity.
    + discriminate.
    + intros a nm H. injection H as <- <-. split; [reflexivity|].
      split; [reflexivity|].
      eexists _, _. split; [exact Hst|]. repeat split.
  - destruct (Hf eq_refl) as [[Hn|[Hle|[Hlt|[(u' & Hu' & Hself)|Hd]]]] Hst];
      [discriminate Hn | lia | lia | |].
    { injection Hu' as <-. exfalso. apply Hother. symmetry. exact Hself. }
    split; [|split; [|split; [|split; [|split]]]].
    + split; [intros _; exists amt; auto | reflexivity].
    + split; [discriminate|].
      intros (a & H & _ & Ha); injection H as <-; lia.
    + intros [H|H]; discriminate.
    + reflexivity.
    + intros _ _. exact Hst.
    + discriminate.
Qed.

Lemma handleTransfer_messages_witness :
  let r := {| currentUser := Some alice; transactions := aliceHas20000 |} in
  let w := worldWith aliceHas20000 (tickingFrom twoHoursIn) in
  Auth.id bob <> Auth.id alice /\
  fst (handleTransfer r (Some bob) (Some 6000) "rent" w)
    = toastError "Transfer failed. Please check your limits and try again." /\
  fst (checkRateLimits r 6000 lk_transfer w) = false /\
  fst (handleTransfer r (Some bob) (Some 50) "rent" w)
    = toastTransferred 50 "Bob".
Proof.
  intros r w.
  assert (Hne : Auth.id bob <> Auth.id alice) by discriminate.
  destruct (handleTransfer_messages alice bob aliceHas20000 (Some 6000) "rent"
              w Hne) as ([Hlim _] & _).
  assert (E1 : fst (handleTransfer r (Some bob) (Some 6000) "rent" w)
               = toastError
                   "Transfer failed. Please check your limits and try again.")
    by (vm_compute; reflexivity).
  split; [exact Hne|]. split; [exact E1|]. split.
  - destruct (Hlim E1) as (a & Ha & _ & _ & Hd). injection Ha as <-. exact Hd.
  - vm_compute. reflexivity.
Defined.

(** * The provider over any arithmetic of amounts: properties *)

(** ** Overdrawing from one render *)

(** [C3, on the code, fails] Alice deposits 100.  The render that follows
    shows a balance of 100; two withdrawals of 100 issued from that one
    render both pass the test [amount > balance], which reads the balance
    of the render, and both are appended: the balance derived from the log
    is -100. *)
Theorem two_withdrawals_from_one_render :
  let w1 := snd (deposit (render (Some alice) freshWorld) 100 None freshWorld) in
  let r := render (Some alice) w1 in
  let w2 := snd (withdraw r 100 None w1) in
  let w3 := snd (withdraw r 100 None w2) in
  store freshWorld = []
  /\ balance r = 100
  /\ fst (withdraw r 100 None w1) = true
  /\ fst (withdraw r 100 None w2) = true
  /\ map (fun t => (type t, amount t)) (store w3)
     = [(ty_deposit, 100); (ty_withdrawal, 100); (ty_withdrawal, 100)]
  /\ BalanceOf alice (store w3) = -100.
Proof. vm_compute. repeat split; reflexivity. Qed.

(** The same guard lets a withdrawal of NaN through, in doubles: from the
    empty log it returns success, the entry is stored, and the balance is
    NaN from then on, which is not [>= 0]. *)
Example withdrawal_of_NaN_passes :
  let r := Ledger.render (Some alice) doubleWorld in
  let res := Ledger.withdraw r notANumber None doubleWorld in
  fst res = true
  /\ List.length (Ledger.store (snd res)) = 1%nat
  /\ PrimFloat.leb (Ledger.literal doubleArith 0)
       (Ledger.BalanceOf alice (Ledger.store (snd res))) = false.
Proof. vm_compute. repeat split; reflexivity. Qed.

Section LedgerFacts.

Variable A : Ledger.Arith.

(** ** The balance, entry by entry *)

Lemma balance_snoc (cu : option Auth.User) (log : list (Ledger.Transaction A))
    (t : Ledger.Transaction A) :
  Ledger.balance {| Ledger.currentUser := cu;
                    Ledger.transactions := log ++ [t] |}
  = if Ledger.ownedBy A cu t
    then Ledger.balanceStep A
           (Ledger.balance {| Ledger.currentUser := cu;
                              Ledger.transactions := log |}) t
    else Ledger.balance {| Ledger.currentUser := cu;
                           Ledger.transactions := log |}.
Proof.
  unfold Ledger.balance; simpl. rewrite filter_app, fold_left_app. simpl.
  destruct (Ledger.ownedBy A cu t); reflexivity.
Qed.

Lemma BalanceOf_snoc (actor : Auth.User) (log : list (Ledger.Transaction A))
    (t : Ledger.Transaction A) :
  Ledger.BalanceOf actor (log ++ [t])
  = if String.eqb (Auth.id actor) (Ledger.userId t)
    then (if isCreditType (Ledger.type t)
          then Ledger.plus A (Ledger.BalanceOf actor log) (Ledger.amount t)
          else Ledger.minus A (Ledger.BalanceOf actor log) (Ledger.amount t))
    else Ledger.BalanceOf actor log.
Proof.
  unfold Ledger.BalanceOf. rewrite balance_snoc. simpl.
  rewrite String.eqb_sym.
  destruct (String.eqb (Auth.id actor) (Ledger.userId t)); [|reflexivity].
  unfold Ledger.balanceStep, isCreditType.
  destruct (Ledger.type t); reflexivity.
Qed.

Lemma BalanceOf_strangers (actor : Auth.User)
    (log : list (Ledger.Transaction A)) :
  (forall t, In t log -> Ledger.userId t <> Auth.id actor) ->
  Ledger.BalanceOf actor log = Ledger.literal A 0.
Proof.
  intro H. unfold Ledger.BalanceOf, Ledger.balance; simpl.
  assert (E : filter (Ledger.ownedBy A (Some actor)) log = []).
  { induction log as [|t l IH]; simpl; [reflexivity|].
    destruct (String.eqb_spec (Ledger.userId t) (Auth.id actor)) as [E|E].
    - exfalso. apply (H t); [left; reflexivity | exact E].
    - apply IH. intros t' Ht'. apply H. right. exact Ht'. }
  rewrite E. reflexivity.
Qed.

(** ** What a call appends *)

Lemma checkRateLimits_keeps_store (r : Ledger.Render A) (amt : Ledger.num A)
    (kind : LimitedKind) (w : Ledger.World A) :
  Ledger.store (snd (Ledger.checkRateLimits r amt kind w)) = Ledger.store w.
Proof.
  unfold Ledger.checkRateLimits.
  destruct (Ledger.currentUser r); [|reflexivity].
  destruct (Ledger.gtb A amt _); [reflexivity|].
  unfold Ledger.bind, Ledger.Date_today, Ledger.Date_now, Ledger.ret. simpl.
  destruct (_ >=? _); [reflexivity|].
  destruct kind; simpl;
    match goal with |- context [if ?c then _ else _] => destruct c end;
    reflexivity.
Qed.

Lemma invoke_effect (r : Ledger.Render A) (c : Ledger.Call A)
    (w : Ledger.World A) :
  (fst (Ledger.invoke r c w) = false
   /\ Ledger.store (snd (Ledger.invoke r c w)) = Ledger.store w)
  \/ (fst (Ledger.invoke r c w) = true
      /\ exists batch,
           Ledger.store (snd (Ledger.invoke r c w)) = Ledger.store w ++ batch
           /\ appendedBy r c batch).
Proof.
  destruct c as [a d | a d | a rcp d]; simpl.
  - unfold Ledger.deposit, appendedBy.
    destruct (Ledger.currentUser r) as [u|]; [|left; split; reflexivity].
    destruct (Ledger.leb A a (Ledger.literal A 0)) eqn:Hle;
      [left; split; reflexivity|].
    right. split; [reflexivity|]. eexists. split; [reflexivity|].
    exists u. split; [reflexivity|]. split; [reflexivity|].
    eexists. repeat split.
  - unfold Ledger.withdraw, appendedBy.
    destruct (Ledger.currentUser r) as [u|]; [|left; split; reflexivity].
    destruct (Ledger.leb A a (Ledger.literal A 0)) eqn:Hle;
      [left; split; reflexivity|].
    destruct (Ledger.gtb A a (Ledger.balance r)) eqn:Hgt;
      [left; split; reflexivity|]. simpl.
    unfold Ledger.bind.
    pose proof (checkRateLimits_keeps_store r a lk_withdrawal w) as Hs.
    destruct (Ledger.checkRateLimits r a lk_withdrawal w) as [ok w1].
    simpl in Hs. destruct ok; simpl.
    + right. split; [reflexivity|]. eexists. rewrite <- Hs.
      split; [reflexivity|].
      exists u. split; [reflexivity|]. do 2 (split; [reflexivity|]).
      eexists. repeat split.
    + left. split; [reflexivity | exact Hs].
  - unfold Ledger.transfer, appendedBy.
    destruct (Ledger.currentUser r) as [u|]; [|left; split; reflexivity].
    destruct (Ledger.leb A a (Ledger.literal A 0)) eqn:Hle;
      [left; split; reflexivity|].
    destruct (Ledger.gtb A a (Ledger.balance r)) eqn:Hgt;
      [left; split; reflexivity|].
    destruct (String.eqb_spec (Auth.id u) rcp) as [Heq|Hne];
      [left; split; reflexivity|]. simpl.
    unfold Ledger.bind.
    pose proof (checkRateLimits_keeps_store r a lk_transfer w) as Hs.
    destruct (Ledger.checkRateLimits r a lk_transfer w) as [ok w1].
    simpl in Hs. destruct ok; simpl.
    + right. split; [reflexivity|]. eexists. rewrite <- Hs.
      split; [reflexivity|].
      exists u. split; [reflexivity|]. do 2 (split; [reflexivity|]).
      split; [exact Hne|].
      eexists _, _. repeat split.
    + left. split; [reflexivity | exact Hs].
Qed.

Lemma run_keeps (P : list (Ledger.Transaction A) -> Prop) :
  (forall r c log batch, P log -> appendedBy r c batch -> P (log ++ batch)) ->
  forall calls w, P (Ledger.store w) -> P (Ledger.store (Ledger.run calls w)).
Proof.
  intros Hstep calls.
  induction calls as [|[r c] rest IH]; intros w Hw; simpl; [exact Hw|].
  apply IH.
  destruct (invoke_effect r c w) as [[_ ->] | [_ (batch & -> & Hb)]];
    [exact Hw | exact (Hstep r c _ _ Hw Hb)].
Qed.

End LedgerFacts.

(** ** In an exact arithmetic *)

Section ExactFacts.

Context {A : Ledger.Arith} (E : Ledger.Exact A).

Lemma toZ_fold_balanceStep (l : list (Ledger.Transaction A))
    (acc : Ledger.num A) :
  Ledger.toZ A E (fold_left (Ledger.balanceStep A) l acc)
  = Ledger.toZ A E acc + netWorth E l.
Proof.
  revert acc. induction l as [|t l IH]; intro acc; simpl; [lia|].
  rewrite IH. unfold Ledger.balanceStep, signedWorth.
  destruct (Ledger.type t);
    rewrite ?(Ledger.toZ_plus A E), ?(Ledger.toZ_minus A E); lia.
Qed.

Lemma toZ_total (l : list (Ledger.Transaction A)) :
  Ledger.toZ A E (Ledger.total l) = worth E l.
Proof.
  induction l as [|t l IH]; simpl; [apply (Ledger.toZ_zero A E)|].
  rewrite (Ledger.toZ_plus A E), IH. reflexivity.
Qed.

Lemma netWorth_owned (actor : Auth.User) (log : list (Ledger.Transaction A)) :
  netWorth E (filter (Ledger.ownedBy A (Some actor)) log)
  = netWorthOf E (Auth.id actor) log.
Proof.
  induction log as [|t l IH]; simpl; [reflexivity|].
  destruct (String.eqb (Ledger.userId t) (Auth.id actor)); simpl; lia.
Qed.

Lemma toZ_BalanceOf (actor : Auth.User) (log : list (Ledger.Transaction A)) :
  Ledger.toZ A E (Ledger.BalanceOf actor log)
  = netWorthOf E (Auth.id actor) log.
Proof.
  unfold Ledger.BalanceOf, Ledger.balance; simpl.
  rewrite toZ_fold_balanceStep, (Ledger.toZ_zero A E), netWorth_owned. lia.
Qed.

Lemma netWorthOf_credits_debits (actorId : string)
    (log : list (Ledger.Transaction A)) :
  netWorthOf E actorId log
  = worth E (Ledger.entriesOfTypes creditTypes actorId log)
    - worth E (Ledger.entriesOfTypes debitTypes actorId log).
Proof.
  induction log as [|t l IH]; simpl; [reflexivity|].
  rewrite IH, (String.eqb_sym actorId). unfold signedWorth.
  destruct (String.eqb (Ledger.userId t) actorId); simpl; [|lia].
  destruct (Ledger.type t); simpl; lia.
Qed.

Lemma netWorthOf_app (actorId : string) (l1 l2 : list (Ledger.Transaction A)) :
  netWorthOf E actorId (l1 ++ l2)
  = netWorthOf E actorId l1 + netWorthOf E actorId l2.
Proof. induction l1 as [|t l IH]; simpl; [reflexivity | rewrite IH; lia]. Qed.

Lemma netWorth_app (l1 l2 : list (Ledger.Transaction A)) :
  netWorth E (l1 ++ l2) = netWorth E l1 + netWorth E l2.
Proof. induction l1 as [|t l IH]; simpl; [reflexivity | rewrite IH; lia]. Qed.

End ExactFacts.

(** ** Balance derivation *)




(** ** What one operation does to the balances *)

(** [X5] A successful deposit makes the depositor's balance the previous
    balance plus the amount, one addition in the arithmetic of amounts, and
    leaves the balance of every other actor as it was.  (In doubles the
    addition rounds: see [a_deposit_lost_to_rounding].) *)
Theorem deposit_credits_the_depositor :
  forall (A : Ledger.Arith) (u : Auth.User)
         (log : list (Ledger.Transaction A)) (amt : Ledger.num A)
         (desc : option string) (w : Ledger.World A) (a : Auth.User),
    let r := {| Ledger.currentUser := Some u; Ledger.transactions := log |} in
    fst (Ledger.deposit r amt desc w) = true ->
    Ledger.BalanceOf a (Ledger.store (snd (Ledger.deposit r amt desc w)))
    = if String.eqb (Auth.id a) (Auth.id u)
      then Ledger.plus A (Ledger.BalanceOf a (Ledger.store w)) amt
      else Ledger.BalanceOf a (Ledger.store w).
Proof.
  intros A u log amt desc w a r Hok.
  destruct (invoke_effect A r (Ledger.Deposit amt desc) w)
    as [[Hf _] | [_ (batch & Hst & (u' & Hu & _ & tx & -> & Hown & Hty & Ham))]];
    simpl in *; [congruence|].
  injection Hu as <-. rewrite Hst, BalanceOf_snoc, Hown, Hty, Ham.
  reflexivity.
Qed.

Lemma deposit_credits_the_depositor_witness :
  let r := Ledger.render (Some alice) exactWorld in
  fst (Ledger.deposit r 40 None exactWorld) = true /\
  Ledger.BalanceOf alice
    (Ledger.store (snd (Ledger.deposit r 40 None exactWorld)))
  = Ledger.plus exactArith (Ledger.BalanceOf alice (Ledger.store exactWorld)) 40 /\
  Ledger.BalanceOf bob
    (Ledger.store (snd (Ledger.deposit r 40 None exactWorld)))
  = Ledger.BalanceOf bob (Ledger.store exactWorld).
Proof.
  intro r.
  assert (Hok : fst (Ledger.deposit r 40 None exactWorld) = true)
    by reflexivity.
  split; [exact Hok|]. split.
  - exact (deposit_credits_the_depositor exactArith alice [] 40 None
             exactWorld alice Hok).
  - exact (deposit_credits_the_depositor exactArith alice [] 40 None
             exactWorld bob Hok).
Defined.

(** In doubles: after a deposit of 2^53 a deposit of 1 returns success, is
    stored, and leaves the balance at 2^53. *)
Example a_deposit_lost_to_rounding :
  let one := Ledger.literal doubleArith 1 in
  let w1 := snd (Ledger.deposit (Ledger.render (Some alice) doubleWorld)
                   twoTo53 None doubleWorld) in
  let res := Ledger.deposit (Ledger.render (Some alice) w1) one None w1 in
  fst res = true
  /\ List.length (Ledger.store (snd res)) = 2%nat
  /\ Ledger.BalanceOf alice (Ledger.store w1) = twoTo53
  /\ Ledger.BalanceOf alice (Ledger.store (snd res)) = twoTo53.
Proof. vm_compute. repeat split; reflexivity. Qed.

(** [X6] A successful withdrawal makes the current user's balance the
    previous balance minus the amount, one subtraction in the arithmetic of
    amounts, and leaves the balance of every other actor as it was. *)
Theorem withdraw_debits_the_owner :
  forall (A : Ledger.Arith) (u : Auth.User)
         (log : list (Ledger.Transaction A)) (amt : Ledger.num A)
         (desc : option string) (w : Ledger.World A) (a : Auth.User),
    let r := {| Ledger.currentUser := Some u; Ledger.transactions := log |} in
    fst (Ledger.withdraw r amt desc w) = true ->
    Ledger.BalanceOf a (Ledger.store (snd (Ledger.withdraw r amt desc w)))
    = if String.eqb (Auth.id a) (Auth.id u)
      then Ledger.minus A (Ledger.BalanceOf a (Ledger.store w)) amt
      else Ledger.BalanceOf a (Ledger.store w).
Proof.
  intros A u log amt desc w a r Hok.
  destruct (invoke_effect A r (Ledger.Withdraw amt desc) w)
    as [[Hf _] | [_ (batch & Hst
                     & (u' & Hu & _ & _ & tx & -> & Hown & Hty & Ham))]];
    simpl in *; [congruence|].
  injection Hu as <-. rewrite Hst, BalanceOf_snoc, Hown, Hty, Ham.
  reflexivity.
Qed.

Lemma withdraw_debits_the_owner_witness :
  let w1 := Ledger.session (firstn 1 exactScenario) exactWorld in
  let r := Ledger.render (Some alice) w1 in
  fst (Ledger.withdraw r 30 None w1) = true /\
  Ledger.BalanceOf alice (Ledger.store (snd (Ledger.withdraw r 30 None w1)))
  = Ledger.minus exactArith (Ledger.BalanceOf alice (Ledger.store w1)) 30 /\
  Ledger.BalanceOf alice (Ledger.store (snd (Ledger.withdraw r 30 None w1)))
  = 70.
Proof.
  intros w1 r.
  assert (Hok : fst (Ledger.withdraw r 30 None w1) = true)
    by (vm_compute; reflexivity).
  split; [exact Hok|]. split; [|vm_compute; reflexivity].
  exact (withdraw_debits_the_owner exactArith alice (Ledger.store w1) 30 None
           w1 alice Hok).
Defined.

Lemma transfer_effect_on_balances (A : Ledger.Arith) (u : Auth.User)
    (log : list (Ledger.Transaction A)) (amt : Ledger.num A) (rcp : string)
    (desc : option string) (w : Ledger.World A) (a : Auth.User) :
  fst (Ledger.transfer {| Ledger.currentUser := Some u;
                          Ledger.transactions := log |} amt rcp desc w)
  = true ->
  Ledger.BalanceOf a
    (Ledger.store
       (snd (Ledger.transfer {| Ledger.currentUser := Some u;
                                Ledger.transactions := log |}
               amt rcp desc w)))
  = if String.eqb (Auth.id a) (Auth.id u)
    then Ledger.minus A (Ledger.BalanceOf a (Ledger.store w)) amt
    else if String.eqb (Auth.id a) rcp
         then Ledger.plus A (Ledger.BalanceOf a (Ledger.store w)) amt
         else Ledger.BalanceOf a (Ledger.store w).
Proof.
  intro Hok.
  destruct (invoke_effect A
              {| Ledger.currentUser := Some u; Ledger.transactions := log |}
              (Ledger.Transfer amt rcp desc) w)
    as [[Hf _] | [_ (batch & Hst
                     & (u' & Hu & _ & _ & Hne & out & inc & -> & Hoo & Hot
                        & Hoa & Hio & Hit & Hia))]];
    simpl in *; [congruence|].
  injection Hu as <-. rewrite Hst.
  change [out; inc] with ([out] ++ [inc]). rewrite app_assoc.
  rewrite !BalanceOf_snoc, Hoo, Hot, Hoa, Hio, Hit, Hia. simpl.
  destruct (String.eqb_spec (Auth.id a) (Auth.id u)) as [E|E];
    [|reflexivity].
  destruct (String.eqb_spec (Auth.id a) rcp) as [E'|E']; [|reflexivity].
  exfalso. apply Hne. congruence.
Qed.

(** [X7] A successful transfer makes the sender's balance the previous
    balance minus the amount and the recipient's the previous balance plus
    the amount, each one operation in the arithmetic of amounts, and leaves
    the balance of every other actor as it was. *)
Theorem transfer_moves_the_amount :
  forall (A : Ledger.Arith) (u : Auth.User)
         (log : list (Ledger.Transaction A)) (amt : Ledger.num A)
         (rcp : string) (desc : option string) (w : Ledger.World A)
         (a : Auth.User),
    let r := {| Ledger.currentUser := Some u; Ledger.transactions := log |} in
    fst (Ledger.transfer r amt rcp desc w) = true ->
    Ledger.BalanceOf a (Ledger.store (snd (Ledger.transfer r amt rcp desc w)))
    = if String.eqb (Auth.id a) (Auth.id u)
      then Ledger.minus A (Ledger.BalanceOf a (Ledger.store w)) amt
      else if String.eqb (Auth.id a) rcp
           then Ledger.plus A (Ledger.BalanceOf a (Ledger.store w)) amt
           else Ledger.BalanceOf a (Ledger.store w).
Proof.
  intros A u log amt rcp desc w a r. apply transfer_effect_on_balances.
Qed.

Lemma transfer_moves_the_amount_witness :
  let w2 := Ledger.session (firstn 2 exactScenario) exactWorld in
  let r := Ledger.render (Some alice) w2 in
  let w3 := snd (Ledger.transfer r 50 "bob" None w2) in
  fst (Ledger.transfer r 50 "bob" None w2) = true /\
  Ledger.BalanceOf alice (Ledger.store w3)
  = Ledger.minus exactArith (Ledger.BalanceOf alice (Ledger.store w2)) 50 /\
  Ledger.BalanceOf bob (Ledger.store w3)
  = Ledger.plus exactArith (Ledger.BalanceOf bob (Ledger.store w2)) 50 /\
  Ledger.BalanceOf carol (Ledger.store w3)
  = Ledger.BalanceOf carol (Ledger.store w2).
Proof.
  intros w2 r w3.
  assert (Hok : fst (Ledger.transfer r 50 "bob" None w2) = true)
    by (vm_compute; reflexivity).
  split; [exact Hok|]. split; [|split].
  - exact (transfer_moves_the_amount exactArith alice (Ledger.store w2) 50
             "bob" None w2 alice Hok).
  - exact (transfer_moves_the_amount exactArith alice (Ledger.store w2) 50
             "bob" None w2 bob Hok).
  - exact (transfer_moves_the_amount exactArith alice (Ledger.store w2) 50
             "bob" None w2 carol Hok).
Defined.

(** [X9] No amount that is [<= 0] is ever stored: if every amount in the
    log fails the test [amount <= 0] before a history of calls (issued from
    any renders), every amount does after it.  For doubles this leaves the
    positive amounts and NaN, which is not [<= 0] either. *)
Theorem stored_amounts_passed_the_test :
  forall (A : Ledger.Arith) (calls : list (Ledger.Render A * Ledger.Call A))
         (w : Ledger.World A),
    Forall (fun t => Ledger.leb A (Ledger.amount t) (Ledger.literal A 0) = false)
           (Ledger.store w) ->
    Forall (fun t => Ledger.leb A (Ledger.amount t) (Ledger.literal A 0) = false)
           (Ledger.store (Ledger.run calls w)).
Proof.
  intros A calls.
  apply (run_keeps A
           (Forall (fun t => Ledger.leb A (Ledger.amount t)
                               (Ledger.literal A 0) = false))).
  intros r c log batch Hlog (u & _ & Hb).
  apply Forall_app. split; [exact Hlog|].
  destruct c as [a d | a d | a rcp d].
  - destruct Hb as (Hle & tx & -> & _ & _ & Ham).
    repeat constructor. rewrite Ham. exact Hle.
  - destruct Hb as (Hle & _ & tx & -> & _ & _ & Ham).
    repeat constructor. rewrite Ham. exact Hle.
  - destruct Hb as (Hle & _ & _ & out & inc & -> & _ & _ & Hoa & _ & _ & Hia).
    repeat constructor; [rewrite Hoa | rewrite Hia]; exact Hle.
Qed.

Lemma stored_amounts_passed_the_test_witness :
  let r := Ledger.render (Some alice) doubleWorld in
  let calls := [ (r, @Ledger.Deposit doubleArith (fraction 1 10) None);
                 (r, @Ledger.Deposit doubleArith
                       (Ledger.literal doubleArith 0) None);
                 (r, @Ledger.Deposit doubleArith notANumber None) ] in
  Forall (fun t : Ledger.Transaction doubleArith =>
            PrimFloat.leb (Ledger.amount t)
                     (Ledger.literal doubleArith 0) = false)
         (Ledger.store doubleWorld) /\
  Forall (fun t : Ledger.Transaction doubleArith =>
            PrimFloat.leb (Ledger.amount t)
                     (Ledger.literal doubleArith 0) = false)
         (Ledger.store (Ledger.run calls doubleWorld)) /\
  List.length (Ledger.store (Ledger.run calls doubleWorld)) = 2%nat.
Proof.
  intros r calls.
  assert (H : Forall (fun t : Ledger.Transaction doubleArith =>
            PrimFloat.leb (Ledger.amount t)
                                 (Ledger.literal doubleArith 0) = false)
                     (Ledger.store doubleWorld)) by constructor.
  split; [exact H|]. split; [|vm_compute; reflexivity].
  exact (stored_amounts_passed_the_test doubleArith calls doubleWorld H).
Defined.

(** ** Conservation *)

Section ExactSums.

Context {A : Ledger.Arith} (E : Ledger.Exact A).

Lemma toZ_sumBalances (actors : list Auth.User)
    (log : list (Ledger.Transaction A)) :
  Ledger.toZ A E (Ledger.sumBalances actors log) = actorsWorth E actors log.
Proof.
  unfold Ledger.sumBalances.
  assert (G : forall acc,
            Ledger.toZ A E
              (fold_left (fun acc a => Ledger.plus A acc (Ledger.BalanceOf a log))
                         actors acc)
            = Ledger.toZ A E acc + actorsWorth E actors log).
  { induction actors as [|a actors IH]; intro acc; simpl; [lia|].
    rewrite IH, (Ledger.toZ_plus A E), (toZ_BalanceOf E). lia. }
  rewrite G, (Ledger.toZ_zero A E). lia.
Qed.

Lemma actorsWorth_app (actors : list Auth.User)
    (l1 l2 : list (Ledger.Transaction A)) :
  actorsWorth E actors (l1 ++ l2)
  = actorsWorth E actors l1 + actorsWorth E actors l2.
Proof.
  induction actors as [|a actors IH]; simpl; [reflexivity|].
  rewrite IH, netWorthOf_app. lia.
Qed.

Lemma actorsWorth_stranger (actors : list Auth.User)
    (t : Ledger.Transaction A) :
  ~ In (Ledger.userId t) (map Auth.id actors) ->
  actorsWorth E actors [t] = 0.
Proof.
  induction actors as [|a actors IH]; simpl; intro Hnot; [reflexivity|].
  destruct (String.eqb_spec (Ledger.userId t) (Auth.id a)) as [Ea|Ea].
  - exfalso. apply Hnot. left. symmetry. exact Ea.
  - simpl in IH. rewrite IH; [lia|]. intro Hin. apply Hnot. right. exact Hin.
Qed.

Lemma actorsWorth_single (actors : list Auth.User)
    (t : Ledger.Transaction A) :
  NoDup (map Auth.id actors) ->
  In (Ledger.userId t) (map Auth.id actors) ->
  actorsWorth E actors [t] = signedWorth E t.
Proof.
  induction actors as [|a actors IH]; simpl; intros Hnd Hin; [contradiction|].
  inversion Hnd as [|x l Hnotin Hnd']; subst.
  destruct (String.eqb_spec (Ledger.userId t) (Auth.id a)) as [Ea|Ea].
  - pose proof (actorsWorth_stranger actors t) as Hs. simpl in Hs.
    rewrite Hs; [lia|]. rewrite Ea. exact Hnotin.
  - destruct Hin as [Hin|Hin]; [exfalso; apply Ea; symmetry; exact Hin|].
    pose proof (IH Hnd' Hin) as IH'. simpl in IH'. rewrite IH'. lia.
Qed.

Lemma actorsWorth_netWorth (actors : list Auth.User)
    (log : list (Ledger.Transaction A)) :
  NoDup (map Auth.id actors) ->
  Ledger.covers actors log ->
  actorsWorth E actors log = netWorth E log.
Proof.
  intros Hnd. induction log as [|t log IH]; intro Hcov.
  - clear. induction actors as [|a actors IHa]; simpl; [reflexivity|].
    simpl in IHa. rewrite IHa. reflexivity.
  - change (t :: log) with ([t] ++ log).
    rewrite actorsWorth_app, netWorth_app, actorsWorth_single, IH.
    + simpl. lia.
    + intros t' Ht'. apply Hcov. right. exact Ht'.
    + exact Hnd.
    + apply Hcov. left. reflexivity.
Qed.

Lemma toZ_depositedIn (rs : list (Ledger.Call A * bool)) :
  Ledger.toZ A E (Ledger.depositedIn rs) = depositedWorth E rs.
Proof.
  unfold Ledger.depositedIn.
  assert (G : forall acc,
            Ledger.toZ A E
              (fold_left (fun acc cr => match cr with
                                        | (Ledger.Deposit a _, true) =>
                                            Ledger.plus A acc a
                                        | _ => acc
                                        end) rs acc)
            = Ledger.toZ A E acc + depositedWorth E rs).
  { induction rs as [|[c ok] rs IH]; intro acc; simpl; [lia|].
    rewrite IH. destruct c, ok; rewrite ?(Ledger.toZ_plus A E); lia. }
  rewrite G, (Ledger.toZ_zero A E). lia.
Qed.

Lemma toZ_withdrawnIn (rs : list (Ledger.Call A * bool)) :
  Ledger.toZ A E (Ledger.withdrawnIn rs) = withdrawnWorth E rs.
Proof.
  unfold Ledger.withdrawnIn.
  assert (G : forall acc,
            Ledger.toZ A E
              (fold_left (fun acc cr => match cr with
                                        | (Ledger.Withdraw a _, true) =>
                                            Ledger.plus A acc a
                                        | _ => acc
                                        end) rs acc)
            = Ledger.toZ A E acc + withdrawnWorth E rs).
  { induction rs as [|[c ok] rs IH]; intro acc; simpl; [lia|].
    rewrite IH. destruct c, ok; rewrite ?(Ledger.toZ_plus A E); lia. }
  rewrite G, (Ledger.toZ_zero A E). lia.
Qed.

Lemma appendedBy_netWorth (r : Ledger.Render A) (c : Ledger.Call A)
    (batch : list (Ledger.Transaction A)) :
  appendedBy r c batch ->
  netWorth E batch
  = depositedWorth E [(c, true)] - withdrawnWorth E [(c, true)].
Proof.
  intros (u & _ & Hb). destruct c as [a d | a d | a rcp d]; simpl.
  - destruct Hb as (_ & tx & -> & _ & Hty & Ham). simpl.
    unfold signedWorth. rewrite Hty, Ham. lia.
  - destruct Hb as (_ & _ & tx & -> & _ & Hty & Ham). simpl.
    unfold signedWorth. rewrite Hty, Ham. lia.
  - destruct Hb as (_ & _ & _ & out & inc & -> & _ & Hot & Hoa & _ & Hit & Hia).
    simpl. unfold signedWorth. rewrite Hot, Hoa, Hit, Hia. lia.
Qed.

Lemma run_netWorth (calls : list (Ledger.Render A * Ledger.Call A))
    (w : Ledger.World A) :
  netWorth E (Ledger.store (Ledger.run calls w))
  = netWorth E (Ledger.store w)
    + depositedWorth E (Ledger.results calls w)
    - withdrawnWorth E (Ledger.results calls w).
Proof.
  revert w. induction calls as [|[r c] rest IH]; intro w; simpl; [lia|].
  rewrite IH.
  destruct (invoke_effect A r c w) as [[Hf Hst] | [Ht (batch & Hst & Hb)]].
  - rewrite Hf, Hst. destruct c; lia.
  - rewrite Ht, Hst, netWorth_app, (appendedBy_netWorth r c batch Hb).
    simpl. destruct c; lia.
Qed.

Lemma run_extends (calls : list (Ledger.Render A * Ledger.Call A))
    (w : Ledger.World A) :
  exists suffix,
    Ledger.store (Ledger.run calls w) = Ledger.store w ++ suffix.
Proof.
  apply (run_keeps A (fun log => exists suffix, log = Ledger.store w ++ suffix)).
  - intros r c log batch [s ->] _. exists (s ++ batch).
    rewrite app_assoc. reflexivity.
  - exists []. rewrite app_nil_r. reflexivity.
Qed.

End ExactSums.




(** ** What the limits guarantee over a session *)

Section Limits.

Variable A : Ledger.Arith.

Lemma checkRateLimits_outcome (r : Ledger.Render A) (amt : Ledger.num A)
    (kind : LimitedKind) (w : Ledger.World A) :
  Ledger.store (snd (Ledger.checkRateLimits r amt kind w)) = Ledger.store w
  /\ Ledger.startOfDay (snd (Ledger.checkRateLimits r amt kind w))
     = Ledger.startOfDay w
  /\ (exists k, forall n,
        Ledger.clock (snd (Ledger.checkRateLimits r amt kind w)) n
        = Ledger.clock w (k + n)%nat)
  /\ (fst (Ledger.checkRateLimits r amt kind w) = true ->
      exists u, Ledger.currentUser r = Some u /\ passedLimits r u amt kind w).
Proof.
  unfold Ledger.checkRateLimits, passedLimits.
  destruct (Ledger.currentUser r) as [u|]; simpl.
  2:{ repeat split; try discriminate. exists 0%nat. reflexivity. }
  destruct (Ledger.gtb A amt _); simpl.
  1:{ repeat split; try discriminate. exists 0%nat. reflexivity. }
  unfold Ledger.bind, Ledger.Date_today, Ledger.Date_now, Ledger.ret. simpl.
  destruct (_ >=? _) eqn:Hc; simpl.
  1:{ repeat split; try discriminate. exists 1%nat. reflexivity. }
  destruct kind; simpl;
    match goal with |- context [if ?c then _ else _] => destruct c eqn:Hg end;
    simpl;
    (split; [reflexivity|]); (split; [reflexivity|]);
    (split; [exists 2%nat; reflexivity|]);
    try discriminate;
    intros _; exists u; (split; [reflexivity|]); (split; [exact Hc | exact Hg]).
Qed.

(** What a call leaves behind: the day function, a later clock, and either
    the same log or the log with what the call appended, stamped with
    readings of the clock, after the limiter consented. *)
Lemma invoke_step (r : Ledger.Render A) (c : Ledger.Call A)
    (w : Ledger.World A) :
  Ledger.startOfDay (snd (Ledger.invoke r c w)) = Ledger.startOfDay w
  /\ (exists k, forall n,
        Ledger.clock (snd (Ledger.invoke r c w)) n
        = Ledger.clock w (k + n)%nat)
  /\ (Ledger.store (snd (Ledger.invoke r c w)) = Ledger.store w
      \/ exists u, Ledger.currentUser r = Some u /\
           match c with
           | Ledger.Deposit a _ =>
               exists tx j,
                 Ledger.store (snd (Ledger.invoke r c w))
                 = Ledger.store w ++ [tx]
                 /\ Ledger.userId tx = Auth.id u
                 /\ Ledger.type tx = ty_deposit
                 /\ Ledger.timestamp tx = Ledger.clock w j
           | Ledger.Withdraw a _ =>
               exists tx j,
                 Ledger.store (snd (Ledger.invoke r c w))
                 = Ledger.store w ++ [tx]
                 /\ Ledger.userId tx = Auth.id u
                 /\ Ledger.type tx = ty_withdrawal
                 /\ Ledger.amount tx = a
                 /\ Ledger.timestamp tx = Ledger.clock w j
                 /\ passedLimits r u a lk_withdrawal w
           | Ledger.Transfer a rcp _ =>
               exists out inc j1 j2,
                 Ledger.store (snd (Ledger.invoke r c w))
                 = Ledger.store w ++ [out; inc]
                 /\ Ledger.userId out = Auth.id u
                 /\ Ledger.type out = ty_transfer_out
                 /\ Ledger.amount out = a
                 /\ Ledger.timestamp out = Ledger.clock w j1
                 /\ Ledger.userId inc = rcp
                 /\ Ledger.type inc = ty_transfer_in
                 /\ Ledger.timestamp inc = Ledger.clock w j2
                 /\ Auth.id u <> rcp
                 /\ passedLimits r u a lk_transfer w
           end).
Proof.
  assert (Hnone : forall w0 : Ledger.World A,
            Ledger.startOfDay w0 = Ledger.startOfDay w0
            /\ (exists k, forall n,
                  Ledger.clock w0 n = Ledger.clock w0 (k + n)%nat)).
  { intro w0. split; [reflexivity|]. exists 0%nat. reflexivity. }
  destruct c as [a d | a d | a rcp d]; simpl.
  - unfold Ledger.deposit.
    destruct (Ledger.currentUser r) as [u|] eqn:Hu;
      [|destruct (Hnone w) as [H1 H2];
        split; [exact H1|]; split; [exact H2|]; left; reflexivity].
    destruct (Ledger.leb A a (Ledger.literal A 0));
      [destruct (Hnone w) as [H1 H2];
       split; [exact H1|]; split; [exact H2|]; left; reflexivity|].
    simpl. split; [reflexivity|]. split; [exists 1%nat; reflexivity|].
    right. exists u. split; [reflexivity|].
    eexists _, 0%nat. repeat split.
  - unfold Ledger.withdraw.
    destruct (Ledger.currentUser r) as [u|] eqn:Hu;
      [|destruct (Hnone w) as [H1 H2];
        split; [exact H1|]; split; [exact H2|]; left; reflexivity].
    destruct (Ledger.leb A a (Ledger.literal A 0) || _);
      [destruct (Hnone w) as [H1 H2];
       split; [exact H1|]; split; [exact H2|]; left; reflexivity|].
    unfold Ledger.bind.
    destruct (checkRateLimits_outcome r a lk_withdrawal w)
      as (Hst & Hsod & (k & Hk) & Hok).
    destruct (Ledger.checkRateLimits r a lk_withdrawal w) as [ok w1].
    simpl in Hst, Hsod, Hk, Hok. destruct ok; simpl.
    + split; [exact Hsod|].
      split; [exists (S k); intro n; rewrite Hk; f_equal; lia|].
      right. exists u. split; [reflexivity|].
      destruct (Hok eq_refl) as (u' & Hu' & Hpass).
      rewrite Hu in Hu'. injection Hu' as <-.
      eexists _, k. rewrite Hst. split; [reflexivity|].
      simpl. rewrite Hk, Nat.add_0_r. repeat split; apply Hpass.
    + split; [exact Hsod|]. split; [exists k; exact Hk|]. left. exact Hst.
  - unfold Ledger.transfer.
    destruct (Ledger.currentUser r) as [u|] eqn:Hu;
      [|destruct (Hnone w) as [H1 H2];
        split; [exact H1|]; split; [exact H2|]; left; reflexivity].
    destruct (String.eqb_spec (Auth.id u) rcp) as [Heq|Hne].
    { rewrite orb_true_r. destruct (Hnone w) as [H1 H2].
      split; [exact H1|]. split; [exact H2|]. left. reflexivity. }
    rewrite orb_false_r.
    destruct (Ledger.leb A a (Ledger.literal A 0) || _);
      [destruct (Hnone w) as [H1 H2];
       split; [exact H1|]; split; [exact H2|]; left; reflexivity|].
    unfold Ledger.bind.
    destruct (checkRateLimits_outcome r a lk_transfer w)
      as (Hst & Hsod & (k & Hk) & Hok).
    destruct (Ledger.checkRateLimits r a lk_transfer w) as [ok w1].
    simpl in Hst, Hsod, Hk, Hok. destruct ok; simpl.
    + split; [exact Hsod|].
      split; [exists (S (S k)); intro n; rewrite Hk; f_equal; lia|].
      right. exists u. split; [reflexivity|].
      destruct (Hok eq_refl) as (u' & Hu' & Hpass).
      rewrite Hu in Hu'. injection Hu' as <-.
      eexists _, _, k, (S k). rewrite Hst. split; [reflexivity|].
      simpl. rewrite !Hk, Nat.add_0_r, Nat.add_1_r.
      repeat split; try apply Hpass. exact Hne.
    + split; [exact Hsod|]. split; [exists k; exact Hk|]. left. exact Hst.
Qed.

Lemma session_invariant (P : Ledger.World A -> Prop) :
  (forall cu c w, P w -> P (snd (Ledger.invoke (Ledger.render cu w) c w))) ->
  forall calls w, P w -> P (Ledger.session calls w).
Proof.
  intros Hstep calls.
  induction calls as [|[cu c] rest IH]; intros w Hw; simpl; [exact Hw|].
  apply IH. apply Hstep. exact Hw.
Qed.

(** *** The day totals *)

Lemma dailyTotal_snoc (k : TransactionType) (u : Auth.User)
    (log : list (Ledger.Transaction A)) (t : Ledger.Transaction A)
    (today : Z) :
  Ledger.dailyTotal A k u (log ++ [t]) today
  = if String.eqb (Ledger.userId t) (Auth.id u) && Ledger.isType A k t
       && (Ledger.timestamp t >=? today)
    then Ledger.plus A (Ledger.dailyTotal A k u log today) (Ledger.amount t)
    else Ledger.dailyTotal A k u log today.
Proof.
  unfold Ledger.dailyTotal, Ledger.sumAmounts. rewrite filter_app. simpl.
  destruct (_ && _ && _);
    [rewrite fold_left_app | rewrite app_nil_r]; reflexivity.
Qed.

Lemma dailyTotal_same_id (k : TransactionType) (u v : Auth.User)
    (log : list (Ledger.Transaction A)) (today : Z) :
  Auth.id u = Auth.id v ->
  Ledger.dailyTotal A k u log today = Ledger.dailyTotal A k v log today.
Proof. intro E. unfold Ledger.dailyTotal. rewrite E. reflexivity. Qed.

Lemma dailyTotal_other_type (k : TransactionType) (u : Auth.User)
    (log : list (Ledger.Transaction A)) (t : Ledger.Transaction A)
    (today : Z) :
  typeEqb (Ledger.type t) k = false ->
  Ledger.dailyTotal A k u (log ++ [t]) today
  = Ledger.dailyTotal A k u log today.
Proof.
  intro H. rewrite dailyTotal_snoc. unfold Ledger.isType. rewrite H.
  rewrite andb_false_r. reflexivity.
Qed.

Lemma caps_step (day : Z) (cu : option Auth.User) (c : Ledger.Call A)
    (w : Ledger.World A) :
  allOnDay day w ->
  Forall (fun t => day <= Ledger.timestamp t) (Ledger.store w) ->
  (forall k actor,
     Ledger.gtb A (Ledger.dailyTotal A (chargedType k) actor
                     (Ledger.store w) day)
                (Ledger.literal A 5000) = false) ->
  allOnDay day (snd (Ledger.invoke (Ledger.render cu w) c w))
  /\ Forall (fun t => day <= Ledger.timestamp t)
            (Ledger.store (snd (Ledger.invoke (Ledger.render cu w) c w)))
  /\ (forall k actor,
        Ledger.gtb A
          (Ledger.dailyTotal A (chargedType k) actor
             (Ledger.store (snd (Ledger.invoke (Ledger.render cu w) c w)))
             day)
          (Ledger.literal A 5000) = false).
Proof.
  intros Hday Hlog Hcap.
  destruct (invoke_step (Ledger.render cu w) c w)
    as (Hsod & (n0 & Hck) & Hst).
  split; [intro n; rewrite Hsod, Hck; apply Hday|].
  assert (Hge : forall j, (Ledger.clock w j >=? day) = true).
  { intro j. apply Z.geb_le. apply Hday. }
  destruct Hst as [Hst | (u & Hu & Hc)].
  { rewrite Hst. split; assumption. }
  destruct c as [a d | a d | a rcp d].
  - destruct Hc as (tx & j & -> & Hown & Hty & Hts). split.
    + apply Forall_app. split; [exact Hlog|].
      repeat constructor. rewrite Hts. apply Hday.
    + intros k actor. rewrite dailyTotal_other_type; [apply Hcap|].
      rewrite Hty. destruct k; reflexivity.
  - destruct Hc as (tx & j & -> & Hown & Hty & Ham & Hts & Hcount & Hsum).
    cbn [Ledger.transactions Ledger.render chargedType] in Hsum.
    destruct (Hday 1%nat) as [Hd _]. rewrite Hd in Hsum. split.
    + apply Forall_app. split; [exact Hlog|].
      repeat constructor. rewrite Hts. apply Hday.
    + intros k actor. destruct k; cbn [chargedType].
      * rewrite dailyTotal_snoc. unfold Ledger.isType.
        rewrite Hty, Hts, Hge, Hown, Ham. cbn [typeEqb andb].
        destruct (String.eqb_spec (Auth.id u) (Auth.id actor)) as [E|E];
          cbn [andb]; [|apply (Hcap lk_withdrawal)].
        rewrite <- (dailyTotal_same_id ty_withdrawal u actor _ _ E).
        exact Hsum.
      * rewrite dailyTotal_other_type; [apply (Hcap lk_transfer)|].
        rewrite Hty. reflexivity.
  - destruct Hc as (out & inc & j1 & j2 & -> & Hown & Hty & Ham & Hts
                    & Hown' & Hty' & Hts' & Hne & Hcount & Hsum).
    cbn [Ledger.transactions Ledger.render chargedType] in Hsum.
    destruct (Hday 1%nat) as [Hd _]. rewrite Hd in Hsum. split.
    + apply Forall_app. split; [exact Hlog|].
      repeat constructor; [rewrite Hts | rewrite Hts']; apply Hday.
    + intros k actor.
      change (Ledger.store w ++ [out; inc])
        with (Ledger.store w ++ ([out] ++ [inc])).
      rewrite app_assoc.
      rewrite dailyTotal_other_type;
        [|rewrite Hty'; destruct k; reflexivity].
      destruct k; cbn [chargedType].
      * rewrite dailyTotal_other_type; [apply (Hcap lk_withdrawal)|].
        rewrite Hty. reflexivity.
      * rewrite dailyTotal_snoc. unfold Ledger.isType.
        rewrite Hty, Hts, Hge, Hown, Ham. cbn [typeEqb andb].
        destruct (String.eqb_spec (Auth.id u) (Auth.id actor)) as [E|E];
          cbn [andb]; [|apply (Hcap lk_transfer)].
        rewrite <- (dailyTotal_same_id ty_transfer_out u actor _ _ E).
        exact Hsum.
Qed.

Lemma session_caps (calls : list (option Auth.User * Ledger.Call A))
    (w0 : Ledger.World A) (day : Z) :
  Ledger.gtb A (Ledger.literal A 0) (Ledger.literal A 5000) = false ->
  Ledger.store w0 = [] ->
  allOnDay day w0 ->
  Forall (fun t => day <= Ledger.timestamp t)
         (Ledger.store (Ledger.session calls w0))
  /\ (forall k actor,
        Ledger.gtb A
          (Ledger.dailyTotal A (chargedType k) actor
             (Ledger.store (Ledger.session calls w0)) day)
          (Ledger.literal A 5000) = false).
Proof.
  intros Hzero Hempty Hday.
  assert (H : allOnDay day (Ledger.session calls w0)
              /\ Forall (fun t => day <= Ledger.timestamp t)
                        (Ledger.store (Ledger.session calls w0))
              /\ (forall k actor,
                    Ledger.gtb A
                      (Ledger.dailyTotal A (chargedType k) actor
                         (Ledger.store (Ledger.session calls w0)) day)
                      (Ledger.literal A 5000) = false)).
  { apply (session_invariant
             (fun w => allOnDay day w
                       /\ Forall (fun t => day <= Ledger.timestamp t)
                                 (Ledger.store w)
                       /\ (forall k actor,
                             Ledger.gtb A
                               (Ledger.dailyTotal A (chargedType k) actor
                                  (Ledger.store w) day)
                               (Ledger.literal A 5000) = false))).
    - intros cu c w (H1 & H2 & H3). apply caps_step; assumption.
    - rewrite Hempty. split; [exact Hday|]. split; [constructor|].
      intros k actor. exact Hzero. }
  split; apply H.
Qed.

(** *** The entries of a minute *)

Lemma debits_within_recent (u : Auth.User) (ks : list TransactionType)
    (log : list (Ledger.Transaction A)) (cutoff : Z) :
  Forall (fun t => cutoff < Ledger.timestamp t) log ->
  (List.length (Ledger.entriesOfTypes ks (Auth.id u) log)
   <= List.length (Ledger.recentTransactions A u log cutoff))%nat.
Proof.
  induction 1 as [|t l Ht Hl IH]; simpl; [lia|].
  rewrite (String.eqb_sym (Auth.id u)).
  destruct (String.eqb (Ledger.userId t) (Auth.id u)); simpl; [|exact IH].
  apply Z.gtb_lt in Ht. rewrite Ht.
  destruct (existsb _ ks); simpl; lia.
Qed.

Lemma entriesOfTypes_app (ks : list TransactionType) (a : string)
    (l1 l2 : list (Ledger.Transaction A)) :
  Ledger.entriesOfTypes ks a (l1 ++ l2)
  = Ledger.entriesOfTypes ks a l1 ++ Ledger.entriesOfTypes ks a l2.
Proof. apply filter_app. Qed.

Lemma minute_step (cu : option Auth.User) (c : Ledger.Call A)
    (w : Ledger.World A) :
  allInOneMinute w ->
  Forall (fun t => forall n, Ledger.clock w n - Ledger.timestamp t < 60000)
         (Ledger.store w) ->
  (forall actorId,
     (List.length (Ledger.entriesOfTypes debitTypes actorId (Ledger.store w))
      <= 5)%nat) ->
  allInOneMinute (snd (Ledger.invoke (Ledger.render cu w) c w))
  /\ Forall (fun t => forall n,
               Ledger.clock (snd (Ledger.invoke (Ledger.render cu w) c w)) n
               - Ledger.timestamp t < 60000)
            (Ledger.store (snd (Ledger.invoke (Ledger.render cu w) c w)))
  /\ (forall actorId,
        (List.length
           (Ledger.entriesOfTypes debitTypes actorId
              (Ledger.store (snd (Ledger.invoke (Ledger.render cu w) c w))))
         <= 5)%nat).
Proof.
  intros Hmin Hlog Hfive.
  destruct (invoke_step (Ledger.render cu w) c w)
    as (_ & (n0 & Hck) & Hst).
  split; [intros i j; rewrite !Hck; apply Hmin|].
  assert (Hold : Forall (fun t => forall n,
                   Ledger.clock (snd (Ledger.invoke (Ledger.render cu w) c w)) n
                   - Ledger.timestamp t < 60000) (Ledger.store w)).
  { apply (Forall_impl _
             (P := fun t => forall n,
                     Ledger.clock w n - Ledger.timestamp t < 60000));
      [|exact Hlog].
    intros t Ht n. rewrite Hck. apply Ht. }
  assert (Hroom : forall u a kind,
            passedLimits (Ledger.render cu w) u a kind w ->
            (List.length (Ledger.entriesOfTypes debitTypes (Auth.id u)
                            (Ledger.store w)) < 5)%nat).
  { intros u a kind [Hcount _].
    cbn [Ledger.transactions Ledger.render] in Hcount.
    rewrite Z.geb_leb in Hcount. apply Z.leb_gt in Hcount.
    pose proof (debits_within_recent u debitTypes (Ledger.store w)
                  (Ledger.clock w 0%nat - 60000)) as Hle.
    assert (Hall : Forall (fun t => Ledger.clock w 0%nat - 60000
                                    < Ledger.timestamp t) (Ledger.store w)).
    { apply (Forall_impl _
               (P := fun t => forall n,
                       Ledger.clock w n - Ledger.timestamp t < 60000));
        [|exact Hlog].
      intros t Ht. specialize (Ht 0%nat). lia. }
    specialize (Hle Hall). lia. }
  destruct Hst as [Hst | (u & Hu & Hc)].
  { rewrite Hst. split; assumption. }
  destruct c as [a d | a d | a rcp d].
  - destruct Hc as (tx & j & -> & Hown & Hty & Hts). split.
    + apply Forall_app. split; [exact Hold|].
      repeat constructor. intro n. rewrite Hck, Hts. apply Hmin.
    + intro actorId. rewrite entriesOfTypes_app, length_app.
      unfold Ledger.entriesOfTypes at 2. cbn [filter].
      rewrite Hty. cbn [debitTypes existsb typeEqb orb].
      rewrite andb_false_r. simpl. specialize (Hfive actorId). lia.
  - destruct Hc as (tx & j & -> & Hown & Hty & Ham & Hts & Hpass). split.
    + apply Forall_app. split; [exact Hold|].
      repeat constructor. intro n. rewrite Hck, Hts. apply Hmin.
    + intro actorId. rewrite entriesOfTypes_app, length_app.
      unfold Ledger.entriesOfTypes at 2. cbn [filter].
      rewrite Hown, Hty. cbn [debitTypes existsb typeEqb orb].
      destruct (String.eqb_spec actorId (Auth.id u)) as [E|E]; simpl.
      * subst actorId. pose proof (Hroom u a lk_withdrawal Hpass). lia.
      * specialize (Hfive actorId). lia.
  - destruct Hc as (out & inc & j1 & j2 & -> & Hown & Hty & Ham & Hts
                    & Hown' & Hty' & Hts' & Hne & Hpass). split.
    + apply Forall_app. split; [exact Hold|].
      repeat constructor; intro n; rewrite Hck;
        [rewrite Hts | rewrite Hts']; apply Hmin.
    + intro actorId. rewrite entriesOfTypes_app, length_app.
      unfold Ledger.entriesOfTypes at 2. cbn [filter].
      rewrite Hown, Hty, Hty'. cbn [debitTypes existsb typeEqb orb].
      rewrite andb_false_r.
      destruct (String.eqb_spec actorId (Auth.id u)) as [E|E]; simpl.
      * subst actorId. pose proof (Hroom u a lk_transfer Hpass). lia.
      * specialize (Hfive actorId). lia.
Qed.

End Limits.

Lemma integer_sums_agree (l : list (Ledger.Transaction exactArith)) (acc : Z) :
  fold_left (fun sum t => Ledger.plus exactArith sum (Ledger.amount t)) l acc
  = acc + Ledger.total l.
Proof.
  revert acc. induction l as [|t l IH]; intro acc; simpl; [lia|].
  rewrite IH. simpl. lia.
Qed.

Lemma dailyTotal_is_the_total (k : TransactionType) (actor : Auth.User)
    (log : list (Ledger.Transaction exactArith)) (day : Z) :
  Forall (fun t => day <= Ledger.timestamp t) log ->
  Ledger.dailyTotal exactArith k actor log day
  = Ledger.total (Ledger.entriesOfTypes [k] (Auth.id actor) log).
Proof.
  intro Hlog. unfold Ledger.dailyTotal, Ledger.sumAmounts.
  rewrite integer_sums_agree. simpl.
  unfold Ledger.entriesOfTypes. f_equal.
  apply filter_ext_in. intros t Ht.
  rewrite Forall_forall in Hlog. apply Hlog in Ht.
  apply Z.geb_le in Ht. rewrite Ht, andb_true_r.
  rewrite String.eqb_sym. unfold Ledger.isType. simpl.
  rewrite orb_false_r. reflexivity.
Qed.

(** [X14] The daily caps over a day.  In a session (every call is issued
    from the render of the committed log) that starts from the empty log
    and whose clock readings all fall on one calendar day, every entry is
    stamped on that day, and for every actor the day total of the
    withdrawals, added up in log order as the limiter adds it up, never
    tests greater than 5000; the same holds for the outgoing transfers.
    This holds in any arithmetic in which 0 does not test greater than
    5000, doubles included (a total that is NaN tests greater than
    nothing).  In integers the withdrawals of an actor add up to at most
    5000, and so do the outgoing transfers. *)
Theorem daily_caps_hold_over_a_day :
  (forall (A : Ledger.Arith)
          (calls : list (option Auth.User * Ledger.Call A))
          (w0 : Ledger.World A) (day : Z) (actor : Auth.User),
     Ledger.gtb A (Ledger.literal A 0) (Ledger.literal A 5000) = false ->
     Ledger.store w0 = [] ->
     allOnDay day w0 ->
     let log := Ledger.store (Ledger.session calls w0) in
     Forall (fun t => day <= Ledger.timestamp t) log
     /\ Ledger.gtb A (Ledger.dailyTotal A ty_withdrawal actor log day)
                   (Ledger.literal A 5000) = false
     /\ Ledger.gtb A (Ledger.dailyTotal A ty_transfer_out actor log day)
                   (Ledger.literal A 5000) = false)
  /\ (forall (calls : list (option Auth.User * Ledger.Call exactArith))
             (w0 : Ledger.World exactArith) (day : Z) (actorId : string),
        Ledger.store w0 = [] ->
        allOnDay day w0 ->
        let log := Ledger.store (Ledger.session calls w0) in
        Ledger.total (Ledger.entriesOfTypes [ty_withdrawal] actorId log)
          <= 5000
        /\ Ledger.total (Ledger.entriesOfTypes [ty_transfer_out] actorId log)
          <= 5000).
Proof.
  split.
  - intros A calls w0 day actor Hzero Hempty Hday log.
    destruct (session_caps A calls w0 day Hzero Hempty Hday) as [Hlog Hcap].
    split; [exact Hlog|].
    split; [exact (Hcap lk_withdrawal actor) | exact (Hcap lk_transfer actor)].
  - intros calls w0 day actorId Hempty Hday log.
    destruct (session_caps exactArith calls w0 day eq_refl Hempty Hday)
      as [Hlog Hcap].
    pose (actor := {| Auth.id := actorId; Auth.name := EmptyString;
                      Auth.email := EmptyString;
                      Auth.password := EmptyString; Auth.createdAt := 0 |}).
    pose proof (Hcap lk_withdrawal actor) as Hw.
    pose proof (Hcap lk_transfer actor) as Ht.
    cbn [chargedType] in Hw, Ht.
    rewrite (dailyTotal_is_the_total _ _ _ _ Hlog) in Hw.
    rewrite (dailyTotal_is_the_total _ _ _ _ Hlog) in Ht.
    cbn [Ledger.gtb exactArith Ledger.literal] in Hw, Ht.
    rewrite Z.gtb_ltb in Hw, Ht. apply Z.ltb_ge in Hw, Ht.
    split; assumption.
Qed.

Lemma daily_caps_hold_over_a_day_witness :
  Ledger.gtb doubleArith (whole 0) (whole 5000) = false /\
  Ledger.store stillDoubles = [] /\
  allOnDay 1728000000000 stillDoubles /\
  Ledger.gtb doubleArith
    (Ledger.dailyTotal doubleArith ty_withdrawal alice
       (Ledger.store (Ledger.session greedyDoubles stillDoubles))
       1728000000000)
    (whole 5000) = false /\
  allOnDay 1728000000000 stillIntegers /\
  Ledger.total (Ledger.entriesOfTypes [ty_withdrawal] "alice"
                  (Ledger.store (Ledger.session greedyIntegers stillIntegers)))
    <= 5000 /\
  map (fun t => (Ledger.type t, Ledger.amount t))
      (Ledger.store (Ledger.session greedyIntegers stillIntegers))
  = [ (ty_deposit, 20000); (ty_withdrawal, 3000);
      (ty_transfer_out, 3000); (ty_transfer_in, 3000) ].
Proof.
  assert (Hzero : Ledger.gtb doubleArith (whole 0) (whole 5000) = false)
    by (vm_compute; reflexivity).
  assert (Hd : allOnDay 1728000000000 stillDoubles).
  { intro n. split; [reflexivity | vm_compute; discriminate]. }
  assert (Hi : allOnDay 1728000000000 stillIntegers).
  { intro n. split; [reflexivity | vm_compute; discriminate]. }
  destruct daily_caps_hold_over_a_day as [Hany Hint].
  split; [exact Hzero|]. split; [reflexivity|]. split; [exact Hd|].
  split; [exact (proj1 (proj2 (Hany doubleArith greedyDoubles stillDoubles
                                 1728000000000 alice Hzero eq_refl Hd)))|].
  split; [exact Hi|].
  split; [exact (proj1 (Hint greedyIntegers stillIntegers 1728000000000
                          "alice" eq_refl Hi))|].
  vm_compute. reflexivity.
Defined.

(** From one outdated render the cap does not bind: after a deposit of
    20000, three withdrawals of 5000 issued from the render that followed
    the deposit all succeed. *)
Remark outdated_render_exceeds_the_daily_cap :
  let w1 := snd (Ledger.deposit (Ledger.render (Some alice) stillIntegers)
                   (20000 : Ledger.num exactArith) None stillIntegers) in
  let r := Ledger.render (Some alice) w1 in
  let c := @Ledger.Withdraw exactArith 5000 None in
  map snd (Ledger.results [(r, c); (r, c); (r, c)] w1) = [true; true; true]
  /\ Ledger.total (Ledger.entriesOfTypes [ty_withdrawal] "alice"
                     (Ledger.store (Ledger.run [(r, c); (r, c); (r, c)] w1)))
     = 15000.
Proof. vm_compute. split; reflexivity. Qed.

(** In doubles, once a withdrawal of NaN is in the log the day total is NaN
    and the cap tests nothing: two more withdrawals of 5000 succeed on the
    same day, in a session. *)
Example NaN_voids_the_daily_cap :
  let log := Ledger.store (Ledger.session afterNaN stillDoubles) in
  map Ledger.type log
  = [ty_deposit; ty_withdrawal; ty_withdrawal; ty_withdrawal]
  /\ map (fun t : Ledger.Transaction doubleArith =>
            PrimFloat.eqb (Ledger.amount t) (whole 5000)) log
     = [false; false; true; true]
  /\ Ledger.gtb doubleArith
       (Ledger.dailyTotal doubleArith ty_withdrawal alice log 1728000000000)
       (whole 5000) = false.
Proof. vm_compute. repeat split; reflexivity. Qed.

(** [X15] The per-minute limit over a minute.  In a session (every call is
    issued from the render of the committed log) that starts from the empty
    log and whose clock readings are all less than a minute apart, no actor
    ends up with more than five withdrawals and outgoing transfers
    together, whatever the arithmetic of amounts. *)
Theorem at_most_five_debits_a_minute :
  forall (A : Ledger.Arith)
         (calls : list (option Auth.User * Ledger.Call A))
         (w0 : Ledger.World A) (actorId : string),
    Ledger.store w0 = [] ->
    allInOneMinute w0 ->
    (List.length
       (Ledger.entriesOfTypes debitTypes actorId
          (Ledger.store (Ledger.session calls w0))) <= 5)%nat.
Proof.
  intros A calls w0 actorId Hempty Hmin.
  assert (H : allInOneMinute (Ledger.session calls w0)
              /\ Forall (fun t => forall n,
                           Ledger.clock (Ledger.session calls w0) n
                           - Ledger.timestamp t < 60000)
                        (Ledger.store (Ledger.session calls w0))
              /\ (forall a,
                    (List.length
                       (Ledger.entriesOfTypes debitTypes a
                          (Ledger.store (Ledger.session calls w0)))
                     <= 5)%nat)).
  { apply (session_invariant A
             (fun w => allInOneMinute w
                       /\ Forall (fun t => forall n,
                                    Ledger.clock w n - Ledger.timestamp t
                                    < 60000) (Ledger.store w)
                       /\ (forall a,
                             (List.length
                                (Ledger.entriesOfTypes debitTypes a
                                   (Ledger.store w)) <= 5)%nat))).
    - intros cu c w (H1 & H2 & H3). apply minute_step; assumption.
    - rewrite Hempty. split; [exact Hmin|]. split; [constructor|].
      intro a. simpl. lia. }
  apply H.
Qed.

Lemma at_most_five_debits_a_minute_witness :
  Ledger.store stillDoubles = [] /\ allInOneMinute stillDoubles /\
  (List.length
     (Ledger.entriesOfTypes debitTypes "alice"
        (Ledger.store (Ledger.session sevenDoubles stillDoubles))) <= 5)%nat /\
  map Ledger.type (Ledger.store (Ledger.session sevenDoubles stillDoubles))
  = [ty_deposit; ty_withdrawal; ty_withdrawal; ty_withdrawal; ty_withdrawal].
Proof.
  assert (Hmin : allInOneMinute stillDoubles).
  { intros i j. vm_compute. reflexivity. }
  split; [reflexivity|]. split; [exact Hmin|].
  split; [|vm_compute; reflexivity].
  exact (at_most_five_debits_a_minute doubleArith sevenDoubles stillDoubles
           "alice" eq_refl Hmin).
Defined.

(** From one outdated render the limit does not bind: after a deposit of
    100, seven withdrawals of 1 issued from the render that followed the
    deposit all succeed within the minute. *)
Remark seven_debits_from_one_render :
  let w1 := snd (Ledger.deposit (Ledger.render (Some alice) stillDoubles)
                   (whole 100) None stillDoubles) in
  let r := Ledger.render (Some alice) w1 in
  let calls := repeat (r, @Ledger.Withdraw doubleArith (whole 1) None) 7 in
  map snd (Ledger.results calls w1) = repeat true 7
  /\ List.length
       (Ledger.entriesOfTypes debitTypes "alice"
          (Ledger.store (Ledger.run calls w1))) = 7%nat.
Proof. vm_compute. split; reflexivity. Qed.
